(** * Content ingestion and permalink resolution of hcg-blog-generator

    A shallow embedding of [src/content/processor.ts] (the function
    [processContent] and its three inner helpers [generatePermalink],
    [generateOutputPath] and [processItem]) together with the parts of the
    JavaScript runtime and of the npm packages the processor calls, of
    [src/parsers/markdown.ts] ([parseMarkdownFile]) and of [src/config]
    ([DEFAULT_CONFIG], [mergeConfigs] and [loadConfig]).

    Conventions of the embedding.
    - A JavaScript string is a [string]: a sequence of bytes.  All character
      classes below are the ASCII ones; a byte above 127 stands for one unit
      of a UTF-8 encoded character.  Where the runtime looks at characters
      outside ASCII through tables of its own (the character map of
      [slugify], the host parser of [URL], the collation of
      [localeCompare]), its answer is a parameter.
    - The file system is POSIX: [path.sep] is a slash.
    - [console.log], [console.warn] and [console.error] append to a list of
      diagnostics that every effectful function returns with its result.
    - A call that can throw returns a [Result]; the only handler in the
      processor is the [try]/[catch] of [processItem], which turns every
      exception into a skipped file. *)

From stdpp Require Import gmap strings pretty list sorting.
From Stdlib Require Import Ascii.

(** ** JavaScript strings *)

Module Js.

Definition code (c : ascii) : N := N_of_ascii c.

Definition between (lo hi : N) (c : ascii) : bool :=
  ((lo <=? code c) && (code c <=? hi))%N.

(** [\d], [A-Z], [a-z] and [\s] (restricted to ASCII: tab, line feed,
    vertical tab, form feed, carriage return, space). *)
Definition isDigit : ascii → bool := between 48 57.
Definition isUpper : ascii → bool := between 65 90.
Definition isLower : ascii → bool := between 97 122.
Definition isSpace (c : ascii) : bool := between 9 13 c || (code c =? 32)%N.

Definition isAlnum (c : ascii) : bool := isDigit c || isUpper c || isLower c.

(** A character of ASCII: one byte, below 128. *)
Definition isAscii (c : ascii) : bool := (code c <? 128)%N.

(** [\w] *)
Definition isWord (c : ascii) : bool := isAlnum c || (code c =? 95)%N.

Definition toLowerChar (c : ascii) : ascii :=
  if isUpper c then ascii_of_N (code c + 32) else c.

Fixpoint map (f : ascii → ascii) (s : string) : string :=
  match s with
  | EmptyString => EmptyString
  | String c r => String (f c) (map f r)
  end.

Fixpoint filter (p : ascii → bool) (s : string) : string :=
  match s with
  | EmptyString => EmptyString
  | String c r => if p c then String c (filter p r) else filter p r
  end.

Fixpoint all (p : ascii → bool) (s : string) : bool :=
  match s with
  | EmptyString => true
  | String c r => p c && all p r
  end.

(** [s.toLowerCase()] *)
Definition toLowerCase : string → string := map toLowerChar.

(** [s.startsWith(p)] and [s.endsWith(p)] *)
Fixpoint startsWith (s p : string) {struct p} : bool :=
  match p, s with
  | EmptyString, _ => true
  | String _ _, EmptyString => false
  | String b p', String a s' => Ascii.eqb a b && startsWith s' p'
  end.

Definition endsWith (s p : string) : bool :=
  startsWith (String.rev s) (String.rev p).

(** [s.substring(1)] *)
Definition substring1 (s : string) : string :=
  match s with
  | EmptyString => EmptyString
  | String _ r => r
  end.

(** [s.split(sep)] for a separator of one character: never the empty
    array, [''.split('/')] is [['']]. *)
Fixpoint split (sep : ascii) (s : string) : list string :=
  match s with
  | EmptyString => [EmptyString]
  | String c r =>
      if Ascii.eqb c sep then EmptyString :: split sep r
      else match split sep r with
           | h :: t => String c h :: t
           | [] => [String c EmptyString]
           end
  end.

(** [a.join(sep)] *)
Definition join (sep : string) (l : list string) : string :=
  String.concat sep l.

(** [a.filter(Boolean)] on an array of strings keeps the non-empty ones. *)
Definition nonEmpty (s : string) : bool :=
  match s with EmptyString => false | _ => true end.

(** [s.trim()], on the ASCII white space. *)
Fixpoint trimStart (s : string) : string :=
  match s with
  | String c r => if isSpace c then trimStart r else s
  | EmptyString => EmptyString
  end.

Definition trim (s : string) : string :=
  String.rev (trimStart (String.rev (trimStart s))).

End Js.

(** ** Exceptions

    A call that can throw returns a [Result]: the value it returns, or the
    [message] of the error it throws. *)

Inductive Result (A : Type) :=
| Ok (a : A)
| Throw (message : string).
Arguments Ok {A} a.
Arguments Throw {A} message.

Global Instance Result_ret : MRet Result := λ _ a, Ok a.
Global Instance Result_bind : MBind Result := λ _ _ f r,
  match r with
  | Ok a => f a
  | Throw message => Throw message
  end.

(** ** Node's [path] module, POSIX flavour *)

Module Path.

Definition sep : ascii := "/"%char.

Definition isAbsolute (p : string) : bool := Js.startsWith p "/".

Fixpoint dropSlashes (s : string) : string :=
  match s with
  | String c r => if Ascii.eqb c sep then dropSlashes r else s
  | EmptyString => EmptyString
  end.

(** The characters before the first slash, and what follows that slash
    when there is one. *)
Fixpoint breakSlash (s : string) : string * option string :=
  match s with
  | EmptyString => (EmptyString, None)
  | String c r =>
      if Ascii.eqb c sep then (EmptyString, Some r)
      else let '(a, b) := breakSlash r in (String c a, b)
  end.

(** The backward scan shared by [parse], [dirname], [basename] and
    [extname]: trailing slashes are skipped, the last component is read,
    and the scan stops at the slash before it.  Result: the last
    component and, when a slash was met, the text before that slash. *)
Definition scanBack (s : string) : string * option string :=
  let '(b, rest) := breakSlash (dropSlashes (String.rev s)) in
  (String.rev b, String.rev <$> rest).

(** The extension of a last component: from its last dot on, unless there
    is no dot, the last dot is the first character, or the component is
    [..]. *)
Fixpoint breakDot (s : string) : string * option string :=
  match s with
  | EmptyString => (EmptyString, None)
  | String c r =>
      if Ascii.eqb c "."%char then (EmptyString, Some r)
      else let '(a, b) := breakDot r in (String c a, b)
  end.

Definition splitExt (base : string) : string * string :=
  match breakDot (String.rev base) with
  | (_, None) => (base, EmptyString)
  | (after, Some before) =>
      if decide (before = EmptyString) then (base, EmptyString)
      else if decide (base = "..") then (base, EmptyString)
      else (String.rev before, String "."%char (String.rev after))
  end.

Record ParsedPath := {
  root : string;
  dir : string;
  base : string;
  ext : string;
  name : string
}.

(** [path.parse(p)]: the scan does not look at the leading slash of an
    absolute path. *)
Definition parse (p : string) : ParsedPath :=
  let abs := isAbsolute p in
  let body := if abs then Js.substring1 p else p in
  let rt := if abs then "/" else EmptyString in
  let '(b, before) := scanBack body in
  let '(n, e) := splitExt b in
  {| root := rt;
     dir := match before with
            | Some d => rt +:+ d
            | None => rt
            end;
     base := b; ext := e; name := n |}.

(** [path.extname(p)] *)
Definition extname (p : string) : string := (splitExt (scanBack p).1).2.

(** [path.basename(p)] *)
Definition basename (p : string) : string := (scanBack p).1.

(** [path.dirname(p)] *)
Definition dirname (p : string) : string :=
  match p with
  | EmptyString => "."
  | String c r =>
      let abs := Ascii.eqb c sep in
      match (scanBack (if abs then r else p)).2 with
      | None => if abs then "/" else "."
      | Some d =>
          if abs && bool_decide (d = EmptyString) then "//"
          else if abs then String sep d else d
      end
  end.

(** [normalizeString]: empty and [.] components vanish, [..] removes the
    component before it; above the start it is kept only when
    [allowAboveRoot].  The components are accumulated in reverse. *)
Fixpoint normalizeParts (allowAboveRoot : bool) (acc parts : list string)
  : list string :=
  match parts with
  | [] => reverse acc
  | p :: rest =>
      if decide (p = EmptyString) then normalizeParts allowAboveRoot acc rest
      else if decide (p = ".") then normalizeParts allowAboveRoot acc rest
      else if decide (p = "..") then
        match acc with
        | q :: acc' =>
            if decide (q = "..")
            then normalizeParts allowAboveRoot (p :: acc) rest
            else normalizeParts allowAboveRoot acc' rest
        | [] =>
            normalizeParts allowAboveRoot
              (if allowAboveRoot then [p] else []) rest
        end
      else normalizeParts allowAboveRoot (p :: acc) rest
  end.

Definition normalizeString (p : string) (allowAboveRoot : bool) : string :=
  Js.join "/" (normalizeParts allowAboveRoot [] (Js.split sep p)).

(** [path.resolve(...args)]: the arguments are taken from the right until
    an absolute one is met; [cwd] is [process.cwd()], used when none is. *)
Fixpoint resolveFrom (cwd : string) (revArgs : list string) (acc : string)
  : string * bool :=
  match revArgs with
  | [] => (cwd +:+ "/" +:+ acc, isAbsolute cwd)
  | p :: rest =>
      if decide (p = EmptyString) then resolveFrom cwd rest acc
      else if isAbsolute p then (p +:+ "/" +:+ acc, true)
      else resolveFrom cwd rest (p +:+ "/" +:+ acc)
  end.

Definition resolve (cwd : string) (args : list string) : string :=
  let '(p, abs) := resolveFrom cwd (reverse args) EmptyString in
  let n := normalizeString p (negb abs) in
  if abs then String sep n
  else if decide (n = EmptyString) then "." else n.

(** [path.relative(from, to)]: both are resolved, their common leading
    components are dropped, and one [..] per component left of [from]
    leads to what is left of [to]. *)
Fixpoint dropCommon (a b : list string) : list string * list string :=
  match a, b with
  | x :: a', y :: b' => if decide (x = y) then dropCommon a' b' else (a, b)
  | _, _ => (a, b)
  end.

Definition components (p : string) : list string :=
  List.filter Js.nonEmpty (Js.split sep p).

Definition relative (cwd from to : string) : string :=
  if decide (from = to) then EmptyString
  else
    let '(f, t) :=
      dropCommon (components (resolve cwd [from]))
                 (components (resolve cwd [to])) in
    Js.join "/" (((λ _, "..") <$> f) ++ t).

End Path.

(** ** The [pathname] of [new URL(input, 'http://dummybase.com')]

    The WHATWG parser on an input that has no scheme of its own, as the one
    [generatePermalink] passes, which begins with a slash.  Leading and
    trailing C0 controls and spaces are stripped, tabs and newlines removed;
    a backslash reads like a slash.  After one slash comes the path: it ends
    at the first [?] or [#], its dot segments are resolved and the
    characters of the path percent-encode set are escaped.  After two
    slashes comes an authority instead (credentials, host and port): every
    further slash is skipped, the authority is the text up to the next
    slash, [?] or [#], and the path is what follows it; the constructor
    throws a [TypeError] with the message [Invalid URL] when the authority
    is empty or is refused.  Whether a text is accepted as the authority of
    an [http] URL is the verdict of the host parser, [validAuthority],
    which is taken as given. *)

Module Url.

Definition isC0OrSpace (c : ascii) : bool := (Js.code c <=? 32)%N.

Definition isTabOrNewline (c : ascii) : bool :=
  bool_decide (Js.code c ∈ [9; 10; 13]%N).

Fixpoint dropWhile (p : ascii → bool) (s : string) : string :=
  match s with
  | String c r => if p c then dropWhile p r else s
  | EmptyString => EmptyString
  end.

Fixpoint takeUntil (p : ascii → bool) (s : string) : string :=
  match s with
  | String c r => if p c then EmptyString else String c (takeUntil p r)
  | EmptyString => EmptyString
  end.

(** [s] without the characters of [p] at its end. *)
Fixpoint dropEnd (p : ascii → bool) (s : string) : string :=
  match s with
  | EmptyString => EmptyString
  | String c r =>
      match dropEnd p r with
      | EmptyString => if p c then EmptyString else String c EmptyString
      | r' => String c r'
      end
  end.

Definition strip (s : string) : string :=
  Js.filter (λ c, negb (isTabOrNewline c))
    (dropEnd isC0OrSpace (dropWhile isC0OrSpace s)).

Definition endsPath (c : ascii) : bool :=
  Ascii.eqb c "?"%char || Ascii.eqb c "#"%char.

Definition isSlash (c : ascii) : bool :=
  Ascii.eqb c "/"%char || Ascii.eqb c "\"%char.

Definition endsAuthority (c : ascii) : bool := isSlash c || endsPath c.

Definition slashed (c : ascii) : ascii :=
  if Ascii.eqb c "\"%char then "/"%char else c.

(** The path percent-encode set: C0 controls, everything above [~],
    space, double quote, [#], [<], [>], [?], backquote, [{] and [}]. *)
Definition inPathEncodeSet (c : ascii) : bool :=
  (Js.code c <=? 31)%N || (126 <? Js.code c)%N
  || bool_decide (Js.code c ∈ [32; 34; 35; 60; 62; 63; 96; 123; 125]%N).

Definition hexDigit (n : N) : ascii :=
  if (n <? 10)%N then ascii_of_N (48 + n) else ascii_of_N (55 + n).

Fixpoint percentEncode (s : string) : string :=
  match s with
  | EmptyString => EmptyString
  | String c r =>
      if inPathEncodeSet c
      then String "%"%char
             (String (hexDigit (Js.code c / 16))
                (String (hexDigit (Js.code c mod 16)) (percentEncode r)))
      else String c (percentEncode r)
  end.

Definition isSingleDot (seg : string) : bool :=
  bool_decide (Js.toLowerCase seg ∈ ["."; "%2e"]).

Definition isDoubleDot (seg : string) : bool :=
  bool_decide (Js.toLowerCase seg ∈ [".."; ".%2e"; "%2e."; "%2e%2e"]).

(** The path state, one segment at a time; [acc] is the path so far, in
    reverse.  A dot segment in last position leaves an empty segment. *)
Fixpoint pathState (acc : list string) (segs : list string) : list string :=
  match segs with
  | [] => reverse acc
  | seg :: rest =>
      let buffer := percentEncode seg in
      let final := match rest with [] => true | _ => false end in
      if isDoubleDot buffer then
        pathState (if final then EmptyString :: tail acc else tail acc) rest
      else if isSingleDot buffer then
        pathState (if final then EmptyString :: acc else acc) rest
      else pathState (buffer :: acc) rest
  end.

(** The pathname read from [s], the text after the slash that opens the
    path. *)
Definition pathOf (s : string) : string :=
  String "/"%char
    (Js.join "/"
       (pathState [] (Js.split "/" (Js.map slashed (takeUntil endsPath s))))).

(** The path start state: the slash that opens the path, when there is
    one, is passed over. *)
Definition pathFrom (s : string) : string :=
  match s with
  | String c r => if isSlash c then pathOf r else pathOf s
  | EmptyString => pathOf s
  end.

(** What follows the slashes of an input that begins with two of them. *)
Definition afterSlashes (s : string) : option string :=
  match s with
  | String c1 (String c2 r) =>
      if isSlash c1 && isSlash c2 then Some (dropWhile isSlash r) else None
  | _ => None
  end.

Definition pathname (validAuthority : string → bool) (input : string)
  : Result string :=
  let s := strip input in
  match afterSlashes s with
  | Some text =>
      let authority := takeUntil endsAuthority text in
      let after := dropWhile (λ c, negb (endsAuthority c)) text in
      if Js.nonEmpty authority && validAuthority authority
      then Ok (pathFrom after)
      else Throw "Invalid URL"
  | None => Ok (pathFrom s)
  end.

End Url.

(** ** The npm package [slugify], called with [{ lower: true, strict: true }]

    A first pass replaces every character through the package's character
    map, turns the replacement character [-] into a space and removes the
    characters that are not allowed; [strict] then keeps letters, digits and
    white space only; the result is trimmed, each run of white space becomes
    one [-], and the whole is lowercased.

    On an ASCII text the first pass is modelled: Unicode normalization
    leaves such a text as it is, and the character map has six ASCII
    entries.  On a text with a character outside ASCII it depends on the
    Unicode tables of the runtime and on the rest of the package's character
    map; there it is [transliterate], taken as given: the text after the
    first pass, a white-space character outside ASCII being written as a
    space (every character outside ASCII that the first pass leaves is
    white space). *)

Module Slugify.

Definition charMap (c : ascii) : option string :=
  if Ascii.eqb c "$" then Some "dollar"
  else if Ascii.eqb c "%" then Some "percent"
  else if Ascii.eqb c "&" then Some "and"
  else if Ascii.eqb c "<" then Some "less"
  else if Ascii.eqb c ">" then Some "greater"
  else if Ascii.eqb c "|" then Some "or"
  else None.

(** The complement of the default [remove] expression: word characters,
    white space, and the punctuation [$ * _ + ~ . ( ) ! - : @] with both
    quote characters. *)
Definition allowed (c : ascii) : bool :=
  Js.isWord c || Js.isSpace c
  || bool_decide
       (Js.code c ∈ [36; 42; 95; 43; 126; 46; 40; 41; 39; 34; 33; 45; 58; 64]%N).

Definition replacement : string := "-".

Fixpoint replaceChars (s : string) : string :=
  match s with
  | EmptyString => EmptyString
  | String c r =>
      let appendChar := default (String c EmptyString) (charMap c) in
      let appendChar :=
        if decide (appendChar = replacement) then " " else appendChar in
      Js.filter allowed appendChar +:+ replaceChars r
  end.

(** The first pass. *)
Definition firstPass (transliterate : string → string) (s : string)
  : string :=
  if Js.all Js.isAscii s then replaceChars s else transliterate s.

(** [/[^A-Za-z0-9\s]/g] removed *)
Definition strictKeep (c : ascii) : bool := Js.isAlnum c || Js.isSpace c.

(** [slug.replace(/\s+/g, replacement)]; [inRun] tells that the previous
    character was white space. *)
Fixpoint replaceSpaces (inRun : bool) (s : string) : string :=
  match s with
  | EmptyString => EmptyString
  | String c r =>
      if Js.isSpace c then
        if inRun then replaceSpaces true r
        else replacement +:+ replaceSpaces true r
      else String c (replaceSpaces false r)
  end.

Definition slugify (transliterate : string → string) (s : string) : string :=
  Js.toLowerCase
    (replaceSpaces false
       (Js.trim (Js.filter strictKeep (firstPass transliterate s)))).

End Slugify.

(** ** JavaScript values, the console and [Array.prototype.sort] *)

(** The values a front-matter key can hold, as far as the processor tells
    them apart.  [JsDate None] is an [Invalid Date], whose [getTime()] is
    [NaN]; [JsObject] is any other object (an array, a nested mapping). *)
Inductive JsValue :=
| JsUndefined
| JsNull
| JsBool (b : bool)
| JsNumber (n : Z)
| JsString (s : string)
| JsDate (time : option Z)
| JsObject.

(** [if (v)] *)
Definition truthy (v : JsValue) : bool :=
  match v with
  | JsUndefined | JsNull => false
  | JsBool b => b
  | JsNumber n => negb (n =? 0)%Z
  | JsString s => Js.nonEmpty s
  | JsDate _ | JsObject => true
  end.

Inductive Level := log | warn | error.

Record Diagnostic := Console { level : Level; text : string }.

(** [a.sort(compare)] is stable; for a consistent [compare] the result is
    the one arrangement that is sorted and keeps equal elements in their
    order.  It is computed here by insertion from the right. *)
Section Sort.
Context {A : Type} (compare : A → A → Z).

Fixpoint insertSorted (x : A) (l : list A) : list A :=
  match l with
  | [] => [x]
  | y :: r => if (compare x y <=? 0)%Z then x :: l else y :: insertSorted x r
  end.

Definition sort (l : list A) : list A := foldr insertSorted [] l.
End Sort.

(** ** [src/content/models.ts] and the configuration *)

(** [FrontMatter] is an open mapping: [gmap string JsValue]; a key that is
    not bound reads as [undefined]. *)
Definition prop (frontMatter : gmap string JsValue) (key : string) : JsValue :=
  default JsUndefined (frontMatter !! key).

Inductive FileType := markdown | html.
Inductive ItemType := post | page | draft.

Global Instance FileType_eq_dec : EqDecision FileType.
Proof. solve_decision. Defined.
Global Instance ItemType_eq_dec : EqDecision ItemType.
Proof. solve_decision. Defined.

(** [date] is the property a [Post] adds to a [ContentItem], here the time
    value of its [Date]; it is absent from pages and drafts. *)
Record ContentItem := {
  id : string;
  sourcePath : string;
  relativePath : string;
  fileType : FileType;
  isDraft : bool;
  frontMatter : gmap string JsValue;
  rawContent : string;
  htmlContent : string;
  permalink : string;
  outputHref : string;
  outputPath : string;
  date : option Z
}.

Record SiteContent := {
  posts : list ContentItem;
  pages : list ContentItem;
  drafts : list ContentItem
}.

(** [{ ...item, date: d }] *)
Definition withDate (item : ContentItem) (d : option Z) : ContentItem :=
  {| id := id item;
     sourcePath := sourcePath item;
     relativePath := relativePath item;
     fileType := fileType item;
     isDraft := isDraft item;
     frontMatter := frontMatter item;
     rawContent := rawContent item;
     htmlContent := htmlContent item;
     permalink := permalink item;
     outputHref := outputHref item;
     outputPath := outputPath item;
     date := d |}.

(** The result of [parseMarkdownFile] in [src/parsers/markdown.ts]. *)
Module Markdown.
Record ParsedMarkdown := {
  frontMatter : gmap string JsValue;
  markdownContent : string;
  htmlContent : string
}.
End Markdown.

(** [config.paths], resolved to absolute paths by the configuration loader;
    the processor reads these five. *)
Module Config.
Record Paths := {
  source : string;
  output : string;
  posts : string;
  pages : string;
  drafts : string
}.
Record SiteConfig := { paths : Paths }.
End Config.

Global Instance JsValue_eq_dec : EqDecision JsValue.
Proof. solve_decision. Defined.

(** [v instanceof Date] and [v.getTime()], [None] being [NaN]. *)
Definition instanceofDate (v : JsValue) : bool :=
  match v with JsDate _ => true | _ => false end.

Definition getTime (v : JsValue) : option Z :=
  match v with JsDate t => t | _ => None end.

(** [slugify(v, ...)] begins by throwing on an argument that is not a
    string. *)
Definition slugify (transliterate : string → string) (v : JsValue)
  : Result string :=
  match v with
  | JsString s => Ok (Slugify.slugify transliterate s)
  | _ => Throw "slugify: string argument expected"
  end.

(** [name.replace(/^\d{4}-\d{2}-\d{2}-/, '')] *)
Definition stripDatePrefix (name : string) : string :=
  match name with
  | String y1 (String y2 (String y3 (String y4 (String h1
      (String m1 (String m2 (String h2
        (String d1 (String d2 (String h3 rest)))))))))) =>
      if forallb Js.isDigit [y1; y2; y3; y4; m1; m2; d1; d2]
         && forallb (Ascii.eqb "-") [h1; h2; h3]
      then rest else name
  | _ => name
  end.

(** ** [src/content/processor.ts] *)

(** The item type inside the loop of [processContent]: one of the three
    types of [processItem], or the temporary ['root_page']. *)
Inductive FoundType := found (itemType : ItemType) | root_page.

Global Instance FoundType_eq_dec : EqDecision FoundType.
Proof. solve_decision. Defined.

Section Processor.

(** What [processContent] is given and what it reaches outside itself:
    the configuration, the working directory of the process (which
    [path.relative] and [path.resolve] consult for a relative path),
    [parseMarkdownFile] and [fs.readFile] as functions of the file path,
    which either return or throw, the collation of
    [String.prototype.localeCompare], the first pass of [slugify] on a text
    with characters outside ASCII, and the verdict of the URL parser on an
    authority. *)
Variable config : Config.SiteConfig.
Variable cwd : string.
Variable parseMarkdownFile : string → Result Markdown.ParsedMarkdown.
Variable readFile : string → Result string.
Variable localeCompare : string → string → Z.
Variable transliterate : string → string.
Variable validAuthority : string → bool.

(** *** [generatePermalink] *)

(** Lines 32-47: the slug. *)
Definition permalinkSlug (itemPath : string)
    (frontMatter : gmap string JsValue) (itemType : ItemType)
  : Result string :=
  let parsedPath := Path.parse itemPath in
  if truthy (prop frontMatter "slug") then
    slugify transliterate (prop frontMatter "slug")
  else if decide (itemType = post) then
    let nameWithoutDate := stripDatePrefix (Path.name parsedPath) in
    slugify transliterate (JsString nameWithoutDate)
  else
    slugify transliterate (JsString (Path.name parsedPath)).

(** Lines 49-72: the path segments. *)
Definition permalinkSegments (itemPath : string) (itemType : ItemType)
    (slug : string) : list string :=
  let parsedPath := Path.parse itemPath in
  match itemType with
  | post => ["blog"; slug]
  | draft => ["drafts"; slug]
  | page =>
      let pagesBaseDirName :=
        Path.basename (Config.pages (Config.paths config)) in
      let dirSegments :=
        filter (λ s, s ≠ EmptyString)
               (Js.split Path.sep (Path.dir parsedPath)) in
      let relevantSegments :=
        filter (λ segment, segment ≠ pagesBaseDirName) dirSegments in
      if decide (slug = "index") then relevantSegments
      else relevantSegments ++ [slug]
  end.

(** Lines 81-91: the trailing slash. *)
Definition withTrailingSlash (itemPath slug pathname : string) : string :=
  let finalPermalink := pathname in
  if bool_decide (finalPermalink ≠ "/")
     && (bool_decide (slug = "index")
         || bool_decide (Js.toLowerCase (Path.extname itemPath) = ".md"))
  then
    if negb (Js.endsWith finalPermalink "/") then finalPermalink +:+ "/"
    else finalPermalink
  else if bool_decide (finalPermalink ≠ "/")
          && negb (Js.endsWith finalPermalink "/")
          && bool_decide (Path.extname itemPath = EmptyString)
          && bool_decide (slug ≠ "index")
  then finalPermalink +:+ "/"
  else finalPermalink.

Definition generatePermalink (itemPath : string)
    (frontMatter : gmap string JsValue) (itemType : ItemType)
  : Result string :=
  slug ← permalinkSlug itemPath frontMatter itemType;
  let pathSegments := permalinkSegments itemPath itemType slug in
  let joinedPath := Js.join "/" pathSegments in
  pathname ←
    Url.pathname validAuthority
      (if Js.startsWith joinedPath "/" then joinedPath
       else "/" +:+ joinedPath);
  Ok (withTrailingSlash itemPath slug pathname).

(** *** [generateOutputPath] *)

Definition generateOutputPath (permalink : string) : string :=
  let filePath :=
    if Js.endsWith permalink "/" then permalink +:+ "index.html"
    else if negb (Js.nonEmpty (Path.extname permalink))
         then permalink +:+ ".html"
         else permalink in
  let relativeOutputPath :=
    if Js.startsWith filePath "/" then Js.substring1 filePath
    else filePath in
  Path.resolve cwd [Config.output (Config.paths config); relativeOutputPath].

(** *** [processItem] *)

(** The body of the [try] block: what it returns, or the exception that
    leaves it. *)
Definition tryProcessItem (filePath : string) (itemType : ItemType)
  : Result (option ContentItem * list Diagnostic) :=
  let relativePath :=
    Path.relative cwd (Config.source (Config.paths config)) filePath in
  let fileExtension := Js.toLowerCase (Path.extname filePath) in
  let fileType := if decide (fileExtension = ".md") then markdown else html in
  let isDraft := bool_decide (itemType = draft) in
  '(frontMatter, rawContent, htmlContent) ←
    match fileType with
    | markdown =>
        parsed ← parseMarkdownFile filePath;
        Ok (Markdown.frontMatter parsed, Markdown.markdownContent parsed,
            Markdown.htmlContent parsed)
    | html =>
        rawContent ← readFile filePath;
        Ok (∅, rawContent, rawContent)
    end;
  if bool_decide (prop frontMatter "published" = JsBool false)
     && negb isDraft
  then Ok (None, [Console log ("Skipping unpublished item: " +:+ relativePath)])
  else
    permalink ← generatePermalink relativePath frontMatter itemType;
    let outputPath := generateOutputPath permalink in
    let baseItem :=
      {| id := relativePath;
         sourcePath := filePath;
         relativePath := relativePath;
         fileType := fileType;
         isDraft := isDraft;
         frontMatter := frontMatter;
         rawContent := rawContent;
         htmlContent := htmlContent;
         permalink := permalink;
         outputHref := EmptyString;
         outputPath := outputPath;
         date := None |} in
    if decide (itemType = post) then
      let d := prop frontMatter "date" in
      if negb (truthy d) || negb (instanceofDate d)
         || bool_decide (getTime d = None)
      then Ok (None,
               [Console warn
                  ("[Warning] Skipping post due to missing or invalid date: "
                   +:+ relativePath)])
      else Ok (Some (withDate baseItem (getTime d)), [])
    else Ok (Some baseItem, []).

Definition processItem (filePath : string) (itemType : ItemType)
  : option ContentItem * list Diagnostic :=
  let relativePath :=
    Path.relative cwd (Config.source (Config.paths config)) filePath in
  match tryProcessItem filePath itemType with
  | Ok r => r
  | Throw message =>
      (None,
       [Console error
          ("[Error] Failed to process file " +:+ relativePath +:+ ": "
           +:+ message)])
  end.

(** *** The loop of [processContent] *)

(** Lines 218-227: the item type of a discovered file, [None] when the
    file is skipped. *)
Definition classify (filePath : string) : option FoundType :=
  if Js.startsWith filePath (Config.posts (Config.paths config))
  then Some (found post)
  else if Js.startsWith filePath (Config.drafts (Config.paths config))
  then Some (found draft)
  else if Js.startsWith filePath (Config.pages (Config.paths config))
  then Some (found page)
  else if decide (Path.dirname filePath = Config.source (Config.paths config))
  then Some root_page
  else None.

(** [itemType === 'root_page' ? 'page' : itemType] *)
Definition processedAs (itemType : FoundType) : ItemType :=
  match itemType with
  | root_page => page
  | found t => t
  end.

Definition emptyContent : SiteContent :=
  {| posts := []; pages := []; drafts := [] |}.

(** Lines 233-241: where a built item is pushed. *)
Definition push (itemType : FoundType) (processedItem : ContentItem)
    (c : SiteContent) : SiteContent :=
  if isDraft processedItem then
    {| posts := posts c; pages := pages c;
       drafts := drafts c ++ [processedItem] |}
  else if decide (itemType = found post) then
    {| posts := posts c ++ [processedItem]; pages := pages c;
       drafts := drafts c |}
  else
    {| posts := posts c; pages := pages c ++ [processedItem];
       drafts := drafts c |}.

(** One turn of [for (const filePath of files)]. *)
Definition loopBody (st : SiteContent * list Diagnostic) (filePath : string)
  : SiteContent * list Diagnostic :=
  let relativeToSource :=
    Path.relative cwd (Config.source (Config.paths config)) filePath in
  match classify filePath with
  | None =>
      (st.1,
       st.2 ++
       [Console warn
          ("[Warning] File found outside known content directories, skipping: "
           +:+ relativeToSource)])
  | Some itemType =>
      let '(processedItem, out) :=
        processItem filePath (processedAs itemType) in
      (match processedItem with
       | Some item => push itemType item st.1
       | None => st.1
       end,
       st.2 ++ out)
  end.

(** Lines 245-249: the three comparators. *)
Definition byDateDescending (a b : ContentItem) : Z :=
  (default 0 (date b) - default 0 (date a))%Z.

Definition byPermalink (a b : ContentItem) : Z :=
  localeCompare (permalink a) (permalink b).

(** [processContent], from the list [files] that [glob] resolved to. *)
Definition processContent (files : list string)
  : SiteContent * list Diagnostic :=
  let '(c, out) :=
    foldl loopBody
      (emptyContent,
       [Console log "Starting content processing...";
        Console log ("Found " +:+ pretty (length files)
                     +:+ " potential content files.")])
      files in
  let sorted :=
    {| posts := sort byDateDescending (posts c);
       pages := sort byPermalink (pages c);
       drafts := sort byPermalink (drafts c) |} in
  (sorted,
   out ++
   [Console log ("Processed: " +:+ pretty (length (posts sorted))
                 +:+ " posts, " +:+ pretty (length (pages sorted))
                 +:+ " pages, " +:+ pretty (length (drafts sorted))
                 +:+ " drafts.")]).

(** *** The contribution of one file

    Not in the source: the item that a discovered file adds to each
    collection, with which the results below describe what the loop
    computes. *)

Definition builtAs (filePath : string) (itemType : FoundType)
  : option ContentItem :=
  if decide (classify filePath = Some itemType)
  then (processItem filePath (processedAs itemType)).1
  else None.

Definition postOf (filePath : string) : option ContentItem :=
  builtAs filePath (found post).

Definition pageOf (filePath : string) : option ContentItem :=
  match builtAs filePath (found page) with
  | Some item => Some item
  | None => builtAs filePath root_page
  end.

Definition draftOf (filePath : string) : option ContentItem :=
  builtAs filePath (found draft).

(** The collections as the loop leaves them, before they are sorted. *)
Definition discovered (files : list string) : SiteContent :=
  {| posts := omap postOf files;
     pages := omap pageOf files;
     drafts := omap draftOf files |}.

End Processor.

(** ** Vocabulary of the specification *)

(** A character of [[a-z0-9-]]. *)
Definition isSlugChar (c : ascii) : bool :=
  Js.isDigit c || Js.isLower c || Ascii.eqb c "-".

(** The expression [/^\/([a-z0-9-]+\/)*$/] as an automaton: after the
    leading slash, [inSegment] tells that the current segment already has a
    character, so that a slash may close it. *)
Fixpoint permalinkTail (inSegment : bool) (s : string) : bool :=
  match s with
  | EmptyString => negb inSegment
  | String c r =>
      if Ascii.eqb c "/" then inSegment && permalinkTail false r
      else isSlugChar c && permalinkTail true r
  end.

Definition permalinkPattern (s : string) : bool :=
  match s with
  | String c r => Ascii.eqb c "/" && permalinkTail false r
  | EmptyString => false
  end.

Definition permalinkWellFormed (p : string) : Prop :=
  p = "/" ∨ permalinkPattern p = true.

(** A character of a permalink: of a segment, or the slash. *)
Definition isPathChar (c : ascii) : bool := isSlugChar c || Ascii.eqb c "/".

(** A character that [toLowerCase] takes into [[a-z0-9-]]. *)
Definition lowersToSlug (c : ascii) : bool := isSlugChar (Js.toLowerChar c).

(** A non-empty run of [[a-z0-9-]]: one repetition of the group of the
    expression, without its slash. *)
Definition isSlugSegment (s : string) : bool :=
  Js.nonEmpty s && Js.all isSlugChar s.

(** The text of the repetitions: every segment followed by its slash. *)
Definition closeSegments (segs : list string) : string :=
  foldr (λ seg r, seg +:+ "/" +:+ r) EmptyString segs.

(** No two hyphens in a row: [afterHyphen] tells that the previous
    character was one. *)
Fixpoint noHyphenRun (afterHyphen : bool) (s : string) : bool :=
  match s with
  | EmptyString => true
  | String c r =>
      if Ascii.eqb c "-" then negb afterHyphen && noHyphenRun true r
      else noHyphenRun false r
  end.

(** A path component that [path.resolve] keeps as it is. *)
Definition plainComponent (c : string) : bool :=
  Js.nonEmpty c && Js.all (λ a, negb (Ascii.eqb a "/")) c
  && bool_decide (c ≠ ".") && bool_decide (c ≠ "..").

(** [s.startsWith('/') ? s.substring(1) : s] *)
Definition withoutLeadingSlash (s : string) : string :=
  if Js.startsWith s "/" then Js.substring1 s else s.

(** The directory components of a source-relative path, as line 61 of the
    processor reads them. *)
Definition dirSegmentsOf (itemPath : string) : list string :=
  filter (λ s, s ≠ EmptyString)
         (Js.split Path.sep (Path.dir (Path.parse itemPath))).

(** The directory components a page keeps in its permalink: line 64. *)
Definition relevantSegmentsOf (config : Config.SiteConfig)
    (itemPath : string) : list string :=
  filter (λ segment,
            segment ≠ Path.basename (Config.pages (Config.paths config)))
         (dirSegmentsOf itemPath).

(** [filePath] lies under the directory [root]: it continues [root] with a
    separator. *)
Definition isUnder (root filePath : string) : bool :=
  Js.startsWith filePath (root +:+ "/").

(** The classification in the words of the specification: a path under
    the posts root, else under the drafts root, else under the pages root,
    else directly in the source root. *)
Definition classifyAsSpecified (config : Config.SiteConfig)
    (filePath : string) : option FoundType :=
  if isUnder (Config.posts (Config.paths config)) filePath
  then Some (found post)
  else if isUnder (Config.drafts (Config.paths config)) filePath
  then Some (found draft)
  else if isUnder (Config.pages (Config.paths config)) filePath
  then Some (found page)
  else if decide (Path.dirname filePath = Config.source (Config.paths config))
  then Some root_page
  else None.

(** Byte-wise lexicographic order on strings. *)
Definition bytewiseLe (a b : string) : Prop := String.compare a b ≠ Gt.

(** The three collections, one after the other. *)
Definition allItems (c : SiteContent) : list ContentItem :=
  posts c ++ pages c ++ drafts c.

(** A date value that is valid: a [Date] whose time is a number. *)
Definition validDate (v : JsValue) : Prop := ∃ t, v = JsDate (Some t).

(** The front matter lets [generatePermalink] return: its [slug] is falsy or
    a string. *)
Definition slugUsable (frontMatter : gmap string JsValue) : bool :=
  match prop frontMatter "slug" with
  | JsString _ => true
  | v => negb (truthy v)
  end.

(** A path segment that opens the path of a URL when it follows the
    leading slash: its first character is no slash, no backslash, and no tab
    or newline, which the URL parser would remove. *)
Definition opensPath (segment : string) : bool :=
  match segment with
  | String c _ => negb (Url.isSlash c) && negb (Url.isTabOrNewline c)
  | EmptyString => true
  end.

(** A word of a name: a non-empty run of ASCII letters and digits. *)
Definition isAlnumWord (w : string) : bool :=
  Js.nonEmpty w && Js.all Js.isAlnum w.

(** The text [YYYY-MM-DD-]: four digits, two digits and two digits, each
    followed by a hyphen. *)
Definition isDatePrefix (p : string) : bool :=
  match String.list_ascii_of_string p with
  | [y1; y2; y3; y4; h1; m1; m2; h2; d1; d2; h3] =>
      forallb Js.isDigit [y1; y2; y3; y4; m1; m2; d1; d2]
      && forallb (Ascii.eqb "-") [h1; h2; h3]
  | _ => false
  end.

(** The last component of a path that matches [*.{md,html}] under the
    option [dot: false], as every pattern of lines 196-201 ends: a name
    that ends with [.md] or [.html] and does not begin with a dot. *)
Definition contentFileName (base : string) : bool :=
  (Js.endsWith base ".md" || Js.endsWith base ".html")
  && negb (Js.startsWith base ".").

(** A path that [glob] can return for the patterns of lines 196-201. *)
Definition matchesContentPattern (filePath : string) : bool :=
  contentFileName (Path.basename filePath).

(** ** A collation for [localeCompare]

    The comparison of the CLDR root collation on ASCII, through sort keys:
    the primary weights of the characters (white space, then the
    punctuation and the symbols in the order of the collation table, the
    dollar sign last, then the digits, then the letters without regard to
    case), a separator lower than every weight, then the case weights
    (lower case first).  The control characters that are not white space
    have no weight.  A byte above 127 is given a weight after the letters:
    the collation of the characters outside ASCII is not modelled. *)

Module Intl.

(** Tab, line feed, vertical tab, form feed, carriage return, space. *)
Definition whiteSpace : list N := [9; 10; 11; 12; 13; 32]%N.

(** [_ - , ; : ! ? . ' ( ) [ ] { } @ * / \ & # %], the double quote
    standing after the apostrophe, then [` ^ + < = > | ~ $]. *)
Definition punctuation : list N :=
  [95; 45; 44; 59; 58; 33; 63; 46; 39; 34; 40; 41; 91; 93; 123; 125; 64; 42;
   47; 92; 38; 35; 37; 96; 94; 43; 60; 61; 62; 124; 126; 36]%N.

Fixpoint position (n : N) (l : list N) : option N :=
  match l with
  | [] => None
  | m :: r => if (n =? m)%N then Some 0%N else N.succ <$> position n r
  end.

Definition primary (c : ascii) : option N :=
  if Js.isDigit c then Some (600 + Js.code c)%N
  else if Js.isUpper c || Js.isLower c
  then Some (900 + Js.code (Js.toLowerChar c))%N
  else match position (Js.code c) whiteSpace with
       | Some i => Some (2 + i)%N
       | None =>
           match position (Js.code c) punctuation with
           | Some i => Some (100 + i)%N
           | None =>
               if Js.isAscii c then None else Some (2000 + Js.code c)%N
           end
       end.

Definition tertiary (c : ascii) : option N :=
  match primary c with
  | Some _ => Some (if Js.isUpper c then 3 else 2)%N
  | None => None
  end.

Definition sortKey (s : string) : list N :=
  let cs := String.list_ascii_of_string s in
  omap primary cs ++ [1%N] ++ omap tertiary cs.

Fixpoint lexCompare (a b : list N) : comparison :=
  match a, b with
  | [], [] => Eq
  | [], _ :: _ => Lt
  | _ :: _, [] => Gt
  | x :: a', y :: b' =>
      match (x ?= y)%N with
      | Eq => lexCompare a' b'
      | c => c
      end
  end.

Definition localeCompare (a b : string) : Z :=
  match lexCompare (sortKey a) (sortKey b) with
  | Lt => (-1)%Z
  | Eq => 0%Z
  | Gt => 1%Z
  end.

End Intl.

(** ** A sample site

    The default layout of the configuration, [posts], [pages] and [drafts]
    under the source directory, and a few files with the front matter the
    Markdown parser returns for them. *)

Module Sample.

Definition config : Config.SiteConfig :=
  {| Config.paths :=
       {| Config.source := "/site";
          Config.output := "/site/output";
          Config.posts := "/site/posts";
          Config.pages := "/site/pages";
          Config.drafts := "/site/drafts" |} |}.

Definition cwd : string := "/site".

Definition document (frontMatter : gmap string JsValue)
  : Markdown.ParsedMarkdown :=
  {| Markdown.frontMatter := frontMatter;
     Markdown.markdownContent := "Hello";
     Markdown.htmlContent := "<p>Hello</p>" |}.

Definition parsed (frontMatter : gmap string JsValue)
  : Result Markdown.ParsedMarkdown :=
  Ok (document frontMatter).

Definition parseMarkdownFile (filePath : string)
  : Result Markdown.ParsedMarkdown :=
  if decide (filePath = "/site/posts/2024-01-15-hello-world.md")
  then parsed {[ "date" := JsDate (Some 1705276800000%Z) ]}
  else if decide (filePath = "/site/posts/2024-02-01-second.md")
  then parsed {[ "date" := JsDate (Some 1706745600000%Z) ]}
  else if decide (filePath = "/site/posts/2024-02-01-third.md")
  then parsed {[ "date" := JsDate (Some 1706745600000%Z) ]}
  else if decide (filePath = "/site/posts/undated.md")
  then parsed {[ "title" := JsString "No date" ]}
  else if decide (filePath = "/site/postscript.md")
  then parsed {[ "date" := JsDate (Some 1705276800000%Z) ]}
  else if decide (filePath = "/site/pages/hidden.md")
  then parsed {[ "published" := JsBool false ]}
  else if decide (filePath = "/site/drafts/wip.md")
  then parsed {[ "published" := JsBool false ]}
  else if decide (filePath = "/site/pages/custom.md")
  then parsed {[ "slug" := JsString "My Custom Slug" ]}
  else if decide (filePath = "/site/pages/broken.md")
  then Throw "unexpected end of the stream"
  else if decide (filePath = "/site/pages/numbered.md")
  then parsed {[ "slug" := JsNumber 404 ]}
  else parsed ∅.

Definition readFile (filePath : string) : Result string :=
  Ok "<h1>Hello</h1>".

(** The texts of the sample are ASCII and none of its paths names a host;
    the runs of the sample never consult the two that follow.  They stand
    for a character map without entries outside ASCII, and for a host
    parser that accepts a name of lower-case letters. *)
Definition transliterate (s : string) : string :=
  Slugify.replaceChars (Js.filter Js.isAscii s).

Definition validAuthority (authority : string) : bool :=
  Js.all Js.isLower authority.

Abbreviation processContent :=
  (processContent config cwd parseMarkdownFile readFile Intl.localeCompare
     transliterate validAuthority).

Abbreviation processItem :=
  (processItem config cwd parseMarkdownFile readFile transliterate
     validAuthority).

Abbreviation generatePermalink :=
  (generatePermalink config transliterate validAuthority).

Abbreviation permalinkSlug := (permalinkSlug transliterate).

(** What [glob] finds in the sample. *)
Definition files : list string :=
  ["/site/posts/2024-01-15-hello-world.md";
   "/site/posts/2024-02-01-second.md";
   "/site/posts/2024-02-01-third.md";
   "/site/posts/undated.md";
   "/site/pages/about.md";
   "/site/pages/projects/index.md";
   "/site/index.md";
   "/site/pages/hidden.md";
   "/site/pages/custom.md";
   "/site/pages/broken.md";
   "/site/drafts/wip.md";
   "/site/drafts/idea.md"].

End Sample.

(** ** Vocabulary of the further properties *)

(** The segments before the slug: lines 52-64. *)
Definition leadingSegments (config : Config.SiteConfig) (itemPath : string)
    (itemType : ItemType) : list string :=
  match itemType with
  | post => ["blog"]
  | draft => ["drafts"]
  | page => relevantSegmentsOf config itemPath
  end.

(** What one turn of the loop writes to the console: the warning of a file
    that is not classified, or what [processItem] wrote. *)
Definition fileDiagnostics (config : Config.SiteConfig) (cwd : string)
    (parseMarkdownFile : string → Result Markdown.ParsedMarkdown)
    (readFile : string → Result string) (transliterate : string → string)
    (validAuthority : string → bool) (filePath : string)
  : list Diagnostic :=
  match classify config filePath with
  | None =>
      [Console warn
         ("[Warning] File found outside known content directories, skipping: "
          +:+ Path.relative cwd (Config.source (Config.paths config)) filePath)]
  | Some itemType =>
      (processItem config cwd parseMarkdownFile readFile transliterate validAuthority filePath
         (processedAs itemType)).2
  end.

(** The condition of lines 83 and 88 under which a permalink that does not
    end with a slash is given one. *)
Definition directoryLike (itemPath slug : string) : bool :=
  bool_decide (slug = "index")
  || bool_decide (Js.toLowerCase (Path.extname itemPath) = ".md")
  || bool_decide (Path.extname itemPath = "").

(** What a permalink has after its leading segments. *)
Definition slugPart (itemPath : string) (itemType : ItemType) (slug : string)
  : string :=
  if bool_decide (itemType = page) && bool_decide (slug = "index") then ""
  else if decide (slug = "") then ""
  else if directoryLike itemPath slug then slug +:+ "/" else slug.

(** ** Values of the front matter and of the configuration

    What the YAML of a front matter and the JSON of [config.json] can hold;
    arrays and objects with their contents.  A number is an integer, as in
    [JsValue]. *)

#[local] Unset Elimination Schemes.
Inductive Value :=
| VUndefined
| VNull
| VBool (b : bool)
| VNumber (n : Z)
| VString (s : string)
| VDate (time : option Z)
| VArray (items : list Value)
| VObject (fields : gmap string Value).
#[local] Set Elimination Schemes.

(** The value as the processor tells it apart. *)
Definition toJs (v : Value) : JsValue :=
  match v with
  | VUndefined => JsUndefined
  | VNull => JsNull
  | VBool b => JsBool b
  | VNumber n => JsNumber n
  | VString s => JsString s
  | VDate t => JsDate t
  | VArray _ | VObject _ => JsObject
  end.

(** [if (v)] *)
Definition truthyValue (v : Value) : bool :=
  match v with
  | VUndefined | VNull => false
  | VBool b => b
  | VNumber n => negb (n =? 0)%Z
  | VString s => Js.nonEmpty s
  | VDate _ | VArray _ | VObject _ => true
  end.

(** [v instanceof Date], [Array.isArray(v)], [typeof v === 'string'] and
    [typeof v === 'object'] *)
Definition isDate (v : Value) : bool :=
  match v with VDate _ => true | _ => false end.

Definition isArray (v : Value) : bool :=
  match v with VArray _ => true | _ => false end.

Definition isString (v : Value) : bool :=
  match v with VString _ => true | _ => false end.

Definition isObjectType (v : Value) : bool :=
  match v with
  | VNull | VDate _ | VArray _ | VObject _ => true
  | _ => false
  end.

(** The own enumerable properties of an array or of a string: its elements
    under their indices (for a string, its characters as the conventions
    above have them). *)
Definition indexed (items : list Value) : gmap string Value :=
  list_to_map (imap (λ i item, (pretty i, item)) items).

Definition characters (s : string) : list Value :=
  (λ c, VString (String c EmptyString)) <$> String.list_ascii_of_string s.

(** [{ ...v }]: the own enumerable properties of [v]; none for [null],
    [undefined], a number, a boolean or a date. *)
Definition spread (v : Value) : gmap string Value :=
  match v with
  | VObject fields => fields
  | VArray items => indexed items
  | VString s => indexed (characters s)
  | _ => ∅
  end.

(** [o.key] on an object [o] given by its properties. *)
Definition member (fields : gmap string Value) (key : string) : Value :=
  default VUndefined (fields !! key).

(** [v.key] where [v] is not [null] or [undefined] and [key] is neither an
    index nor the name of a property of a prototype. *)
Definition memberOf (v : Value) (key : string) : Value :=
  match v with
  | VObject fields => member fields key
  | _ => VUndefined
  end.

(** [v.key] for a key that is neither an index nor the name of a property
    of a prototype: reading it from [null] or [undefined] throws a
    [TypeError], whose message [nullAccessError] gives. *)
Definition field (nullAccessError : string → string) (v : Value)
    (key : string) : Result Value :=
  match v with
  | VUndefined | VNull => Throw (nullAccessError key)
  | VObject fields => Ok (member fields key)
  | _ => Ok VUndefined
  end.

(** [String(v)] and the conversion of a template literal.  The text of a
    number and of a valid date are the runtime's ([numberText],
    [dateText]); an array joins its elements with commas, [null] and
    [undefined] elements giving nothing. *)
Fixpoint toText (numberText dateText : Z → string) (v : Value) : string :=
  match v with
  | VUndefined => "undefined"
  | VNull => "null"
  | VBool b => if b then "true" else "false"
  | VNumber n => numberText n
  | VString s => s
  | VDate None => "Invalid Date"
  | VDate (Some t) => dateText t
  | VArray items =>
      Js.join ","
        ((λ item,
            match item with
            | VUndefined | VNull => EmptyString
            | _ => toText numberText dateText item
            end) <$> items)
  | VObject _ => "[object Object]"
  end.

(** ** [src/parsers/markdown.ts] *)

Module Parser.

(** [ParsedMarkdown], with the front matter in full. *)
Record Parsed := {
  frontMatter : gmap string Value;
  markdownContent : string;
  htmlContent : string
}.

(** The same for the processor, which looks at [published], [slug] and
    [date]. *)
Definition forProcessor (parsed : Parsed) : Markdown.ParsedMarkdown :=
  {| Markdown.frontMatter := toJs <$> frontMatter parsed;
     Markdown.markdownContent := markdownContent parsed;
     Markdown.htmlContent := htmlContent parsed |}.

Section Parser.

(** What [parseMarkdownFile] reaches outside itself: [fs.readFile],
    [matter] of gray-matter (the data and the content of a file text),
    [new Date(v)] (the time value of the date made, [None] for [NaN]), the
    two number and date formats of [String], and [marked.parse]. *)
Variable readFile : string → Result string.
Variable matter : string → Result (Value * string).
Variable newDate : Value → Result (option Z).
Variable numberText : Z → string.
Variable dateText : Z → string.
Variable markedParse : string → Result string.

(** Lines 43-57; [frontMatterData.date] is read inside the branch, where
    the data is not [null]. *)
Definition cleanDate (filePath : string) (frontMatterData : Value)
    (frontMatter : gmap string Value)
  : gmap string Value * list Diagnostic :=
  if truthyValue (member frontMatter "date")
     && negb (isDate (member frontMatter "date"))
  then
    match newDate (member frontMatter "date") with
    | Ok (Some t) => (<["date" := VDate (Some t)]> frontMatter, [])
    | Ok None =>
        (<["date" := VUndefined]> frontMatter,
         [Console warn
            ("[Warning] Invalid date format in front matter for file: "
             +:+ filePath +:+ ". Value: "
             +:+ toText numberText dateText (memberOf frontMatterData "date"))])
    | Throw _ =>
        (<["date" := VUndefined]> frontMatter,
         [Console warn
            ("[Warning] Could not parse date in front matter for file: "
             +:+ filePath +:+ ". Value: "
             +:+ toText numberText dateText (memberOf frontMatterData "date"))])
    end
  else (frontMatter, []).

(** Lines 60-65 for the key [tags] and lines 67-72 for the key
    [categories]. *)
Definition cleanList (key filePath : string)
    (frontMatter : gmap string Value)
  : gmap string Value * list Diagnostic :=
  if truthyValue (member frontMatter key)
     && negb (isArray (member frontMatter key))
  then
    (<[key := VArray
                [VString (toText numberText dateText (member frontMatter key))]]>
       frontMatter,
     [Console warn
        ("[Warning] '" +:+ key +:+ "' field in " +:+ filePath
         +:+ " is not an array. Converting...")])
  else
    match member frontMatter key with
    | VArray items =>
        (<[key := VArray
                    ((λ tag, VString (toText numberText dateText tag))
                       <$> items)]> frontMatter,
         [])
    | _ => (frontMatter, [])
    end.

(** Lines 40-72: the data cleaning. *)
Definition clean (filePath : string) (frontMatterData : Value)
  : gmap string Value * list Diagnostic :=
  let frontMatter := spread frontMatterData in
  let '(frontMatter, out1) := cleanDate filePath frontMatterData frontMatter in
  let '(frontMatter, out2) := cleanList "tags" filePath frontMatter in
  let '(frontMatter, out3) := cleanList "categories" filePath frontMatter in
  (frontMatter, out1 ++ out2 ++ out3).

(** The body of the [try] block: its result or the exception that leaves
    it, with what was written before. *)
Definition tryParse (filePath : string)
  : Result Parsed * list Diagnostic :=
  match readFile filePath with
  | Throw message => (Throw message, [])
  | Ok fileContent =>
      match matter fileContent with
      | Throw message => (Throw message, [])
      | Ok (frontMatterData, markdownContent) =>
          let '(frontMatter, out) := clean filePath frontMatterData in
          match markedParse markdownContent with
          | Throw message => (Throw message, out)
          | Ok htmlContent =>
              (Ok {| frontMatter := frontMatter;
                     markdownContent := markdownContent;
                     htmlContent := htmlContent |},
               out)
          end
      end
  end.

Definition parseMarkdownFile (filePath : string)
  : Result Parsed * list Diagnostic :=
  match tryParse filePath with
  | (Ok parsed, out) => (Ok parsed, out)
  | (Throw message, out) =>
      (Throw message,
       out ++ [Console error ("Error processing Markdown file: " +:+ filePath)])
  end.

(** The parser as [processItem] calls it. *)
Definition forProcessItem (filePath : string)
  : Result Markdown.ParsedMarkdown :=
  match (parseMarkdownFile filePath).1 with
  | Ok parsed => Ok (forProcessor parsed)
  | Throw message => Throw message
  end.

End Parser.

End Parser.

(** A list of the front matter as [models.ts] declares [tags] and
    [categories]: absent (or falsy), or an array of strings. *)
Definition stringList (v : Value) : bool :=
  match v with
  | VArray items => forallb isString items
  | _ => negb (truthyValue v)
  end.

(** A front matter of the declared types: a date that is absent (or falsy)
    or a [Date], and two lists of strings. *)
Definition typedFrontMatter (fields : gmap string Value) : bool :=
  (negb (truthyValue (member fields "date")) || isDate (member fields "date"))
  && stringList (member fields "tags")
  && stringList (member fields "categories").

(** A slug of the front matter that [generatePermalink] can use: a
    string, or a falsy value, for which the file name is taken. *)
Definition usableSlug (v : Value) : bool :=
  isString v || negb (truthyValue v).

(** ** Sample files for the parser

    Three posts of the sample site as gray-matter reads them: one dated by
    a text that [new Date] understands, one by a text it does not, one
    with a single tag that is not in a list; every other path is a file
    that does not exist. *)

Module SampleParser.

Definition readFile (filePath : string) : Result string :=
  if decide (filePath = "/site/posts/dated.md")
  then Ok "---
date: '2024-01-15'
---
Hello"
  else if decide (filePath = "/site/posts/misdated.md")
  then Ok "---
date: soon
---
Hello"
  else if decide (filePath = "/site/posts/tagged.md")
  then Ok "---
title: Tagged
tags: rocq
---
Hello"
  else Throw ("ENOENT: no such file or directory, open '" +:+ filePath
              +:+ "'").

Definition matter (fileContent : string) : Result (Value * string) :=
  if decide (fileContent = "---
date: '2024-01-15'
---
Hello")
  then Ok (VObject {[ "date" := VString "2024-01-15" ]}, "Hello")
  else if decide (fileContent = "---
date: soon
---
Hello")
  then Ok (VObject {[ "date" := VString "soon" ]}, "Hello")
  else if decide (fileContent = "---
title: Tagged
tags: rocq
---
Hello")
  then Ok (VObject {[ "title" := VString "Tagged"; "tags" := VString "rocq" ]},
           "Hello")
  else Ok (VObject ∅, fileContent).

Definition newDate (v : Value) : Result (option Z) :=
  match v with
  | VString "2024-01-15" => Ok (Some 1705276800000%Z)
  | VNumber n =>
      Ok (if bool_decide (Z.abs n ≤ 8640000000000000)%Z then Some n else None)
  | _ => Ok None
  end.

Definition numberText (n : Z) : string := pretty n.

Definition dateText (t : Z) : string := "time " +:+ pretty t.

Definition markedParse (content : string) : Result string :=
  Ok ("<p>" +:+ content +:+ "</p>
").

Abbreviation parseMarkdownFile :=
  (Parser.parseMarkdownFile readFile matter newDate numberText dateText
     markedParse).

Abbreviation processItem :=
  (processItem Sample.config Sample.cwd
     (Parser.forProcessItem readFile matter newDate numberText dateText
        markedParse)
     readFile Sample.transliterate Sample.validAuthority).

End SampleParser.

(** ** [src/config/defaults.ts] *)

Definition DEFAULT_CONFIG : Value :=
  VObject
    {[ "title" := VString "My Awesome HcgBlog";
       "baseUrl" := VString "/";
       "paths" :=
         VObject
           {[ "source" := VString ".";
              "output" := VString "output";
              "posts" := VString "posts";
              "pages" := VString "pages";
              "drafts" := VString "drafts";
              "layouts" := VString "layouts";
              "includes" := VString "includes";
              "assets" := VString "assets" ]};
       "pagination" :=
         VObject
           {[ "perPage" := VNumber 10;
              "blogPathPrefix" := VString "/blog/page" ]} ]}.

(** The eight keys of [paths] that lines 65-68 require. *)
Definition pathKeys : list string :=
  ["source"; "output"; "posts"; "pages"; "drafts"; "layouts"; "includes";
   "assets"].

Section MergeConfigs.

(** The message of the [TypeError] that reading a property of [null] or
    [undefined] throws. *)
Variable nullAccessError : string → string.

(** Lines 31-42. *)
Definition mergePaths (userConfig defaultConfig : Value)
    (merged : gmap string Value) : Result (gmap string Value) :=
  userPaths ← field nullAccessError userConfig "paths";
  if truthyValue userPaths then
    defaultPaths ← field nullAccessError defaultConfig "paths";
    Ok (<["paths" := VObject (spread userPaths ∪ spread defaultPaths)]> merged)
  else
    defaultPaths ← field nullAccessError defaultConfig "paths";
    if truthyValue defaultPaths
    then Ok (<["paths" := VObject (spread defaultPaths)]> merged)
    else Throw "Critical Error: Default paths configuration is missing.".

(** Lines 44-55. *)
Definition mergePagination (userConfig defaultConfig : Value)
    (merged : gmap string Value) : Result (gmap string Value) :=
  userPagination ← field nullAccessError userConfig "pagination";
  if truthyValue userPagination then
    defaultPagination ← field nullAccessError defaultConfig "pagination";
    Ok (<["pagination" :=
            VObject
              (spread userPagination
               ∪ spread (if truthyValue defaultPagination
                         then defaultPagination else VObject ∅))]> merged)
  else
    defaultPagination ← field nullAccessError defaultConfig "pagination";
    if truthyValue defaultPagination
    then Ok (<["pagination" := VObject (spread defaultPagination)]> merged)
    else Ok (<["pagination" := VUndefined]> merged).

(** Lines 58-71. *)
Definition validate (merged : gmap string Value) : Result Value :=
  if negb (truthyValue (member merged "title"))
     || negb (isString (member merged "title"))
  then Throw "Configuration Error: 'title' is missing or not a string."
  else if negb (truthyValue (member merged "baseUrl"))
          || negb (isString (member merged "baseUrl"))
  then Throw "Configuration Error: 'baseUrl' is missing or not a string."
  else if negb (truthyValue (member merged "paths"))
          || negb (isObjectType (member merged "paths"))
          || existsb
               (λ key,
                  negb (truthyValue (memberOf (member merged "paths") key)))
               pathKeys
  then Throw
         "Configuration Error: 'paths' object is incomplete or invalid after merge."
  else Ok (VObject merged).

Definition mergeConfigs (userConfig defaultConfig : Value) : Result Value :=
  let merged := spread userConfig ∪ spread defaultConfig in
  merged ← mergePaths userConfig defaultConfig merged;
  merged ← mergePagination userConfig defaultConfig merged;
  validate merged.

End MergeConfigs.

(** ** [src/config/index.ts] *)

(** What [fs.readFile] gives: the text of the file, or an error with its
    [code] and its [message]. *)
Inductive FsResult :=
| FsOk (data : string)
| FsError (code message : string).

Section LoadConfig.

(** What [loadConfig] reaches outside itself: the working directory of the
    process, which [path.resolve] consults; [fs.readFile];
    [JSON.parse] and [JSON.stringify(v, null, 2)]; and the messages of the
    two [TypeError]s of the runtime, the one of [path.resolve] on an
    argument that is not a string and the one of a property read from
    [null]. *)
Variable cwd : string.
Variable readFile : string → FsResult.
Variable jsonParse : string → Result Value.
Variable jsonStringify : Value → string.
Variable invalidArgError : Value → string.
Variable nullAccessError : string → string.

(** [path.resolve(base, v)]: the last argument is validated first. *)
Definition resolveValue (base : string) (v : Value) : Result string :=
  match v with
  | VString s => Ok (Path.resolve cwd [base; s])
  | _ => Throw (invalidArgError v)
  end.

(** The body of the loop of lines 65-72, for one key of [paths]. *)
Definition resolveUnder (sourceDir key : string) (v : Value) : Value :=
  if bool_decide (key ≠ "source") && bool_decide (key ≠ "output") then
    match v with
    | VString s => VString (Path.resolve cwd [sourceDir; s])
    | _ => v
    end
  else v.

(** Lines 61-74, on the configuration that [mergeConfigs] returned. *)
Definition resolvePaths (baseDir : string) (finalConfig : Value)
  : Result Value :=
  let paths := spread (memberOf finalConfig "paths") in
  sourceDir ← resolveValue baseDir (member paths "source");
  let paths := <["source" := VString sourceDir]> paths in
  let paths := map_imap (λ key v, Some (resolveUnder sourceDir key v)) paths in
  output ← resolveValue baseDir (member paths "output");
  let paths := <["output" := VString output]> paths in
  Ok (VObject (<["paths" := VObject paths]> (spread finalConfig))).

Definition loadConfig (configPath baseDir : string)
  : Result Value * list Diagnostic :=
  let resolvedConfigPath := Path.resolve cwd [baseDir; configPath] in
  let attempt :=
    Console log
      ("Attempting to load configuration from: " +:+ resolvedConfigPath) in
  match readFile resolvedConfigPath with
  | FsError code message =>
      if decide (code = "ENOENT") then
        (match mergeConfigs nullAccessError (VObject ∅) DEFAULT_CONFIG with
         | Ok finalConfig => Ok finalConfig
         | Throw mergeMessage =>
             Throw ("Failed to create configuration from defaults: "
                    +:+ mergeMessage)
         end,
         [attempt;
          Console warn
            ("Configuration file not found at " +:+ resolvedConfigPath
             +:+ ". Using default configuration.")])
      else
        (Throw ("Failed to read configuration file at "
                +:+ resolvedConfigPath +:+ ": " +:+ message),
         [attempt])
  | FsOk userConfigData =>
      match jsonParse userConfigData with
      | Throw message =>
          (Throw ("Failed to parse configuration file at "
                  +:+ resolvedConfigPath +:+ " as JSON: " +:+ message),
           [attempt])
      | Ok userConfig =>
          match
            finalConfig ← mergeConfigs nullAccessError userConfig DEFAULT_CONFIG;
            resolvePaths baseDir finalConfig
          with
          | Ok finalConfig =>
              (Ok finalConfig,
               [attempt;
                Console log "Configuration loaded successfully:";
                Console log (jsonStringify finalConfig)])
          | Throw message =>
              (Throw ("Configuration validation failed: " +:+ message),
               [attempt])
          end
      end
  end.

End LoadConfig.

(** The configuration as [processContent] reads it, when the five paths
    it uses are strings. *)
Definition stringAt (fields : gmap string Value) (key : string)
  : option string :=
  match fields !! key with
  | Some (VString s) => Some s
  | _ => None
  end.

Definition siteConfig (finalConfig : Value) : option Config.SiteConfig :=
  let paths := spread (memberOf finalConfig "paths") in
  source ← stringAt paths "source";
  output ← stringAt paths "output";
  posts ← stringAt paths "posts";
  pages ← stringAt paths "pages";
  drafts ← stringAt paths "drafts";
  Some {| Config.paths :=
            {| Config.source := source;
               Config.output := output;
               Config.posts := posts;
               Config.pages := pages;
               Config.drafts := drafts |} |}.

(** A text setting of the user configuration that the validation of lines
    59-64 accepts: absent, so that the default stands, or a non-empty
    string. *)
Definition textSetting (userConfig : gmap string Value) (key : string)
  : bool :=
  match userConfig !! key with
  | None => true
  | Some v => truthyValue v && isString v
  end.

(** The [paths] of the user configuration that the validation of lines
    65-71 accepts: absent or falsy, so that the defaults stand, or a value
    none of whose own properties among the eight keys is falsy. *)
Definition pathSettings (userConfig : gmap string Value) : bool :=
  match userConfig !! "paths" with
  | None => true
  | Some userPaths =>
      negb (truthyValue userPaths)
      || forallb
           (λ key,
              match spread userPaths !! key with
              | None => true
              | Some v => truthyValue v
              end)
           pathKeys
  end.

(** ** Sample configuration files

    A site at [/site] whose [config.json] is the empty object, a file that
    holds [null], one that is not JSON, one that cannot be read; every
    other path is a file that does not exist. *)

Module SampleLoader.

Definition cwd : string := "/site".

Definition readFile (filePath : string) : FsResult :=
  if decide (filePath = "/site/config.json") then FsOk "{}"
  else if decide (filePath = "/null/config.json") then FsOk "null"
  else if decide (filePath = "/broken/config.json") then FsOk ""
  else if decide (filePath = "/locked/config.json")
  then FsError "EACCES"
         ("EACCES: permission denied, open '" +:+ filePath +:+ "'")
  else FsError "ENOENT"
         ("ENOENT: no such file or directory, open '" +:+ filePath +:+ "'").

Definition jsonParse (text : string) : Result Value :=
  if decide (text = "{}") then Ok (VObject ∅)
  else if decide (text = "null") then Ok VNull
  else Throw "Unexpected end of JSON input".

(** The text of the configuration in the log is left out. *)
Definition jsonStringify (v : Value) : string := "{ ... }".

(** The message of [ERR_INVALID_ARG_TYPE] for the second argument of
    [path.resolve]. *)
Definition received (v : Value) : string :=
  match v with
  | VUndefined => "undefined"
  | VNull => "null"
  | VBool true => "type boolean (true)"
  | VBool false => "type boolean (false)"
  | VNumber n => "type number (" +:+ pretty n +:+ ")"
  | VString text => "type string ('" +:+ text +:+ "')"
  | VDate _ => "an instance of Date"
  | VArray _ => "an instance of Array"
  | VObject _ => "an instance of Object"
  end.

Definition invalidArgError (v : Value) : string :=
  "The " +:+ String (ascii_of_nat 34) "paths[1]"
  +:+ String (ascii_of_nat 34) " argument must be of type string. Received "
  +:+ received v.

Definition nullAccessError (key : string) : string :=
  "Cannot read properties of null (reading '" +:+ key +:+ "')".

Abbreviation loadConfig :=
  (loadConfig cwd readFile jsonParse jsonStringify invalidArgError
     nullAccessError).

(** A user configuration that renames the site and its posts
    directory. *)
Definition renamed : Value :=
  VObject
    {[ "title" := VString "Notes";
       "paths" := VObject {[ "posts" := VString "articles" ]} ]}.

End SampleLoader.

(** The configuration of the default layout at a source root, as
    [loadConfig] resolves it. *)
Definition layoutAt (root : string) : Config.SiteConfig :=
  {| Config.paths :=
       {| Config.source := root;
          Config.output := root +:+ "/output";
          Config.posts := root +:+ "/posts";
          Config.pages := root +:+ "/pages";
          Config.drafts := root +:+ "/drafts" |} |}.

(** * Facts about the runtime *)

#[local] Arguments String.append : simpl nomatch.

Section StringFacts.
Implicit Types (s r : string) (c : ascii) (p : ascii → bool).

Lemma app_empty_r s : s +:+ "" = s.
Proof. induction s; simpl; congruence. Qed.

Lemma app_assoc' s1 s2 s3 : (s1 +:+ s2) +:+ s3 = s1 +:+ (s2 +:+ s3).
Proof. induction s1; simpl; congruence. Qed.

Lemma rev_app_append s1 s2 : String.rev_app s1 s2 = String.rev s1 +:+ s2.
Proof.
  unfold String.rev. revert s2.
  induction s1 as [|c s1 IH]; intros s2; simpl; [done|].
  rewrite (IH (String c "")), IH, app_assoc'. done.
Qed.

Lemma rev_cons c s : String.rev (String c s) = String.rev s +:+ String c "".
Proof. unfold String.rev at 1. simpl. apply rev_app_append. Qed.

Lemma rev_append s1 s2 :
  String.rev (s1 +:+ s2) = String.rev s2 +:+ String.rev s1.
Proof.
  induction s1 as [|c s1 IH]; simpl.
  - by rewrite app_empty_r.
  - by rewrite !rev_cons, IH, app_assoc'.
Qed.

Lemma rev_involutive s : String.rev (String.rev s) = s.
Proof.
  induction s as [|c s IH]; [done|].
  by rewrite rev_cons, rev_append, IH.
Qed.

Lemma all_append p s1 s2 : Js.all p (s1 +:+ s2) = Js.all p s1 && Js.all p s2.
Proof.
  induction s1 as [|c s1 IH]; simpl; [done|].
  by rewrite IH, andb_assoc.
Qed.

Lemma all_rev p s : Js.all p (String.rev s) = Js.all p s.
Proof.
  induction s as [|c s IH]; [done|].
  rewrite rev_cons, all_append, IH. simpl. 
  rewrite andb_true_r. apply andb_comm.
Qed.

Lemma all_impl p q s :
  (∀ c, p c = true → q c = true) → Js.all p s = true → Js.all q s = true.
Proof.
  intros Hpq. induction s as [|c s IH]; simpl; [done|].
  rewrite !andb_true_iff. intros [? ?]. split; auto.
Qed.

Lemma all_filter p s : Js.all p (Js.filter p s) = true.
Proof.
  induction s as [|c s IH]; simpl; [done|].
  destruct (p c) eqn:Hc; simpl; [by rewrite Hc|done].
Qed.

Lemma filter_all p s : Js.all p s = true → Js.filter p s = s.
Proof.
  induction s as [|c s IH]; simpl; [done|].
  rewrite andb_true_iff. intros [-> ?]. f_equal. auto.
Qed.

Lemma map_all_id (f : ascii → ascii) p s :
  (∀ c, p c = true → f c = c) → Js.all p s = true → Js.map f s = s.
Proof.
  intros Hf. induction s as [|c s IH]; simpl; [done|].
  rewrite andb_true_iff. intros [? ?]. f_equal; auto.
Qed.

Lemma all_map (f : ascii → ascii) p q s :
  (∀ c, p c = true → q (f c) = true) →
  Js.all p s = true → Js.all q (Js.map f s) = true.
Proof.
  intros Hf. induction s as [|c s IH]; simpl; [done|].
  rewrite !andb_true_iff. intros [? ?]. split; auto.
Qed.

Lemma endsWith_snoc s c1 c2 :
  Js.endsWith (s +:+ String c1 "") (String c2 "") = bool_decide (c1 = c2).
Proof.
  unfold Js.endsWith. rewrite rev_append.
  change (String.rev (String c1 "")) with (String c1 "").
  change (String.rev (String c2 "")) with (String c2 "").
  simpl. rewrite andb_true_r.
  destruct (Ascii.eqb_spec c1 c2) as [->|Hne].
  - by rewrite bool_decide_eq_true_2.
  - by rewrite bool_decide_eq_false_2.
Qed.

End StringFacts.

(** ** Characters of a slug *)

Ltac each_char c :=
  destruct c as [[] [] [] [] [] [] [] []]; vm_compute; try done; intuition done.

Lemma slugChar_pathChar c : isSlugChar c = true → isPathChar c = true.
Proof. unfold isPathChar. by intros ->. Qed.

Lemma pathChar_plain c :
  isPathChar c = true →
  Url.isC0OrSpace c = false ∧ Url.isTabOrNewline c = false
  ∧ Url.endsPath c = false ∧ Url.slashed c = c
  ∧ Url.inPathEncodeSet c = false ∧ Js.toLowerChar c = c.
Proof. each_char c. Qed.

Lemma pathChar_slash c :
  isPathChar c = true → Url.isSlash c = Ascii.eqb c "/".
Proof. each_char c. Qed.

Lemma slugChar_not_special c :
  isSlugChar c = true → c ≠ "/"%char ∧ c ≠ "."%char ∧ c ≠ "%"%char.
Proof. each_char c. Qed.

Lemma strictKeep_cases c :
  Slugify.strictKeep c = true →
  Js.isSpace c = true ∨ (Js.isSpace c = false ∧ isSlugChar (Js.toLowerChar c) = true).
Proof. each_char c. Qed.

(** ** The slug that [slugify] returns *)

Lemma all_trimStart p s : Js.all p s = true → Js.all p (Js.trimStart s) = true.
Proof.
  induction s as [|c s IH]; simpl; [done|].
  destruct (Js.isSpace c); [|done].
  rewrite andb_true_iff. intros [_ ?]. auto.
Qed.

Lemma all_trim p s : Js.all p s = true → Js.all p (Js.trim s) = true.
Proof.
  intros H. unfold Js.trim. rewrite all_rev. apply all_trimStart.
  rewrite all_rev. by apply all_trimStart.
Qed.

Lemma all_replaceSpaces inRun s :
  Js.all Slugify.strictKeep s = true →
  Js.all lowersToSlug (Slugify.replaceSpaces inRun s) = true.
Proof.
  revert inRun. induction s as [|c s IH]; intros inRun; simpl; [done|].
  rewrite andb_true_iff. intros [Hc Hs].
  destruct (strictKeep_cases c Hc) as [->|[-> Hl]].
  - destruct inRun; simpl; auto.
  - simpl. unfold lowersToSlug at 1. rewrite Hl. simpl. auto.
Qed.

Lemma slugify_slugChars transliterate s :
  Js.all isSlugChar (Slugify.slugify transliterate s) = true.
Proof.
  unfold Slugify.slugify, Js.toLowerCase.
  apply all_map with (p := lowersToSlug); [done|].
  apply all_replaceSpaces, all_trim, all_filter.
Qed.

(** ** [split] and [join] *)

Lemma split_not_nil sep s : Js.split sep s ≠ [].
Proof.
  destruct s as [|c s]; simpl; [done|].
  destruct (Ascii.eqb c sep); [done|]. by destruct (Js.split sep s).
Qed.

Lemma join_cons sep x y l :
  Js.join sep (x :: y :: l) = x +:+ sep +:+ Js.join sep (y :: l).
Proof. done. Qed.

Lemma join_split s : Js.join "/" (Js.split "/" s) = s.
Proof.
  induction s as [|c s IH]; simpl; [done|].
  pose proof (split_not_nil "/" s) as Hne.
  destruct (Js.split "/" s) as [|h t]; [done|].
  destruct (Ascii.eqb_spec c "/") as [->|_].
  - by rewrite join_cons, IH.
  - rewrite <- IH. by destruct t.
Qed.

Lemma split_pathChars s :
  Js.all isPathChar s = true →
  Forall (λ seg, Js.all isSlugChar seg = true) (Js.split "/" s).
Proof.
  induction s as [|c s IH]; simpl; [by repeat constructor|].
  rewrite andb_true_iff. intros [Hc Hs]. specialize (IH Hs).
  pose proof (split_not_nil "/" s) as Hne.
  destruct (Ascii.eqb_spec c "/") as [->|Hslash].
  - by constructor.
  - destruct (Js.split "/" s) as [|h t]; [done|].
    inversion IH; subst. constructor; [|done]. simpl.
    unfold isPathChar in Hc. rewrite orb_true_iff in Hc.
    destruct Hc as [->|Hc]; [done|].
    by apply Ascii.eqb_eq in Hc.
Qed.

(** ** [pathname] on a plain path *)

Lemma percentEncode_plain seg :
  Js.all isSlugChar seg = true → Url.percentEncode seg = seg.
Proof.
  induction seg as [|c seg IH]; simpl; [done|].
  rewrite andb_true_iff. intros [Hc Hs].
  destruct (pathChar_plain c (slugChar_pathChar c Hc)) as (_&_&_&_&->&_).
  by rewrite IH.
Qed.

Lemma toLowerCase_plain seg :
  Js.all isSlugChar seg = true → Js.toLowerCase seg = seg.
Proof.
  apply map_all_id. intros c Hc.
  by destruct (pathChar_plain c (slugChar_pathChar c Hc)) as (_&_&_&_&_&->).
Qed.

Lemma no_dot_segment seg :
  Js.all isSlugChar seg = true →
  Url.isDoubleDot seg = false ∧ Url.isSingleDot seg = false.
Proof.
  intros Hseg. unfold Url.isDoubleDot, Url.isSingleDot.
  rewrite (toLowerCase_plain seg Hseg).
  split; apply bool_decide_eq_false; intros Hin;
    repeat (apply elem_of_cons in Hin as [->|Hin]; [discriminate Hseg|]);
    by apply elem_of_nil in Hin.
Qed.

Lemma pathState_plain acc segs :
  Forall (λ seg, Js.all isSlugChar seg = true) segs →
  Url.pathState acc segs = reverse acc ++ segs.
Proof.
  intros Hsegs. revert acc.
  induction Hsegs as [|seg segs Hseg _ IH]; intros acc; simpl.
  - by rewrite app_nil_r.
  - rewrite (percentEncode_plain seg Hseg).
    destruct (no_dot_segment seg Hseg) as [-> ->].
    rewrite IH, reverse_cons, <- app_assoc. done.
Qed.

Lemma dropWhile_none p s :
  Js.all (λ c, negb (p c)) s = true → Url.dropWhile p s = s.
Proof.
  destruct s as [|c s]; simpl; [done|].
  rewrite andb_true_iff, negb_true_iff. by intros [-> _].
Qed.

Lemma dropEnd_none p s :
  Js.all (λ c, negb (p c)) s = true → Url.dropEnd p s = s.
Proof.
  induction s as [|c s IH]; simpl; [done|].
  rewrite andb_true_iff, negb_true_iff. intros [Hc Hs].
  rewrite (IH Hs), Hc. by destruct s.
Qed.

Lemma takeUntil_none p s :
  Js.all (λ c, negb (p c)) s = true → Url.takeUntil p s = s.
Proof.
  induction s as [|c s IH]; simpl; [done|].
  rewrite andb_true_iff, negb_true_iff. intros [-> ?]. f_equal. auto.
Qed.

Lemma startsWith_cons_self c s : Js.startsWith (String c s) (String c "") = true.
Proof.
  simpl. by rewrite Ascii.eqb_refl.
Qed.

Lemma pathOf_plain body :
  Js.all isPathChar body = true → Url.pathOf body = "/" +:+ body.
Proof.
  intros Hbody. unfold Url.pathOf. rewrite takeUntil_none.
  2:{ eapply all_impl; [|exact Hbody].
      intros c Hc. by destruct (pathChar_plain c Hc) as (_&_&->&_). }
  assert (Hmap : Js.map Url.slashed body = body).
  { apply (map_all_id Url.slashed isPathChar); [|done].
    intros c Hc. by destruct (pathChar_plain c Hc) as (_&_&_&->&_). }
  rewrite Hmap, pathState_plain by by apply split_pathChars.
  simpl. by rewrite join_split.
Qed.

(** On a path of characters of [[a-z0-9-]] and slashes that does not begin
    with a second slash, the parser returns, and the pathname is the path
    as it is. *)
Lemma pathname_plain validAuthority body :
  Js.all isPathChar body = true →
  Js.startsWith body "/" = false →
  Url.pathname validAuthority ("/" +:+ body) = Ok ("/" +:+ body).
Proof.
  intros Hbody Hstart.
  assert (Hall : Js.all isPathChar ("/" +:+ body) = true) by done.
  assert (Hstrip : Url.strip ("/" +:+ body) = "/" +:+ body).
  { unfold Url.strip.
    rewrite (dropWhile_none _ ("/" +:+ body)).
    2:{ eapply all_impl; [|exact Hall].
        intros c Hc. by destruct (pathChar_plain c Hc) as (->&_). }
    rewrite dropEnd_none.
    2:{ eapply all_impl; [|exact Hall].
        intros c Hc. by destruct (pathChar_plain c Hc) as (->&_). }
    apply filter_all. eapply all_impl; [|exact Hall].
    intros c Hc. by destruct (pathChar_plain c Hc) as (_&->&_). }
  unfold Url.pathname. rewrite Hstrip.
  change ("/" +:+ body) with (String "/" body).
  destruct body as [|c body]; [done|].
  simpl in Hbody, Hstart.
  apply andb_true_iff in Hbody as [Hc Hbody].
  rewrite andb_true_r in Hstart.
  cbn [Url.afterSlashes]. rewrite (pathChar_slash c Hc), Hstart, andb_false_r.
  cbn [Url.pathFrom]. change (Url.isSlash "/") with true. cbv iota.
  rewrite pathOf_plain; [done|]. simpl. by rewrite Hc.
Qed.

(** The parser has one error. *)
Lemma pathname_throws validAuthority input message :
  Url.pathname validAuthority input = Throw message →
  message = "Invalid URL".
Proof.
  unfold Url.pathname.
  destruct (Url.afterSlashes _) as [text|]; [|done].
  destruct (_ && _); [done|]. congruence.
Qed.

(** Whatever the parser returns begins with a slash. *)
Lemma pathname_rooted validAuthority input p :
  Url.pathname validAuthority input = Ok p → ∃ r, p = String "/" r.
Proof.
  unfold Url.pathname.
  assert (Hfrom : ∀ s, ∃ r, Url.pathFrom s = String "/" r).
  { intros [|c s]; simpl; [by eexists|]. destruct (Url.isSlash c); by eexists. }
  destruct (Url.afterSlashes _) as [text|].
  - destruct (_ && _); [|done]. intros [= <-]. apply Hfrom.
  - intros [= <-]. apply Hfrom.
Qed.

(** ** The permalink expression *)

Lemma permalinkTail_segment inSegment seg r :
  Js.all isSlugChar seg = true →
  permalinkTail inSegment (seg +:+ String "/" r)
  = (inSegment || Js.nonEmpty seg) && permalinkTail false r.
Proof.
  revert inSegment. induction seg as [|c seg IH]; intros inSegment; simpl.
  - intros _. by rewrite orb_false_r.
  - rewrite andb_true_iff. intros [Hc Hseg].
    destruct (slugChar_not_special c Hc) as (Hslash&_).
    destruct (Ascii.eqb_spec c "/") as [->|_]; [done|].
    rewrite Hc, IH by done. simpl. by rewrite orb_true_r.
Qed.

Lemma permalinkTail_closeSegments segs :
  Forall (λ seg, isSlugSegment seg = true) segs →
  permalinkTail false (closeSegments segs) = true.
Proof.
  induction 1 as [|seg segs Hseg _ IH]; simpl; [done|].
  apply andb_true_iff in Hseg as [Hne Hall].
  by rewrite permalinkTail_segment, Hne, IH.
Qed.

Lemma permalinkTail_inv s inSegment :
  permalinkTail inSegment s = true →
  (s = "" ∧ inSegment = false)
  ∨ ∃ seg segs,
      Js.all isSlugChar seg = true
      ∧ (inSegment || Js.nonEmpty seg) = true
      ∧ Forall (λ seg, isSlugSegment seg = true) segs
      ∧ s = seg +:+ "/" +:+ closeSegments segs.
Proof.
  revert inSegment. induction s as [|c s IH]; intros inSegment; simpl.
  - rewrite negb_true_iff. by left.
  - intros H. right. destruct (Ascii.eqb_spec c "/") as [->|Hc].
    + apply andb_true_iff in H as [-> H]. exists "".
      destruct (IH _ H) as [[-> _]|(seg&segs&Hall&Hne&Hsegs&->)].
      * by exists [].
      * exists (seg :: segs). do 2 (split; [done|]). split; [|done].
        constructor; [|done]. unfold isSlugSegment. simpl in Hne. by rewrite Hall, Hne.
    + apply andb_true_iff in H as [Hslug H].
      destruct (IH _ H) as [[_ ?]|(seg&segs&Hall&_&Hsegs&->)]; [done|].
      exists (String c seg), segs. simpl. rewrite Hslug, Hall, orb_true_r. done.
Qed.

Lemma permalinkPattern_segments p :
  permalinkPattern p = true
  ↔ ∃ segs, Forall (λ seg, isSlugSegment seg = true) segs
            ∧ p = "/" +:+ closeSegments segs.
Proof.
  split.
  - destruct p as [|c p]; simpl; [done|].
    rewrite andb_true_iff. intros [->%Ascii.eqb_eq H].
    destruct (permalinkTail_inv _ _ H) as [[-> _]|(seg&segs&Hall&Hne&Hsegs&->)].
    + by exists [].
    + exists (seg :: segs). split; [|done].
      constructor; [|done]. unfold isSlugSegment. simpl in Hne. by rewrite Hall, Hne.
  - intros (segs&Hsegs&->). simpl. by apply permalinkTail_closeSegments.
Qed.

(** ** The joined segments *)

Lemma closeSegments_app l1 l2 :
  closeSegments (l1 ++ l2) = closeSegments l1 +:+ closeSegments l2.
Proof.
  induction l1 as [|x l1 IH]; simpl; [done|].
  by rewrite IH, !app_assoc'.
Qed.

Lemma join_snoc init last :
  Js.join "/" (init ++ [last]) = closeSegments init +:+ last.
Proof.
  induction init as [|x init IH]; [done|].
  change (closeSegments (x :: init) +:+ last)
    with ((x +:+ "/" +:+ closeSegments init) +:+ last).
  rewrite !app_assoc', <- IH.
  by destruct init.
Qed.

Lemma closeSegments_pathChars segs :
  Forall (λ seg, isSlugSegment seg = true) segs →
  Js.all isPathChar (closeSegments segs) = true.
Proof.
  induction 1 as [|seg segs Hseg _ IH]; simpl; [done|].
  apply andb_true_iff in Hseg as [_ Hall].
  rewrite all_append. simpl. rewrite IH.
  rewrite (all_impl isSlugChar isPathChar seg); auto using slugChar_pathChar.
Qed.

Lemma string_snoc s : s ≠ "" → ∃ s' c, s = s' +:+ String c "".
Proof.
  induction s as [|c s IH]; [done|]. intros _.
  destruct s as [|d s].
  - by exists "", c.
  - destruct IH as (s'&e&->); [done|]. by exists (String c s'), e.
Qed.

Lemma startsWith_slugChar s :
  Js.all isPathChar s = true →
  (∀ r, s ≠ String "/" r) → Js.startsWith s "/" = false.
Proof.
  destruct s as [|c s]; [done|]. intros _ Hs.
  simpl. rewrite andb_true_r.
  destruct (Ascii.eqb_spec c "/") as [->|]; [|done]. by destruct (Hs s eq_refl).
Qed.

Lemma joined_relative init last :
  Forall (λ seg, isSlugSegment seg = true) init →
  Js.all isSlugChar last = true →
  Js.startsWith (closeSegments init +:+ last) "/" = false.
Proof.
  intros Hinit Hlast. apply startsWith_slugChar.
  - rewrite all_append, closeSegments_pathChars by done.
    eapply all_impl; [apply slugChar_pathChar|done].
  - intros r. destruct Hinit as [|seg init Hseg _]; simpl.
    + destruct last as [|c last]; [done|]. simpl in Hlast.
      apply andb_true_iff in Hlast as [Hc _].
      destruct (slugChar_not_special c Hc) as (?&_). congruence.
    + apply andb_true_iff in Hseg as [Hne Hall].
      destruct seg as [|c seg]; [done|]. simpl in Hall.
      apply andb_true_iff in Hall as [Hc _].
      destruct (slugChar_not_special c Hc) as (?&_). simpl. congruence.
Qed.

(** * [Array.prototype.sort] *)

Section SortFacts.
Context {A : Type} (compare : A → A → Z).

Lemma insertSorted_Permutation x l : insertSorted compare x l ≡ₚ x :: l.
Proof.
  induction l as [|y l IH]; simpl; [done|].
  destruct (compare x y <=? 0)%Z; [done|].
  rewrite IH. apply Permutation_swap.
Qed.

Lemma sort_Permutation l : sort compare l ≡ₚ l.
Proof.
  induction l as [|x l IH]; simpl; [done|].
  by rewrite insertSorted_Permutation, IH.
Qed.

Lemma elem_of_sort x l : x ∈ sort compare l ↔ x ∈ l.
Proof. by rewrite sort_Permutation. Qed.

(** Elements that compare as equal keep their order: the part of the
    array that [keep] selects comes out as it went in, whenever [compare]
    puts no selected element after another. *)
Lemma insertSorted_filter (keep : A → bool) x l :
  (∀ a b, keep a = true → keep b = true → (compare a b <= 0)%Z) →
  List.filter keep (insertSorted compare x l) = List.filter keep (x :: l).
Proof.
  intros Hkeep. induction l as [|y l IH]; [done|].
  cbn [insertSorted].
  destruct (Z.leb_spec (compare x y) 0) as [|Hgt]; [done|].
  cbn [List.filter] in *. rewrite IH.
  destruct (keep x) eqn:Hx, (keep y) eqn:Hy; try done.
  specialize (Hkeep x y Hx Hy). lia.
Qed.

Lemma sort_stable (keep : A → bool) l :
  (∀ a b, keep a = true → keep b = true → (compare a b <= 0)%Z) →
  List.filter keep (sort compare l) = List.filter keep l.
Proof.
  intros Hkeep. induction l as [|x l IH]; [done|].
  cbn [sort foldr]. rewrite insertSorted_filter by done.
  cbn [List.filter]. fold (sort compare l). by rewrite IH.
Qed.

Section Consistent.
Hypothesis compare_total :
  ∀ a b, (0 < compare a b)%Z → (compare b a <= 0)%Z.
Hypothesis compare_trans :
  ∀ a b c, (compare a b <= 0)%Z → (compare b c <= 0)%Z →
           (compare a c <= 0)%Z.

Lemma insertSorted_sorted x l :
  StronglySorted (λ a b, (compare a b <= 0)%Z) l →
  StronglySorted (λ a b, (compare a b <= 0)%Z) (insertSorted compare x l).
Proof.
  induction 1 as [|y l Hl IH Hy]; simpl.
  - by repeat constructor.
  - destruct (Z.leb_spec (compare x y) 0) as [Hle|Hgt].
    + constructor; [by constructor|]. constructor; [done|].
      eapply Forall_impl; [exact Hy|]. intros z Hz. simpl in Hz. eauto.
    + constructor; [done|].
      rewrite insertSorted_Permutation. constructor; [|done]. auto.
Qed.

Lemma sort_sorted l :
  StronglySorted (λ a b, (compare a b <= 0)%Z) (sort compare l).
Proof.
  induction l as [|x l IH]; simpl; [constructor|].
  by apply insertSorted_sorted.
Qed.
End Consistent.

End SortFacts.

(** * The permalink of a Markdown item *)

Lemma Ok_inj {A : Type} (a b : A) : Ok a = Ok b → a = b.
Proof. congruence. Qed.

Section Permalink.
Variable config : Config.SiteConfig.
Variable transliterate : string → string.
Variable validAuthority : string → bool.

(** The kept directory segments of a page: line 64. *)
Lemma permalinkSegments_page itemPath slug :
  permalinkSegments config itemPath page slug
  = relevantSegmentsOf config itemPath
    ++ (if decide (slug = "index") then [] else [slug]).
Proof.
  unfold permalinkSegments, relevantSegmentsOf, dirSegmentsOf.
  destruct (decide (slug = "index")); [by rewrite app_nil_r|done].
Qed.

Lemma permalinkSlug_slugChars itemPath frontMatter itemType slug :
  permalinkSlug transliterate itemPath frontMatter itemType = Ok slug →
  Js.all isSlugChar slug = true.
Proof.
  unfold permalinkSlug.
  destruct (truthy _); [destruct (prop _ _); simpl; try done|
                        destruct (decide _); simpl];
    intros [= <-]; apply slugify_slugChars.
Qed.

Lemma generatePermalink_unfold itemPath frontMatter itemType :
  generatePermalink config transliterate validAuthority itemPath frontMatter itemType
  = match permalinkSlug transliterate itemPath frontMatter itemType with
    | Ok slug =>
        match
          Url.pathname validAuthority
            (if Js.startsWith
                  (Js.join "/"
                     (permalinkSegments config itemPath itemType slug))
                  "/"
             then Js.join "/"
                    (permalinkSegments config itemPath itemType slug)
             else "/" +:+
                  Js.join "/"
                    (permalinkSegments config itemPath itemType slug))
        with
        | Ok pathname => Ok (withTrailingSlash itemPath slug pathname)
        | Throw message => Throw message
        end
    | Throw message => Throw message
    end.
Proof.
  unfold generatePermalink.
  destruct (permalinkSlug _ _ _ _) as [slug|]; [|done]. simpl.
  by destruct (Url.pathname _ _).
Qed.

(** The slug is computed unless the front matter holds a truthy [slug]
    that is not a string. *)
Lemma permalinkSlug_returns itemPath frontMatter itemType :
  slugUsable frontMatter = true →
  ∃ slug, permalinkSlug transliterate itemPath frontMatter itemType = Ok slug.
Proof.
  unfold permalinkSlug, slugUsable.
  destruct (prop frontMatter "slug") as [| |[]|n|s| |]; simpl;
    try done; try (destruct (decide _); by eauto).
  - destruct (n =? 0)%Z; [|done]. simpl. destruct (decide _); by eauto.
  - destruct s; simpl; [destruct (decide _)|]; by eauto.
Qed.

Lemma permalinkSlug_throws itemPath frontMatter itemType :
  slugUsable frontMatter = false →
  permalinkSlug transliterate itemPath frontMatter itemType
  = Throw "slugify: string argument expected".
Proof.
  unfold permalinkSlug, slugUsable.
  by destruct (prop frontMatter "slug") as [| |[]|n|[]| |]; simplify_eq/=;
    try destruct (n =? 0)%Z eqn:?; simplify_eq/=.
Qed.

(** The parser on a path that a segment opens: it names no host, and the
    parser returns. *)
Lemma dropEnd_head p c r :
  Url.dropEnd p (String c r) = ""
  ∨ ∃ r', Url.dropEnd p (String c r) = String c r'.
Proof.
  simpl. destruct (Url.dropEnd p r); [destruct (p c)|]; eauto.
Qed.

Lemma strip_rooted joined :
  Url.strip (String "/" joined)
  = String "/" (Js.filter (λ c, negb (Url.isTabOrNewline c))
                  (Url.dropEnd Url.isC0OrSpace joined)).
Proof.
  unfold Url.strip.
  change (Url.dropWhile Url.isC0OrSpace (String "/" joined))
    with (String "/" joined).
  cbn [Url.dropEnd]. by destruct (Url.dropEnd Url.isC0OrSpace joined).
Qed.

Lemma opensPath_relative joined :
  opensPath joined = true → Js.startsWith joined "/" = false.
Proof.
  destruct joined as [|c joined]; [done|]. simpl.
  unfold Url.isSlash. destruct (Ascii.eqb c "/"); [done|].
  by rewrite andb_false_l.
Qed.

Lemma pathname_opens joined :
  opensPath joined = true →
  ∃ p, Url.pathname validAuthority (String "/" joined) = Ok p.
Proof.
  intros Hopen. unfold Url.pathname. rewrite strip_rooted.
  destruct joined as [|c joined]; [by eexists|].
  simpl in Hopen. apply andb_true_iff in Hopen as [Hslash Htab].
  destruct (dropEnd_head Url.isC0OrSpace c joined) as [->|[r' ->]];
    [by eexists|].
  cbn [Js.filter]. rewrite Htab. cbn [Url.afterSlashes].
  apply negb_true_iff in Hslash. rewrite Hslash, andb_false_r. by eexists.
Qed.

Lemma slugChars_open slug :
  Js.all isSlugChar slug = true → opensPath slug = true.
Proof.
  destruct slug as [|c slug]; [done|]. simpl.
  rewrite andb_true_iff. intros [Hc _]. revert Hc. clear. each_char c.
Qed.

Lemma relevantSegment_nonEmpty itemPath dir :
  dir ∈ relevantSegmentsOf config itemPath → dir ≠ "".
Proof.
  unfold relevantSegmentsOf, dirSegmentsOf.
  rewrite !list_elem_of_filter. by intros (_&?&_).
Qed.

Lemma opensPath_join dir rest :
  dir ≠ "" → opensPath (Js.join "/" (dir :: rest)) = opensPath dir.
Proof.
  destruct dir as [|c dir]; [done|]. intros _. by destruct rest.
Qed.

(** [generatePermalink] returns when the slug can be computed and the path
    names no host: always for a post and a draft, whose path begins with
    [blog] and [drafts]; for a page when the first directory it keeps, if
    any, opens a path. *)
Lemma generatePermalink_returns itemPath frontMatter itemType :
  slugUsable frontMatter = true →
  (itemType = page →
   ∀ dir, head (relevantSegmentsOf config itemPath) = Some dir →
          opensPath dir = true) →
  ∃ p, generatePermalink config transliterate validAuthority itemPath
         frontMatter itemType = Ok p.
Proof.
  intros Huse Hdirs. rewrite generatePermalink_unfold.
  destruct (permalinkSlug_returns itemPath frontMatter itemType Huse)
    as [slug Hslug].
  rewrite Hslug.
  pose proof (permalinkSlug_slugChars _ _ _ _ Hslug) as Hchars.
  assert (Hopen : opensPath
            (Js.join "/" (permalinkSegments config itemPath itemType slug))
          = true).
  { destruct itemType; [done| |done].
    rewrite permalinkSegments_page. specialize (Hdirs eq_refl).
    destruct (relevantSegmentsOf config itemPath) as [|dir dirs] eqn:Hrel.
    - destruct (decide (slug = "index")); [done|]. by apply slugChars_open.
    - change ((dir :: dirs) ++ ?l) with (dir :: (dirs ++ l)).
      rewrite opensPath_join; [by apply Hdirs|].
      apply (relevantSegment_nonEmpty itemPath). rewrite Hrel. by left. }
  rewrite (opensPath_relative _ Hopen).
  destruct (pathname_opens _ Hopen) as [p Hp].
  change ("/" +:+ ?j) with (String "/" j). rewrite Hp. by eexists.
Qed.

Lemma generatePermalink_throws itemPath frontMatter itemType :
  slugUsable frontMatter = false →
  generatePermalink config transliterate validAuthority itemPath frontMatter
    itemType
  = Throw "slugify: string argument expected".
Proof.
  intros Hslug. rewrite generatePermalink_unfold.
  by rewrite (permalinkSlug_throws _ _ _ Hslug).
Qed.

Lemma generatePermalink_returns_unless_page itemPath frontMatter itemType :
  slugUsable frontMatter = true → itemType ≠ page →
  ∃ p, generatePermalink config transliterate validAuthority itemPath
         frontMatter itemType = Ok p.
Proof.
  intros Huse Htype. by apply generatePermalink_returns.
Qed.

(** The trailing-slash step on the path of segments that are all in
    [[a-z0-9-]], of which only the last may be empty. *)
Lemma withTrailingSlash_wellFormed itemPath slug init last :
  Forall (λ seg, isSlugSegment seg = true) init →
  Js.all isSlugChar last = true →
  slug = "index" ∨ Js.toLowerCase (Path.extname itemPath) = ".md" →
  permalinkWellFormed
    (withTrailingSlash itemPath slug ("/" +:+ closeSegments init +:+ last)).
Proof.
  intros Hinit Hlast Hdir.
  assert (Hcond : bool_decide (slug = "index")
                  || bool_decide (Js.toLowerCase (Path.extname itemPath) = ".md")
                  = true).
  { apply orb_true_iff. destruct Hdir; [left|right]; by apply bool_decide_eq_true. }
  unfold withTrailingSlash. rewrite Hcond, andb_true_r. clear Hcond Hdir.
  destruct (decide (last = "")) as [->|Hne].
  - rewrite app_empty_r.
    destruct init as [|seg init _] using rev_ind; [by left|].
    right.
    assert (HP : "/" +:+ closeSegments (init ++ [seg])
                 = ("/" +:+ closeSegments init +:+ seg) +:+ String "/" "").
    { rewrite closeSegments_app. simpl. by rewrite !app_assoc'. }
    assert (Hpat : permalinkPattern ("/" +:+ closeSegments (init ++ [seg]))
                   = true).
    { apply permalinkPattern_segments. by eexists. }
    rewrite HP in *.
    rewrite endsWith_snoc. rewrite (bool_decide_eq_true_2 ("/"%char = "/"%char)) by done. simpl.
    rewrite !andb_false_r. simpl.
    case_bool_decide; exact Hpat.
  - destruct (string_snoc last Hne) as (l'&c&->).
    assert (Hseg : isSlugSegment (l' +:+ String c "") = true).
    { unfold isSlugSegment. rewrite Hlast, andb_true_r. by destruct l'. }
    rewrite all_append in Hlast. apply andb_true_iff in Hlast as [Hl' Hc].
    simpl in Hc. rewrite andb_true_r in Hc.
    destruct (slugChar_not_special c Hc) as (Hslash&_).
    right.
    assert (HP : "/" +:+ closeSegments init +:+ l' +:+ String c ""
                 = ("/" +:+ closeSegments init +:+ l') +:+ String c "").
    { by rewrite !app_assoc'. }
    assert (Hpat : permalinkPattern
              (("/" +:+ closeSegments init +:+ l' +:+ String c "") +:+ "/")
            = true).
    { apply permalinkPattern_segments.
      exists (init ++ [l' +:+ String c ""]). split.
      - apply Forall_app. split; [done|]. by constructor.
      - rewrite closeSegments_app. simpl. by rewrite !app_assoc'. }
    rewrite HP in *.
    rewrite endsWith_snoc.
    rewrite (bool_decide_eq_false_2 (c = "/"%char)) by done. simpl.
    rewrite bool_decide_eq_true_2; [exact Hpat|].
    intros [= Heq]. by destruct (closeSegments init +:+ l').
Qed.

(** The permalink of a Markdown item whose segments are all in
    [[a-z0-9-]]. *)
Lemma generatePermalink_markdown itemPath frontMatter itemType p :
  Js.toLowerCase (Path.extname itemPath) = ".md" →
  (itemType = page →
   Forall (λ seg, isSlugSegment seg = true)
          (relevantSegmentsOf config itemPath)) →
  generatePermalink config transliterate validAuthority itemPath frontMatter itemType = Ok p →
  permalinkWellFormed p.
Proof.
  intros Hext Hdirs. rewrite generatePermalink_unfold.
  destruct (permalinkSlug transliterate itemPath frontMatter itemType) as [slug|] eqn:Hslug;
    [|done].
  pose proof (permalinkSlug_slugChars _ _ _ _ Hslug) as Hchars.
  assert (Hshape : ∃ init last,
    Forall (λ seg, isSlugSegment seg = true) init
    ∧ Js.all isSlugChar last = true
    ∧ (permalinkSegments config itemPath itemType slug = init ++ [last]
       ∨ (permalinkSegments config itemPath itemType slug = []
          ∧ init = [] ∧ last = ""))).
  { destruct itemType.
    - exists ["blog"], slug. split; [by repeat constructor|]. by split; [|left].
    - rewrite permalinkSegments_page.
      specialize (Hdirs eq_refl).
      destruct (decide (slug = "index")) as [->|_].
      + rewrite app_nil_r.
        destruct (relevantSegmentsOf config itemPath)
          as [|seg init _] using rev_ind.
        * exists [], "". by eauto 10.
        * apply Forall_app in Hdirs as [Hinit Hseg].
          apply Forall_inv in Hseg.
          exists init, seg. split; [done|].
          apply andb_true_iff in Hseg as [_ ?]. by split; [|left].
      + exists (relevantSegmentsOf config itemPath), slug. by eauto 10.
    - exists ["drafts"], slug. split; [by repeat constructor|]. by split; [|left]. }
  destruct Hshape as (init&last&Hinit&Hlast&Hsegs).
  assert (Hjoin : Js.join "/" (permalinkSegments config itemPath itemType slug)
                  = closeSegments init +:+ last).
  { destruct Hsegs as [->|(->&->&->)]; [apply join_snoc|done]. }
  rewrite Hjoin, joined_relative by done.
  rewrite pathname_plain.
  2:{ rewrite all_append, closeSegments_pathChars by done.
      eapply all_impl; [apply slugChar_pathChar|done]. }
  2:{ by apply joined_relative. }
  intros <-%Ok_inj.
  apply withTrailingSlash_wellFormed; auto.
Qed.

End Permalink.

(** * What the processor builds

    From here on the configuration, the working directory, the two file
    readers, the collation, the first pass of [slugify] outside ASCII and
    the verdict of the host parser are arbitrary. *)

Section Results.
Variable config : Config.SiteConfig.
Variable cwd : string.
Variable parseMarkdownFile : string → Result Markdown.ParsedMarkdown.
Variable readFile : string → Result string.
Variable localeCompare : string → string → Z.
Variable transliterate : string → string.
Variable validAuthority : string → bool.

Abbreviation relativeOf filePath :=
  (Path.relative cwd (Config.source (Config.paths config)) filePath).
Abbreviation processItem' :=
  (processItem config cwd parseMarkdownFile readFile transliterate validAuthority).
Abbreviation loopBody' := (loopBody config cwd parseMarkdownFile readFile transliterate validAuthority).
Abbreviation postOf' := (postOf config cwd parseMarkdownFile readFile transliterate validAuthority).
Abbreviation pageOf' := (pageOf config cwd parseMarkdownFile readFile transliterate validAuthority).
Abbreviation draftOf' := (draftOf config cwd parseMarkdownFile readFile transliterate validAuthority).
Abbreviation builtAs' := (builtAs config cwd parseMarkdownFile readFile transliterate validAuthority).
Abbreviation discovered' :=
  (discovered config cwd parseMarkdownFile readFile transliterate validAuthority).
Abbreviation processContent' :=
  (processContent config cwd parseMarkdownFile readFile localeCompare transliterate validAuthority).

Lemma processItem_built filePath itemType item out :
  processItem' filePath itemType = (Some item, out) →
  out = []
  ∧ sourcePath item = filePath
  ∧ id item = relativeOf filePath
  ∧ relativePath item = relativeOf filePath
  ∧ isDraft item = bool_decide (itemType = draft)
  ∧ fileType item
    = (if decide (Js.toLowerCase (Path.extname filePath) = ".md")
       then markdown else html)
  ∧ generatePermalink config transliterate validAuthority (relativeOf filePath) (frontMatter item) itemType
    = Ok (permalink item)
  ∧ outputPath item = generateOutputPath config cwd (permalink item)
  ∧ (prop (frontMatter item) "published" = JsBool false → itemType = draft)
  ∧ date item
    = (if decide (itemType = post) then getTime (prop (frontMatter item) "date")
       else None)
  ∧ (itemType = post → is_Some (date item))
  ∧ match fileType item with
    | markdown =>
        ∃ parsed, parseMarkdownFile filePath = Ok parsed
                  ∧ frontMatter item = Markdown.frontMatter parsed
    | html => frontMatter item = ∅
    end.
Proof.
  unfold processItem, tryProcessItem.
  intros H.
  destruct (decide (Js.toLowerCase (Path.extname filePath) = ".md")) as [Hmd|Hmd].
  - destruct (parseMarkdownFile filePath) as [parsed|] eqn:Hparse;
      simpl in H; [|done].
    destruct (bool_decide (prop _ "published" = _) && _) eqn:Hpub; [done|].
    destruct (generatePermalink _ _ _ _) as [p|] eqn:Hp; simpl in H; [|done].
    destruct (decide (itemType = post)) as [->|Hpost].
    + destruct (negb _ || _ || _) eqn:Hdate; [done|].
      injection H as <- <-. simpl.
      apply orb_false_iff in Hdate as [_ Hdate%bool_decide_eq_false].
      repeat split; eauto.
      * intros Heq. rewrite Heq in Hpub. done.
      * by destruct (getTime _).
    + injection H as <- <-. simpl.
      repeat split; eauto; try done.
      intros Heq. rewrite Heq, bool_decide_eq_true_2 in Hpub by done.
      simpl in Hpub. apply negb_false_iff, bool_decide_eq_true in Hpub. done.
  - destruct (readFile filePath) as [raw|] eqn:Hread; simpl in H; [|done].
    destruct (generatePermalink _ _ _ _) as [p|] eqn:Hp; simpl in H; [|done].
    destruct (decide (itemType = post)) as [->|Hpost]; [done|].
    injection H as <- <-. simpl. repeat split; eauto; done.
Qed.


Lemma loopBody_collections st filePath :
  posts (loopBody' st filePath).1
  = posts st.1 ++ option_list (postOf' filePath)
  ∧ pages (loopBody' st filePath).1
    = pages st.1 ++ option_list (pageOf' filePath)
  ∧ drafts (loopBody' st filePath).1
    = drafts st.1 ++ option_list (draftOf' filePath).
Proof.
  unfold loopBody, postOf, pageOf,
    draftOf, builtAs.
  destruct (classify config filePath) as [itemType|] eqn:Hclass.
  2:{ rewrite !decide_False by done. simpl. by rewrite !app_nil_r. }
  destruct (processItem' filePath (processedAs itemType))
    as [[item|] out] eqn:Hitem.
  2:{ destruct itemType as [[]|]; cbn [processedAs] in *;
        repeat (rewrite decide_True by done || rewrite decide_False by done);
        rewrite ?Hitem; simpl; by rewrite !app_nil_r. }
  destruct (processItem_built _ _ _ _ Hitem)
    as (_&_&_&_&Hdraft&_).
  unfold push.
  destruct itemType as [[]|]; cbn [processedAs] in *;
    rewrite Hdraft;
    repeat (rewrite decide_True by done || rewrite decide_False by done);
    rewrite ?Hitem; simpl; by rewrite ?app_nil_r.
Qed.

Lemma loop_collections files st :
  posts (foldl loopBody' st files).1 = posts st.1 ++ omap postOf' files
  ∧ pages (foldl loopBody' st files).1 = pages st.1 ++ omap pageOf' files
  ∧ drafts (foldl loopBody' st files).1 = drafts st.1 ++ omap draftOf' files.
Proof.
  revert st. induction files as [|f files IH]; intros st; simpl.
  - by rewrite !app_nil_r.
  - destruct (IH (loopBody' st f)) as (-> & -> & ->).
    destruct (loopBody_collections st f) as (-> & -> & ->).
    rewrite <- !app_assoc.
    by destruct (postOf' f), (pageOf' f), (draftOf' f).
Qed.

(** [processContent'] returns the three contributions, sorted. *)
Lemma processContent_sorted files :
  (processContent' files).1
  = {| posts := sort byDateDescending (posts (discovered' files));
       pages := sort (byPermalink localeCompare) (pages (discovered' files));
       drafts := sort (byPermalink localeCompare) (drafts (discovered' files)) |}.
Proof.
  unfold processContent.
  destruct (foldl _ _ files) as [c out] eqn:Hloop.
  pose proof (loop_collections files
    (emptyContent,
     [Console log "Starting content processing...";
      Console log ("Found " +:+ pretty (length files)
                   +:+ " potential content files.")])) as Hc.
  rewrite Hloop in Hc. simpl in Hc. destruct Hc as (-> & -> & ->). done.
Qed.

Lemma elem_of_posts files item :
  item ∈ posts (processContent' files).1
  ↔ ∃ filePath, filePath ∈ files ∧ postOf' filePath = Some item.
Proof.
  rewrite processContent_sorted. simpl.
  by rewrite elem_of_sort, list_elem_of_omap.
Qed.

Lemma elem_of_pages files item :
  item ∈ pages (processContent' files).1
  ↔ ∃ filePath, filePath ∈ files ∧ pageOf' filePath = Some item.
Proof.
  rewrite processContent_sorted. simpl.
  by rewrite elem_of_sort, list_elem_of_omap.
Qed.

Lemma elem_of_drafts files item :
  item ∈ drafts (processContent' files).1
  ↔ ∃ filePath, filePath ∈ files ∧ draftOf' filePath = Some item.
Proof.
  rewrite processContent_sorted. simpl.
  by rewrite elem_of_sort, list_elem_of_omap.
Qed.

(** What a contribution is built from. *)
Lemma builtAs_Some filePath itemType item :
  builtAs' filePath itemType = Some item →
  classify config filePath = Some itemType
  ∧ ∃ out, processItem' filePath (processedAs itemType) = (Some item, out).
Proof.
  unfold builtAs. destruct (decide _) as [Hc|]; [|done].
  destruct (processItem' _ _) as [o out] eqn:Hitem. simpl.
  intros ->. eauto.
Qed.

Lemma pageOf_Some filePath item :
  pageOf' filePath = Some item →
  (classify config filePath = Some (found page)
   ∨ classify config filePath = Some root_page)
  ∧ ∃ out, processItem' filePath page = (Some item, out).
Proof.
  unfold pageOf.
  destruct (builtAs' _ (found page)) as [i|] eqn:Hpage.
  - intros [= ->]. apply builtAs_Some in Hpage as [? ?]. eauto.
  - intros [? ?]%builtAs_Some. eauto.
Qed.

(** A file that builds nothing leaves no trace in the result. *)
Lemma processContent_skip l1 filePath l2 :
  postOf' filePath = None → pageOf' filePath = None →
  draftOf' filePath = None →
  (processContent' (l1 ++ filePath :: l2)).1 = (processContent' (l1 ++ l2)).1.
Proof.
  intros Hpost Hpage Hdraft. rewrite !processContent_sorted.
  unfold discovered. simpl.
  rewrite !omap_app. simpl. by rewrite Hpost, Hpage, Hdraft.
Qed.


Lemma contribution_source filePath item :
  postOf' filePath = Some item ∨ pageOf' filePath = Some item
  ∨ draftOf' filePath = Some item →
  sourcePath item = filePath.
Proof.
  intros [H|[H|H]].
  - apply builtAs_Some in H as (_&out&H).
    by destruct (processItem_built _ _ _ _ H) as (_&?&_).
  - apply pageOf_Some in H as (_&out&H).
    by destruct (processItem_built _ _ _ _ H) as (_&?&_).
  - apply builtAs_Some in H as (_&out&H).
    by destruct (processItem_built _ _ _ _ H) as (_&?&_).
Qed.

Lemma elem_of_allItems files item :
  item ∈ allItems (processContent' files).1 →
  ∃ filePath,
    filePath ∈ files
    ∧ (postOf' filePath = Some item ∨ pageOf' filePath = Some item
       ∨ draftOf' filePath = Some item).
Proof.
  unfold allItems. rewrite !elem_of_app.
  rewrite elem_of_posts, elem_of_pages, elem_of_drafts.
  intros [(f&?&?)|[(f&?&?)|(f&?&?)]]; exists f; auto.
Qed.

Lemma dropped_contributes_nothing filePath itemType :
  classify config filePath = Some itemType →
  (processItem' filePath (processedAs itemType)).1 = None →
  postOf' filePath = None ∧ pageOf' filePath = None
  ∧ draftOf' filePath = None.
Proof.
  intros Hclass Hnone. unfold postOf, pageOf, draftOf, builtAs.
  rewrite Hclass.
  destruct itemType as [[]|];
    repeat (rewrite decide_True by done || rewrite decide_False by done);
    by rewrite ?Hnone.
Qed.

(** A classified file of which [processItem] makes nothing: the result is
    the one of the run without that file, and no item comes from it. *)
Lemma dropped_absent filePath itemType :
  classify config filePath = Some itemType →
  (processItem' filePath (processedAs itemType)).1 = None →
  (∀ l1 l2, (processContent' (l1 ++ filePath :: l2)).1
            = (processContent' (l1 ++ l2)).1)
  ∧ (∀ files item, item ∈ allItems (processContent' files).1 →
                   sourcePath item ≠ filePath).
Proof.
  intros Hclass Hnone.
  destruct (dropped_contributes_nothing _ _ Hclass Hnone) as (Hp&Hg&Hd).
  split.
  - intros l1 l2. by apply processContent_skip.
  - intros files item (f&_&Hf)%elem_of_allItems Heq.
    pose proof (contribution_source _ _ Hf) as Hs.
    rewrite Heq in Hs. subst f.
    rewrite Hp, Hg, Hd in Hf. by destruct Hf as [|[|]].
Qed.

Lemma date_check_invalid v :
  ¬ validDate v →
  negb (truthy v) || negb (instanceofDate v) || bool_decide (getTime v = None)
  = true.
Proof.
  unfold validDate. intros Hv.
  destruct v as [| | | | |[t|]|]; simpl; try done;
    try (by rewrite orb_true_r).
  destruct Hv. by eexists.
Qed.

(** ** Items that are dropped *)

(** What [processItem] does with a Markdown file once it is parsed. *)
Lemma processItem_markdown filePath itemType parsed :
  Js.toLowerCase (Path.extname filePath) = ".md" →
  parseMarkdownFile filePath = Ok parsed →
  processItem' filePath itemType
  = if bool_decide (prop (Markdown.frontMatter parsed) "published"
                    = JsBool false)
       && negb (bool_decide (itemType = draft))
    then (None,
          [Console log ("Skipping unpublished item: " +:+ relativeOf filePath)])
    else
      match generatePermalink config transliterate validAuthority (relativeOf filePath)
              (Markdown.frontMatter parsed) itemType with
      | Throw message =>
          (None,
           [Console error
              ("[Error] Failed to process file " +:+ relativeOf filePath
               +:+ ": " +:+ message)])
      | Ok p =>
          let baseItem :=
            {| id := relativeOf filePath;
               sourcePath := filePath;
               relativePath := relativeOf filePath;
               fileType := markdown;
               isDraft := bool_decide (itemType = draft);
               frontMatter := Markdown.frontMatter parsed;
               rawContent := Markdown.markdownContent parsed;
               htmlContent := Markdown.htmlContent parsed;
               permalink := p;
               outputHref := "";
               outputPath := generateOutputPath config cwd p;
               date := None |} in
          let d := prop (Markdown.frontMatter parsed) "date" in
          if decide (itemType = post) then
            if negb (truthy d) || negb (instanceofDate d)
               || bool_decide (getTime d = None)
            then (None,
                  [Console warn
                     ("[Warning] Skipping post due to missing or invalid date: "
                      +:+ relativeOf filePath)])
            else (Some (withDate baseItem (getTime d)), [])
          else (Some baseItem, [])
      end.
Proof.
  intros Hext Hparse. unfold processItem, tryProcessItem.
  rewrite decide_True by done. rewrite Hparse. simpl.
  destruct (bool_decide _ && _); [done|].
  destruct (generatePermalink _ _ _ _); simpl; [|done].
  destruct (decide _); [|done]. by destruct (_ || _ || _).
Qed.

(** A Markdown file whose [slug] is truthy and not a string ends as one
    error line and no item, unless it is skipped as unpublished before. *)
Lemma unusable_slug_fails filePath itemType parsed :
  Js.toLowerCase (Path.extname filePath) = ".md" →
  parseMarkdownFile filePath = Ok parsed →
  slugUsable (Markdown.frontMatter parsed) = false →
  (prop (Markdown.frontMatter parsed) "published" = JsBool false →
   itemType = draft) →
  processItem' filePath itemType
  = (None,
     [Console error
        ("[Error] Failed to process file " +:+ relativeOf filePath
         +:+ ": slugify: string argument expected")]).
Proof.
  intros Hext Hparse Hslug Hpub.
  rewrite (processItem_markdown filePath itemType parsed Hext Hparse).
  rewrite (generatePermalink_throws config transliterate validAuthority
             _ _ _ Hslug).
  case_bool_decide as Hp; simpl; [|done].
  rewrite (Hpub Hp). done.
Qed.

(** C4. A file classified as a post whose front matter, as the Markdown
    parser returns it, holds no valid date (the key is absent, its value
    is not a date, or it is an invalid date) builds no item: the result of
    the run is the one of the run without the file, no collection holds an
    item of that file, and the only diagnostic of the file is a warning
    whenever the file is not unpublished and its slug can be read. *)
Theorem C4_post_without_valid_date_is_dropped filePath parsed :
  classify config filePath = Some (found post) →
  Js.toLowerCase (Path.extname filePath) = ".md" →
  parseMarkdownFile filePath = Ok parsed →
  ¬ validDate (prop (Markdown.frontMatter parsed) "date") →
  (processItem' filePath post).1 = None
  ∧ (∀ l1 l2, (processContent' (l1 ++ filePath :: l2)).1
              = (processContent' (l1 ++ l2)).1)
  ∧ (∀ files item, item ∈ allItems (processContent' files).1 →
                   sourcePath item ≠ filePath)
  ∧ (prop (Markdown.frontMatter parsed) "published" ≠ JsBool false →
     slugUsable (Markdown.frontMatter parsed) = true →
     processItem' filePath post
     = (None,
        [Console warn
           ("[Warning] Skipping post due to missing or invalid date: "
            +:+ relativeOf filePath)])).
Proof.
  intros Hclass Hext Hparse Hdate.
  pose proof (processItem_markdown filePath post parsed Hext Hparse) as Hitem.
  cbv zeta in Hitem.
  rewrite (date_check_invalid _ Hdate) in Hitem. simpl in Hitem.
  assert (Hnone : (processItem' filePath post).1 = None).
  { rewrite Hitem. destruct (bool_decide _ && _); [done|].
    by destruct (generatePermalink _ _ _ _). }
  split; [done|].
  destruct (dropped_absent filePath (found post) Hclass Hnone) as [? ?].
  do 2 (split; [done|]).
  intros Hpub Huse. rewrite Hitem.
  rewrite bool_decide_eq_false_2 by done. simpl.
  by destruct (generatePermalink_returns_unless_page config transliterate
                 validAuthority (relativeOf filePath) _ post Huse)
    as [p ->].
Qed.

(** C5. A Markdown file that is not classified as a draft and whose front
    matter has [published === false] builds no item: it is skipped with a
    log line, the result of the run is the one of the run without the
    file, and no collection holds an item of that file.  A Markdown file
    classified as a draft, whose slug is unset or a string, is built
    whatever its [published] key holds, and its item is in the drafts of
    every run that discovers the file. *)
Theorem C5_publish_filter :
  (∀ filePath itemType parsed,
     classify config filePath = Some itemType →
     itemType ≠ found draft →
     Js.toLowerCase (Path.extname filePath) = ".md" →
     parseMarkdownFile filePath = Ok parsed →
     prop (Markdown.frontMatter parsed) "published" = JsBool false →
     processItem' filePath (processedAs itemType)
     = (None,
        [Console log ("Skipping unpublished item: " +:+ relativeOf filePath)])
     ∧ (∀ l1 l2, (processContent' (l1 ++ filePath :: l2)).1
                 = (processContent' (l1 ++ l2)).1)
     ∧ (∀ files item, item ∈ allItems (processContent' files).1 →
                      sourcePath item ≠ filePath))
  ∧ (∀ filePath parsed,
       classify config filePath = Some (found draft) →
       Js.toLowerCase (Path.extname filePath) = ".md" →
       parseMarkdownFile filePath = Ok parsed →
       slugUsable (Markdown.frontMatter parsed) = true →
       ∃ item,
         processItem' filePath draft = (Some item, [])
         ∧ isDraft item = true
         ∧ sourcePath item = filePath
         ∧ frontMatter item = Markdown.frontMatter parsed
         ∧ ∀ l1 l2, item ∈ drafts (processContent' (l1 ++ filePath :: l2)).1).
Proof.
  split.
  - intros filePath itemType parsed Hclass Hnd Hext Hparse Hpub.
    assert (Hitem : processItem' filePath (processedAs itemType)
              = (None,
                 [Console log
                    ("Skipping unpublished item: " +:+ relativeOf filePath)])).
    { rewrite (processItem_markdown _ _ parsed Hext Hparse).
      rewrite Hpub, bool_decide_eq_true_2 by done.
      rewrite bool_decide_eq_false_2; [done|].
      by destruct itemType as [[]|]. }
    split; [done|].
    apply (dropped_absent filePath itemType Hclass). by rewrite Hitem.
  - intros filePath parsed Hclass Hext Hparse Huse.
    pose proof (processItem_markdown filePath draft parsed Hext Hparse)
      as Hitem.
    cbv zeta in Hitem.
    rewrite (bool_decide_eq_true_2 (draft = draft)) in Hitem by done.
    rewrite andb_false_r in Hitem.
    destruct (generatePermalink_returns_unless_page config transliterate
                validAuthority (relativeOf filePath) _ draft Huse)
      as [p Hp]; [done|].
    rewrite Hp in Hitem. simpl in Hitem.
    eexists. split; [exact Hitem|]. do 3 (split; [done|]).
    intros l1 l2. apply elem_of_drafts. exists filePath.
    split; [apply elem_of_app; right; left|].
    unfold draftOf, builtAs. rewrite decide_True by done.
    simpl. by rewrite Hitem.
Qed.

(** C10. Every item of the posts collection was built from a Markdown
    file; a file classified as a post whose extension is not [.md] builds
    no item, and no collection of any run holds an item of it. *)
Theorem C10_posts_are_markdown :
  (∀ files item,
     item ∈ posts (processContent' files).1 → fileType item = markdown)
  ∧ (∀ filePath,
       classify config filePath = Some (found post) →
       Js.toLowerCase (Path.extname filePath) ≠ ".md" →
       (processItem' filePath post).1 = None
       ∧ (∀ l1 l2, (processContent' (l1 ++ filePath :: l2)).1
                   = (processContent' (l1 ++ l2)).1)
       ∧ (∀ files item, item ∈ allItems (processContent' files).1 →
                        sourcePath item ≠ filePath)).
Proof.
  assert (Hhtml : ∀ filePath,
    Js.toLowerCase (Path.extname filePath) ≠ ".md" →
    (processItem' filePath post).1 = None).
  { intros filePath Hext. unfold processItem, tryProcessItem.
    rewrite decide_False by done.
    destruct (readFile filePath); simpl; [|done].
    by destruct (generatePermalink _ _ _ _). }
  split.
  - intros files item (filePath&_&Hpost)%elem_of_posts.
    apply builtAs_Some in Hpost as (_&out&Hitem).
    destruct (processItem_built _ _ _ _ Hitem) as (_&_&_&_&_&->&_).
    destruct (decide _) as [|Hext]; [done|].
    apply Hhtml in Hext. simpl in Hitem. by rewrite Hitem in Hext.
  - intros filePath Hclass Hext. split; [by apply Hhtml|].
    apply (dropped_absent filePath (found post) Hclass). by apply Hhtml.
Qed.


(** ** The order of the collections *)

Lemma omap_sublist {A B : Type} (f : A → option B) (g : B → A) l :
  (∀ x y, f x = Some y → g y = x) → (g <$> omap f l) `sublist_of` l.
Proof.
  intros Hfg. induction l as [|x l IH]; simpl; [constructor|].
  destruct (f x) as [y|] eqn:Hx; simpl.
  - rewrite (Hfg x y Hx). by constructor.
  - by constructor.
Qed.

Lemma StronglySorted_strengthen {A : Type} (R R' : A → A → Prop)
    (P : A → Prop) l :
  (∀ a b, P a → P b → R a b → R' a b) →
  Forall P l → StronglySorted R l → StronglySorted R' l.
Proof.
  intros HR HP Hs. induction Hs as [|a l _ IH Ha]; [constructor|].
  apply Forall_cons in HP as [HPa HPl]. constructor; [auto|].
  rewrite Forall_forall in *. intros b Hb. auto.
Qed.

(** C3, as amended.  For a collation that is a consistent comparison
    (total and transitive): the posts are in non-increasing order of date
    and posts of one date keep the order in which their files were
    discovered; the pages and the drafts are each in non-decreasing order
    of permalink under [localeCompare]; each collection is a rearrangement
    of what the loop collected. *)
Theorem C3_collections_sorted files :
  (∀ a b, (0 < localeCompare a b)%Z → (localeCompare b a <= 0)%Z) →
  (∀ a b c, (localeCompare a b <= 0)%Z → (localeCompare b c <= 0)%Z →
            (localeCompare a c <= 0)%Z) →
  StronglySorted
    (λ a b, ∃ ta tb, date a = Some ta ∧ date b = Some tb ∧ (tb <= ta)%Z)
    (posts (processContent' files).1)
  ∧ (∀ t, List.filter (λ i, bool_decide (date i = Some t))
            (posts (processContent' files).1)
          = List.filter (λ i, bool_decide (date i = Some t))
              (omap postOf' files))
  ∧ (sourcePath <$> omap postOf' files) `sublist_of` files
  ∧ StronglySorted
      (λ a b, (localeCompare (permalink a) (permalink b) <= 0)%Z)
      (pages (processContent' files).1)
  ∧ StronglySorted
      (λ a b, (localeCompare (permalink a) (permalink b) <= 0)%Z)
      (drafts (processContent' files).1)
  ∧ posts (processContent' files).1 ≡ₚ omap postOf' files
  ∧ pages (processContent' files).1 ≡ₚ omap pageOf' files
  ∧ drafts (processContent' files).1 ≡ₚ omap draftOf' files.
Proof.
  intros Htotal Htrans. rewrite processContent_sorted. simpl.
  split; [|split; [|split; [|split; [|split]]]].
  - apply (StronglySorted_strengthen
             (λ a b, (byDateDescending a b <= 0)%Z) _
             (λ a, is_Some (date a))).
    + intros a b [ta Ha] [tb Hb]. unfold byDateDescending.
      rewrite Ha, Hb. simpl. intros ?. exists ta, tb. repeat split; [done..|lia].
    + apply Forall_forall. intros item Hitem.
      apply elem_of_sort, list_elem_of_omap in Hitem as (f&_&Hf).
      apply builtAs_Some in Hf as (_&out&Hf).
      destruct (processItem_built _ _ _ _ Hf)
        as (_&_&_&_&_&_&_&_&_&_&Hdate&_).
      by apply Hdate.
    + apply sort_sorted; unfold byDateDescending; intros; lia.
  - intros t. apply sort_stable. intros a b Ha Hb.
    apply bool_decide_eq_true in Ha, Hb. unfold byDateDescending.
    rewrite Ha, Hb. simpl. lia.
  - apply omap_sublist. intros f item Hf.
    apply (contribution_source f item). by left.
  - apply (sort_sorted (byPermalink localeCompare)); unfold byPermalink; eauto.
  - apply (sort_sorted (byPermalink localeCompare)); unfold byPermalink; eauto.
  - by rewrite !sort_Permutation.
Qed.

(** ** Classification and file types *)

(** The loop classifies as the specification words it, for a path that no
    root is a mere textual prefix of. *)
Lemma classify_as_specified filePath :
  (∀ root, root ∈ [Config.posts (Config.paths config);
                   Config.drafts (Config.paths config);
                   Config.pages (Config.paths config)] →
           Js.startsWith filePath root = isUnder root filePath) →
  classify config filePath = classifyAsSpecified config filePath.
Proof.
  intros Hroots. unfold classify, classifyAsSpecified.
  rewrite !Hroots; [done|set_solver..].
Qed.

(** No file has an item in two collections. *)
Lemma collections_disjoint files a b :
  (a ∈ posts (processContent' files).1 ∧ b ∈ pages (processContent' files).1)
  ∨ (a ∈ posts (processContent' files).1
     ∧ b ∈ drafts (processContent' files).1)
  ∨ (a ∈ pages (processContent' files).1
     ∧ b ∈ drafts (processContent' files).1) →
  sourcePath a ≠ sourcePath b.
Proof.
  intros [[Ha Hb]|[[Ha Hb]|[Ha Hb]]].
  - apply elem_of_posts in Ha as (fa&_&Ha).
    apply elem_of_pages in Hb as (fb&_&Hb).
    rewrite (contribution_source fa a), (contribution_source fb b) by auto.
    intros <-.
    apply builtAs_Some in Ha as (Ha&_). apply pageOf_Some in Hb as (Hb&_).
    rewrite Ha in Hb. by destruct Hb.
  - apply elem_of_posts in Ha as (fa&_&Ha).
    apply elem_of_drafts in Hb as (fb&_&Hb).
    rewrite (contribution_source fa a), (contribution_source fb b) by auto.
    intros <-.
    apply builtAs_Some in Ha as (Ha&_). apply builtAs_Some in Hb as (Hb&_).
    by rewrite Ha in Hb.
  - apply elem_of_pages in Ha as (fa&_&Ha).
    apply elem_of_drafts in Hb as (fb&_&Hb).
    rewrite (contribution_source fa a), (contribution_source fb b) by auto.
    intros <-.
    apply pageOf_Some in Ha as (Ha&_). apply builtAs_Some in Hb as (Hb&_).
    rewrite Hb in Ha. by destruct Ha.
Qed.

(** Every file whose extension is not [.md] is read as HTML: as a page or
    a draft it is built whenever its permalink is, with an empty front
    matter and its text as both bodies. *)
Lemma processItem_other_extension filePath itemType raw p :
  Js.toLowerCase (Path.extname filePath) ≠ ".md" →
  itemType ≠ post →
  readFile filePath = Ok raw →
  generatePermalink config transliterate validAuthority (relativeOf filePath)
    ∅ itemType = Ok p →
  processItem' filePath itemType
  = (Some {| id := relativeOf filePath;
             sourcePath := filePath;
             relativePath := relativeOf filePath;
             fileType := html;
             isDraft := bool_decide (itemType = draft);
             frontMatter := ∅;
             rawContent := raw;
             htmlContent := raw;
             permalink := p;
             outputHref := "";
             outputPath := generateOutputPath config cwd p;
             date := None |}, []).
Proof.
  intros Hext Htype Hread Hperm. unfold processItem, tryProcessItem.
  rewrite decide_False by done. rewrite Hread. simpl.
  rewrite Hperm. simpl.
  by rewrite decide_False.
Qed.

End Results.

(** * The slug and the segments *)

Lemma strictKeep_lower_not_hyphen c :
  Slugify.strictKeep c = true → Js.isSpace c = false →
  Ascii.eqb (Js.toLowerChar c) "-" = false.
Proof. each_char c. Qed.

Lemma replaceSpaces_collapsed inRun s :
  Js.all Slugify.strictKeep s = true →
  noHyphenRun inRun (Js.toLowerCase (Slugify.replaceSpaces inRun s)) = true.
Proof.
  revert inRun. induction s as [|c s IH]; intros inRun; simpl; [done|].
  rewrite andb_true_iff. intros [Hc Hs].
  destruct (Js.isSpace c) eqn:Hspace.
  - destruct inRun; simpl; auto.
  - simpl. rewrite (strictKeep_lower_not_hyphen c Hc Hspace). auto.
Qed.

Lemma slugify_collapsed transliterate s :
  noHyphenRun false (Slugify.slugify transliterate s) = true.
Proof. apply replaceSpaces_collapsed, all_trim, all_filter. Qed.

(** ** The slug of a name made of words *)

Lemma alnum_char c :
  Js.isAlnum c = true →
  Js.isAscii c = true ∧ Js.isSpace c = false
  ∧ Slugify.strictKeep c = true
  ∧ Js.filter Slugify.allowed
      (if decide (default (String c "") (Slugify.charMap c)
                  = Slugify.replacement)
       then " " else default (String c "") (Slugify.charMap c))
    = String c "".
Proof. each_char c. Qed.

Lemma replaceChars_app a b :
  Slugify.replaceChars (a +:+ b)
  = Slugify.replaceChars a +:+ Slugify.replaceChars b.
Proof.
  induction a as [|c a IH]; [done|].
  cbn [String.append Slugify.replaceChars]. cbv zeta.
  by rewrite IH, app_assoc'.
Qed.

Lemma replaceChars_word w :
  Js.all Js.isAlnum w = true → Slugify.replaceChars w = w.
Proof.
  induction w as [|c w IH]; [done|]. simpl Js.all.
  rewrite andb_true_iff. intros [Hc Hw].
  cbn [Slugify.replaceChars]. cbv zeta.
  destruct (alnum_char c Hc) as (_&_&_&->). by rewrite IH.
Qed.

Lemma all_join p sep words :
  Js.all p sep = true →
  Forall (λ w, Js.all p w = true) words →
  Js.all p (Js.join sep words) = true.
Proof.
  intros Hsep Hwords.
  induction Hwords as [|w words Hw Hwords IH]; [done|].
  destruct words as [|w2 words]; [done|].
  rewrite join_cons, !all_append, Hw, Hsep. exact IH.
Qed.

Lemma word_chars p words :
  (∀ c, Js.isAlnum c = true → p c = true) →
  Forall (λ w, isAlnumWord w = true) words →
  Forall (λ w, Js.all p w = true) words.
Proof.
  intros Hp Hwords. eapply Forall_impl; [exact Hwords|].
  intros w [_ Hw]%andb_true_iff. by apply (all_impl Js.isAlnum).
Qed.

(** The first pass on words joined by hyphens or by spaces: the words
    joined by spaces. *)
Lemma replaceChars_words sep words :
  sep = "-" ∨ sep = " " →
  Forall (λ w, isAlnumWord w = true) words →
  Slugify.replaceChars (Js.join sep words) = Js.join " " words.
Proof.
  intros Hsep Hwords.
  induction Hwords as [|w words Hw Hwords IH]; [done|].
  apply andb_true_iff in Hw as [_ Hw].
  destruct words as [|w2 words]; [by apply replaceChars_word|].
  rewrite !join_cons, !replaceChars_app, IH, (replaceChars_word w Hw).
  by destruct Hsep as [->| ->].
Qed.

Lemma join_last sep words :
  words ≠ [] → Forall (λ w, isAlnumWord w = true) words →
  ∃ r d, Js.join sep words = r +:+ String d "" ∧ Js.isAlnum d = true.
Proof.
  intros Hwords Hall.
  induction Hall as [|w words Hw Hall IH]; [done|]. clear Hwords.
  destruct words as [|w2 words].
  - apply andb_true_iff in Hw as [Hne Hw].
    destruct (string_snoc w) as (r&d&->); [by destruct w|].
    exists r, d. split; [done|].
    rewrite all_append in Hw. apply andb_true_iff in Hw as [_ Hd].
    simpl in Hd. by rewrite andb_true_r in Hd.
  - destruct IH as (r&d&Hr&Hd); [done|].
    exists (w +:+ sep +:+ r), d. split; [|done].
    by rewrite join_cons, Hr, !app_assoc'.
Qed.

Lemma trim_words words :
  words ≠ [] → Forall (λ w, isAlnumWord w = true) words →
  Js.trim (Js.join " " words) = Js.join " " words.
Proof.
  intros Hne Hwords. unfold Js.trim.
  assert (Hstart : Js.trimStart (Js.join " " words) = Js.join " " words).
  { destruct Hwords as [|w words Hw _]; [done|].
    apply andb_true_iff in Hw as [Hfull Hw].
    destruct w as [|c w]; [done|]. simpl in Hw.
    apply andb_true_iff in Hw as [Hc _].
    destruct (alnum_char c Hc) as (_&Hspace&_).
    destruct words; simpl; by rewrite Hspace. }
  rewrite Hstart.
  destruct (join_last " " words Hne Hwords) as (r&d&->&Hd).
  rewrite rev_append. change (String.rev (String d "")) with (String d "").
  destruct (alnum_char d Hd) as (_&Hspace&_).
  cbn [String.append Js.trimStart]. rewrite Hspace.
  change (String d (String.rev r)) with (String d "" +:+ String.rev r).
  by rewrite rev_append, rev_involutive.
Qed.

Lemma replaceSpaces_word inRun w rest :
  isAlnumWord w = true →
  Slugify.replaceSpaces inRun (w +:+ rest)
  = w +:+ Slugify.replaceSpaces false rest.
Proof.
  intros [Hne Hw]%andb_true_iff. revert inRun.
  induction w as [|c w IH]; intros inRun; [done|].
  simpl in Hw. apply andb_true_iff in Hw as [Hc Hw].
  destruct (alnum_char c Hc) as (_&Hspace&_).
  cbn [String.append Slugify.replaceSpaces]. rewrite Hspace. f_equal.
  destruct w as [|c2 w]; [done|]. by apply IH.
Qed.

Lemma replaceSpaces_words inRun words :
  words ≠ [] → Forall (λ w, isAlnumWord w = true) words →
  Slugify.replaceSpaces inRun (Js.join " " words) = Js.join "-" words.
Proof.
  intros _ Hwords. revert inRun.
  induction Hwords as [|w words Hw Hwords IH]; intros inRun; [done|].
  destruct words as [|w2 words].
  - change (Js.join " " [w]) with w. change (Js.join "-" [w]) with w.
    rewrite <- (app_empty_r w) at 1.
    by rewrite replaceSpaces_word, app_empty_r.
  - rewrite !join_cons, replaceSpaces_word by done.
    cbn [String.append Slugify.replaceSpaces]. change (Js.isSpace " ") with true.
    cbv iota. by rewrite IH.
Qed.

(** A name made of words of ASCII letters and digits, joined by hyphens or
    by spaces, has the slug made of those words in lower case, joined by
    hyphens. *)
Lemma slugify_words transliterate sep words :
  sep = "-" ∨ sep = " " →
  words ≠ [] → Forall (λ w, isAlnumWord w = true) words →
  Slugify.slugify transliterate (Js.join sep words)
  = Js.toLowerCase (Js.join "-" words).
Proof.
  intros Hsep Hne Hwords. unfold Slugify.slugify, Slugify.firstPass.
  rewrite all_join; [|by destruct Hsep as [->| ->]|].
  2:{ apply word_chars; [|done]. intros c Hc. by destruct (alnum_char c Hc). }
  rewrite replaceChars_words by done.
  rewrite filter_all.
  2:{ apply all_join; [done|]. apply word_chars; [|done].
      intros c Hc. by destruct (alnum_char c Hc) as (_&_&?&_). }
  by rewrite trim_words, replaceSpaces_words.
Qed.

(** The date prefix that line 41 removes from the name of a post. *)
Lemma stripDatePrefix_prefixed p rest :
  isDatePrefix p = true → stripDatePrefix (p +:+ rest) = rest.
Proof.
  unfold isDatePrefix.
  do 11 (destruct p as [|? p]; [done|]). destruct p; [|done].
  cbn [String.list_ascii_of_string String.append]. intros Hp.
  unfold stripDatePrefix. by rewrite Hp.
Qed.

Lemma stripDatePrefix_other name :
  (∀ p rest, name = p +:+ rest → isDatePrefix p = false) →
  stripDatePrefix name = name.
Proof.
  intros Hname. unfold stripDatePrefix.
  do 11 (destruct name as [|? name]; [done|]).
  match goal with
  | |- (if ?b then _ else _) = _ => destruct b eqn:Hb; [|done]
  end.
  match goal with
  | |- _ = String ?y1 (String ?y2 (String ?y3 (String ?y4 (String ?h1
           (String ?m1 (String ?m2 (String ?h2
              (String ?d1 (String ?d2 (String ?h3 _)))))))))) =>
      specialize (Hname
        (String y1 (String y2 (String y3 (String y4 (String h1
           (String m1 (String m2 (String h2
              (String d1 (String d2 (String h3 ""))))))))))) name eq_refl)
  end.
  unfold isDatePrefix in Hname.
  cbn [String.list_ascii_of_string] in Hname. congruence.
Qed.

Section Slug.
Variable config : Config.SiteConfig.
Variable cwd : string.
Variable parseMarkdownFile : string → Result Markdown.ParsedMarkdown.
Variable readFile : string → Result string.
Variable transliterate : string → string.
Variable validAuthority : string → bool.

(** The segments of a page are the directory components it keeps, in their
    order, followed by the slug unless the slug is [index]; no kept
    component is the name of the pages root. *)
Lemma page_segments itemPath slug :
  permalinkSegments config itemPath page slug
  = relevantSegmentsOf config itemPath
    ++ (if decide (slug = "index") then [] else [slug])
  ∧ relevantSegmentsOf config itemPath `sublist_of` dirSegmentsOf itemPath
  ∧ Path.basename (Config.pages (Config.paths config))
    ∉ relevantSegmentsOf config itemPath.
Proof.
  split; [apply permalinkSegments_page|]. unfold relevantSegmentsOf. split.
  - apply sublist_filter.
  - rewrite list_elem_of_filter. by intros [? _].
Qed.

(** C7, as amended.  A slug that is a non-empty string is slugified and
    used, whatever the file is called and whatever its type.  A slug that is
    absent or falsy counts as not set: the slug is then the slugified file
    name, for a post after a leading [YYYY-MM-DD-] is removed (a name
    without that prefix is kept whole), for a page or a draft as it is.  A
    slug that is truthy and not a string makes [slugify] throw:
    [generatePermalink] fails, and a Markdown file with such a slug, unless
    it is skipped as unpublished before, ends as one error line and no
    item.  A slug holds only characters of [[a-z0-9-]] and no two hyphens in
    a row.  The post [posts/2024-01-15-hello-world.md] without a slug has
    the permalink [/blog/hello-world/]. *)
Theorem C7_slug_derivation :
  (∀ itemPath frontMatter itemType s,
     prop frontMatter "slug" = JsString s → s ≠ "" →
     permalinkSlug transliterate itemPath frontMatter itemType
     = Ok (Slugify.slugify transliterate s))
  ∧ (∀ itemPath frontMatter,
       truthy (prop frontMatter "slug") = false →
       permalinkSlug transliterate itemPath frontMatter post
       = Ok (Slugify.slugify transliterate
               (stripDatePrefix (Path.name (Path.parse itemPath))))
       ∧ permalinkSlug transliterate itemPath frontMatter page
         = Ok (Slugify.slugify transliterate (Path.name (Path.parse itemPath)))
       ∧ permalinkSlug transliterate itemPath frontMatter draft
         = Ok (Slugify.slugify transliterate
                 (Path.name (Path.parse itemPath))))
  ∧ (∀ itemPath frontMatter itemType,
       truthy (prop frontMatter "slug") = true →
       (∀ s, prop frontMatter "slug" ≠ JsString s) →
       generatePermalink config transliterate validAuthority itemPath
         frontMatter itemType
       = Throw "slugify: string argument expected"
       ∧ ∀ filePath parsed,
           Js.toLowerCase (Path.extname filePath) = ".md" →
           parseMarkdownFile filePath = Ok parsed →
           Markdown.frontMatter parsed = frontMatter →
           (prop frontMatter "published" = JsBool false → itemType = draft) →
           processItem config cwd parseMarkdownFile readFile transliterate
             validAuthority filePath itemType
           = (None,
              [Console error
                 ("[Error] Failed to process file "
                  +:+ Path.relative cwd (Config.source (Config.paths config))
                        filePath
                  +:+ ": slugify: string argument expected")]))
  ∧ (∀ p rest, isDatePrefix p = true → stripDatePrefix (p +:+ rest) = rest)
  ∧ (∀ name,
       (∀ p rest, name = p +:+ rest → isDatePrefix p = false) →
       stripDatePrefix name = name)
  ∧ (∀ s, Js.all isSlugChar (Slugify.slugify transliterate s) = true
          ∧ noHyphenRun false (Slugify.slugify transliterate s) = true)
  ∧ (∀ sep words,
       sep = "-" ∨ sep = " " →
       words ≠ [] → Forall (λ w, isAlnumWord w = true) words →
       Slugify.slugify transliterate (Js.join sep words)
       = Js.toLowerCase (Js.join "-" words))
  ∧ generatePermalink config transliterate validAuthority
      "posts/2024-01-15-hello-world.md" ∅ post
    = Ok "/blog/hello-world/".
Proof.
  split; [|split; [|split; [|split; [|split; [|split; [|split]]]]]].
  - intros itemPath frontMatter itemType s Hs Hne. unfold permalinkSlug.
    rewrite Hs. simpl. by destruct s.
  - intros itemPath frontMatter Hfalsy. unfold permalinkSlug.
    by rewrite Hfalsy.
  - intros itemPath frontMatter itemType Htruthy Hstring.
    assert (Hslug : slugUsable frontMatter = false).
    { unfold slugUsable.
      destruct (prop frontMatter "slug") as [| | | |s| |] eqn:Hv;
        try done; try (by rewrite Htruthy).
      by destruct (Hstring s). }
    split; [by apply generatePermalink_throws|].
    intros filePath parsed Hext Hparse <- Hpub.
    by apply (unusable_slug_fails config cwd parseMarkdownFile readFile
                transliterate validAuthority filePath itemType parsed).
  - apply stripDatePrefix_prefixed.
  - apply stripDatePrefix_other.
  - intros s. split; [apply slugify_slugChars|apply slugify_collapsed].
  - apply slugify_words.
  - vm_compute. reflexivity.
Qed.

End Slug.

(** * The collation of the sample *)

Lemma lexCompare_antisym a b :
  Intl.lexCompare b a = CompOpp (Intl.lexCompare a b).
Proof.
  revert b. induction a as [|x a IH]; intros [|y b]; simpl; try done.
  rewrite (N.compare_antisym x y). destruct (x ?= y)%N; simpl; auto.
Qed.

Lemma lexCompare_le_trans a b c :
  Intl.lexCompare a b ≠ Gt → Intl.lexCompare b c ≠ Gt →
  Intl.lexCompare a c ≠ Gt.
Proof.
  revert b c. induction a as [|x a IH]; intros [|y b] [|z c]; simpl; try done.
  destruct (N.compare_spec x y) as [->|Hxy|Hxy]; [|clear IH|done].
  - destruct (y ?= z)%N; eauto.
  - destruct (N.compare_spec y z) as [->|Hyz|Hyz]; [| |done]; intros _ _.
    + by rewrite (proj2 (N.compare_lt_iff _ _) Hxy).
    + rewrite (proj2 (N.compare_lt_iff x z)); [done|lia].
Qed.

Lemma localeCompare_total a b :
  (0 < Intl.localeCompare a b)%Z → (Intl.localeCompare b a <= 0)%Z.
Proof.
  unfold Intl.localeCompare.
  rewrite (lexCompare_antisym (Intl.sortKey a) (Intl.sortKey b)).
  destruct (Intl.lexCompare _ _); simpl; lia.
Qed.

Lemma localeCompare_trans a b c :
  (Intl.localeCompare a b <= 0)%Z → (Intl.localeCompare b c <= 0)%Z →
  (Intl.localeCompare a c <= 0)%Z.
Proof.
  unfold Intl.localeCompare. intros Hab Hbc.
  pose proof (lexCompare_le_trans (Intl.sortKey a) (Intl.sortKey b)
                (Intl.sortKey c)) as Htrans.
  destruct (Intl.lexCompare (Intl.sortKey a) (Intl.sortKey b));
    destruct (Intl.lexCompare (Intl.sortKey b) (Intl.sortKey c));
    destruct (Intl.lexCompare (Intl.sortKey a) (Intl.sortKey c));
    try lia; by destruct Htrans.
Qed.

(** * The sample site, run *)

(** C1, the claim as stated: a page built from [pages/about.html] has the
    permalink [/about], without a trailing slash, which is neither [/] nor a
    match of the expression. *)
Lemma C1_html_page_counterexample :
  permalink <$> pages (Sample.processContent ["/site/pages/about.html"]).1
  = ["/about"]
  ∧ fileType <$> pages (Sample.processContent ["/site/pages/about.html"]).1
    = [html]
  ∧ ¬ Forall (λ item, permalinkWellFormed (permalink item))
        (allItems (Sample.processContent ["/site/pages/about.html"]).1).
Proof.
  split; [by vm_compute|]. split; [by vm_compute|].
  intros H. apply (proj2 (Forall_fmap permalink permalinkWellFormed _)) in H.
  assert (Heval : permalink <$>
            allItems (Sample.processContent ["/site/pages/about.html"]).1
          = ["/about"]) by (by vm_compute).
  rewrite Heval in H. apply Forall_inv in H as [H|H]; discriminate H.
Qed.

(** A Markdown page keeps the directory names of its path as they are: the
    permalink of [pages/Docs/x.md] has a capital letter. *)
Lemma markdown_page_keeps_directory_names :
  permalink <$> pages (Sample.processContent ["/site/pages/Docs/x.md"]).1
  = ["/Docs/x/"]
  ∧ permalinkPattern "/Docs/x/" = false.
Proof. split; by vm_compute. Qed.

(** C2, on the code: both [pages] components of [pages/pages/foo.md] are
    removed, so that the page gets the permalink and the output path of
    [pages/foo.md]. *)
Theorem C2_pages_name_removed_at_every_depth :
  dirSegmentsOf "pages/pages/foo.md" = ["pages"; "pages"]
  ∧ permalinkSegments Sample.config "pages/pages/foo.md" page "foo" = ["foo"]
  ∧ Sample.generatePermalink "pages/pages/foo.md" ∅ page = Ok "/foo/"
  ∧ permalink <$>
      pages (Sample.processContent
               ["/site/pages/pages/foo.md"; "/site/pages/foo.md"]).1
    = ["/foo/"; "/foo/"]
  ∧ outputPath <$>
      pages (Sample.processContent
               ["/site/pages/pages/foo.md"; "/site/pages/foo.md"]).1
    = ["/site/output/foo/index.html"; "/site/output/foo/index.html"].
Proof. repeat split; by vm_compute. Qed.

(** C3, the claim as stated: the pages of [pages/B/x.md] and [pages/a/x.md]
    come out as [/a/x/] then [/B/x/], the order of the collation, while
    byte-wise [/B/x/] is the smaller. *)
Lemma C3_pages_not_bytewise_counterexample :
  permalink <$>
    pages (Sample.processContent ["/site/pages/B/x.md"; "/site/pages/a/x.md"]).1
  = ["/a/x/"; "/B/x/"]
  ∧ ¬ Sorted bytewiseLe
        (permalink <$>
           pages (Sample.processContent
                    ["/site/pages/B/x.md"; "/site/pages/a/x.md"]).1).
Proof.
  assert (Heval : permalink <$>
            pages (Sample.processContent
                     ["/site/pages/B/x.md"; "/site/pages/a/x.md"]).1
          = ["/a/x/"; "/B/x/"]) by (by vm_compute).
  split; [done|]. rewrite Heval. intros H.
  apply Sorted_inv in H as [_ H]. apply HdRel_inv in H. by apply H.
Qed.

(** C6, on the code: the root-level file [postscript.md] is not under the
    posts root, and its directory is the source root; it is classified as a
    post, because its path begins with the text of the posts root, and ends
    up in the posts. *)
Theorem C6_root_file_with_the_prefix_of_posts :
  isUnder (Config.posts (Config.paths Sample.config)) "/site/postscript.md"
  = false
  ∧ Path.dirname "/site/postscript.md"
    = Config.source (Config.paths Sample.config)
  ∧ classifyAsSpecified Sample.config "/site/postscript.md" = Some root_page
  ∧ classify Sample.config "/site/postscript.md" = Some (found post)
  ∧ permalink <$> posts (Sample.processContent ["/site/postscript.md"]).1
    = ["/blog/postscript/"]
  ∧ pages (Sample.processContent ["/site/postscript.md"]).1 = [].
Proof. repeat split; by vm_compute. Qed.

(** C7, the claim as stated: the front matter of [pages/numbered.md] has
    the slug [404], a number; the slug is set, [slugify] throws on it, and
    the file ends as an error line and no item. *)
Lemma C7_numeric_slug_counterexample :
  truthy (prop {[ "slug" := JsNumber 404 ]} "slug") = true
  ∧ Sample.permalinkSlug "pages/numbered.md" {[ "slug" := JsNumber 404 ]} page
    = Throw "slugify: string argument expected"
  ∧ (¬ ∃ p, Sample.generatePermalink "pages/numbered.md"
              {[ "slug" := JsNumber 404 ]} page = Ok p)
  ∧ Sample.processContent ["/site/pages/numbered.md"]
    = (emptyContent,
       [Console log "Starting content processing...";
        Console log "Found 1 potential content files.";
        Console error
          "[Error] Failed to process file pages/numbered.md: slugify: string argument expected";
        Console log "Processed: 0 posts, 0 pages, 0 drafts."]).
Proof.
  split; [done|]. split; [by vm_compute|]. split; [|by vm_compute].
  intros [p Hp]. vm_compute in Hp. discriminate Hp.
Qed.

(** A page directory that begins with a backslash is read by the URL
    parser as a host: [generatePermalink] throws when the host is refused,
    as a host with a space is, and the file ends as an error line. *)
Lemma backslash_directory_names_a_host :
  Sample.generatePermalink (String "\" "a b/y.md") ∅ page
  = Throw "Invalid URL"
  ∧ Sample.generatePermalink (String "\" "docs/y.md") ∅ page = Ok "/y/".
Proof. split; by vm_compute. Qed.

(** * The output path *)

Lemma plainComponent_inv c :
  plainComponent c = true →
  c ≠ "" ∧ c ≠ "." ∧ c ≠ ".." ∧ Js.all (λ a, negb (Ascii.eqb a "/")) c = true.
Proof.
  unfold plainComponent. rewrite !andb_true_iff, !bool_decide_eq_true.
  intros [[[Hne Hall] ?] ?]. repeat split; try done. by intros ->.
Qed.

Lemma split_sep_app sep a b :
  Js.split sep (a +:+ String sep b) = Js.split sep a ++ Js.split sep b.
Proof.
  induction a as [|c a IH]; simpl.
  - by rewrite Ascii.eqb_refl.
  - rewrite IH. destruct (Ascii.eqb c sep); [done|].
    pose proof (split_not_nil sep a). by destruct (Js.split sep a).
Qed.

Lemma split_no_sep sep c :
  Js.all (λ a, negb (Ascii.eqb a sep)) c = true → Js.split sep c = [c].
Proof.
  induction c as [|a c IH]; simpl; [done|].
  rewrite andb_true_iff, negb_true_iff. intros [-> Hc]. by rewrite IH.
Qed.

Lemma split_closeSegments segs rest :
  Forall (λ c, plainComponent c = true) segs →
  Js.split "/" (closeSegments segs +:+ rest) = segs ++ Js.split "/" rest.
Proof.
  induction 1 as [|seg segs Hseg _ IH]; [done|].
  change (closeSegments (seg :: segs) +:+ rest)
    with ((seg +:+ String "/" (closeSegments segs)) +:+ rest).
  rewrite app_assoc'.
  change (String "/" (closeSegments segs) +:+ rest)
    with (String "/" (closeSegments segs +:+ rest)).
  rewrite split_sep_app, IH.
  apply plainComponent_inv in Hseg as (_&_&_&Hseg).
  by rewrite (split_no_sep "/" seg Hseg).
Qed.

Lemma filter_empty_head (l : list string) :
  filter (λ c, c ≠ "") ("" :: l) = filter (λ c, c ≠ "") l.
Proof. apply filter_cons_False. by intros []. Qed.

Lemma normalizeParts_plain above acc parts :
  Forall (λ c, c = "" ∨ plainComponent c = true) parts →
  Path.normalizeParts above acc parts
  = reverse acc ++ filter (λ c, c ≠ "") parts.
Proof.
  intros Hparts. revert acc.
  induction Hparts as [|p parts Hp _ IH]; intros acc; simpl.
  - by rewrite app_nil_r.
  - destruct Hp as [->|Hp].
    + rewrite decide_True by done. by rewrite IH, filter_empty_head.
    + apply plainComponent_inv in Hp as (?&?&?&_).
      rewrite !decide_False by done. rewrite IH, reverse_cons, <- app_assoc.
      by rewrite filter_cons_True by done.
Qed.

Lemma join_closeSegments l : l ≠ [] → Js.join "/" l +:+ "/" = closeSegments l.
Proof.
  destruct l as [|x l _] using rev_ind; [done|]. intros _.
  rewrite join_snoc, closeSegments_app. simpl. by rewrite app_assoc'.
Qed.

Lemma plain_not_absolute c rest :
  plainComponent c = true → Path.isAbsolute (c +:+ rest) = false.
Proof.
  intros (Hne&_&_&Hall)%plainComponent_inv.
  destruct c as [|a c]; [done|]. simpl in *.
  apply andb_true_iff in Hall as [Ha _]. unfold Path.isAbsolute. simpl.
  apply negb_true_iff in Ha. by rewrite Ha.
Qed.

Lemma closeSegments_head segs last :
  Forall (λ c, plainComponent c = true) segs → plainComponent last = true →
  ∃ c rest, plainComponent c = true ∧ closeSegments segs +:+ last = c +:+ rest.
Proof.
  intros [|seg segs' Hseg _] Hlast.
  - exists last, "". by rewrite app_empty_r.
  - exists seg, (String "/" (closeSegments segs') +:+ last).
    split; [done|]. simpl. by rewrite app_assoc'.
Qed.

Lemma filter_plain l :
  Forall (λ c, plainComponent c = true) l → filter (λ c, c ≠ "") l = l.
Proof.
  induction 1 as [|c l Hc _ IH]; [done|].
  apply plainComponent_inv in Hc as (?&_).
  by rewrite filter_cons_True, IH.
Qed.

(** [path.resolve] of a normal absolute root and a normal relative path
    appends the one to the other. *)
Lemma resolve_under_root cwd outSegs relSegs last :
  outSegs ≠ [] →
  Forall (λ c, plainComponent c = true) outSegs →
  Forall (λ c, plainComponent c = true) relSegs →
  plainComponent last = true →
  Path.resolve cwd ["/" +:+ Js.join "/" outSegs; closeSegments relSegs +:+ last]
  = ("/" +:+ Js.join "/" outSegs +:+ "/") +:+ closeSegments relSegs +:+ last.
Proof.
  intros Hne Hout Hrel Hlast. unfold Path.resolve.
  change (reverse ["/" +:+ Js.join "/" outSegs; closeSegments relSegs +:+ last])
    with [closeSegments relSegs +:+ last; "/" +:+ Js.join "/" outSegs].
  destruct (closeSegments_head relSegs last Hrel Hlast) as (c&rest&Hc&Heq).
  assert (Hnabs : Path.isAbsolute (closeSegments relSegs +:+ last) = false).
  { rewrite Heq. by apply plain_not_absolute. }
  assert (Hnempty : closeSegments relSegs +:+ last ≠ "").
  { rewrite Heq. apply plainComponent_inv in Hc as (?&_). by destruct c. }
  cbn [Path.resolveFrom]. rewrite decide_False by done. rewrite Hnabs.
  rewrite decide_False by done.
  change (Path.isAbsolute ("/" +:+ Js.join "/" outSegs)) with true.
  cbn [negb]. unfold Path.normalizeString.
  assert (Hp : ("/" +:+ Js.join "/" outSegs) +:+ "/"
               +:+ (closeSegments relSegs +:+ last) +:+ "/" +:+ ""
             = String "/"
                 (closeSegments (outSegs ++ relSegs ++ [last]) +:+ "")).
  { rewrite !closeSegments_app, <- (join_closeSegments outSegs Hne). simpl.
    by rewrite !app_assoc', !app_empty_r. }
  rewrite Hp. clear Hp.
  assert (Hall : Forall (λ c, plainComponent c = true)
                   (outSegs ++ relSegs ++ [last])).
  { rewrite !Forall_app. repeat split; try done. by constructor. }
  cbn [Js.split]. rewrite Ascii.eqb_refl, split_closeSegments by done.
  rewrite normalizeParts_plain.
  2:{ constructor; [by left|]. apply Forall_app. split.
      - eapply Forall_impl; [exact Hall|]. by right.
      - constructor; [by left|constructor]. }
  change (Js.split "/" "") with [""].
  rewrite filter_empty_head, filter_app, filter_plain by done.
  rewrite filter_empty_head, filter_nil, app_nil_r.
  change (reverse [] ++ ?l) with l.
  rewrite app_assoc, join_snoc, closeSegments_app.
  rewrite <- (join_closeSegments outSegs Hne). simpl.
  by rewrite !app_assoc'.
Qed.

Lemma breakSlash_plain a :
  Js.all (λ c, negb (Ascii.eqb c "/")) a = true →
  Path.breakSlash a = (a, None)
  ∧ ∀ b, Path.breakSlash (a +:+ String "/" b) = (a, Some b).
Proof.
  induction a as [|c a IH]; simpl; [done|].
  rewrite andb_true_iff, negb_true_iff. intros [Hc Ha].
  unfold Path.sep. rewrite Hc. destruct (IH Ha) as [-> IH'].
  split; [done|]. intros b. by rewrite IH'.
Qed.

Lemma scanBack_file X file :
  plainComponent file = true →
  X = "" ∨ (∃ X', X = X' +:+ "/") →
  (Path.scanBack (X +:+ file)).1 = file.
Proof.
  intros (Hne&_&_&Hall)%plainComponent_inv HX.
  unfold Path.scanBack. rewrite rev_append.
  assert (Hrev : Js.all (λ c, negb (Ascii.eqb c "/")) (String.rev file) = true)
    by by rewrite all_rev.
  assert (Hdrop : ∀ r, Path.dropSlashes (String.rev file +:+ r)
                       = String.rev file +:+ r).
  { intros r. destruct (String.rev file) as [|c f] eqn:Hf.
    - apply (f_equal String.rev) in Hf. by rewrite rev_involutive in Hf.
    - simpl in *. apply andb_true_iff in Hrev as [Hc _].
      apply negb_true_iff in Hc. unfold Path.sep. by rewrite Hc. }
  rewrite Hdrop. destruct (breakSlash_plain _ Hrev) as [Hnone Hsome].
  destruct HX as [->|[X' ->]].
  - change (String.rev "") with "". rewrite app_empty_r, Hnone. simpl.
    apply rev_involutive.
  - rewrite rev_append. change (String.rev "/") with "/".
    change ("/" +:+ String.rev X') with (String "/" (String.rev X')).
    rewrite Hsome. simpl. apply rev_involutive.
Qed.

Lemma extname_file X file :
  plainComponent file = true →
  X = "" ∨ (∃ X', X = X' +:+ "/") →
  Path.extname (X +:+ file) = Path.extname file.
Proof.
  intros Hfile HX. unfold Path.extname.
  rewrite (scanBack_file X file Hfile HX).
  pose proof (scanBack_file "" file Hfile (or_introl eq_refl)) as Hself.
  change ("" +:+ file) with file in Hself. by rewrite Hself.
Qed.

Lemma rooted_segments_slash segs :
  ∃ X, "/" +:+ closeSegments segs = X +:+ "/".
Proof.
  destruct segs as [|seg segs _] using rev_ind; [by exists ""|].
  exists ("/" +:+ closeSegments segs +:+ seg).
  rewrite closeSegments_app. simpl. by rewrite !app_assoc'.
Qed.

Lemma plain_with_html file :
  plainComponent file = true → plainComponent (file +:+ ".html") = true.
Proof.
  intros (Hne&_&_&Hall)%plainComponent_inv. unfold plainComponent.
  rewrite all_append, Hall. simpl.
  rewrite !bool_decide_eq_true_2; [by destruct file| |].
  - destruct file as [|a [|b [|c f]]]; done.
  - destruct file as [|a [|b [|c f]]]; done.
Qed.

Lemma plain_not_endsWith_slash X file :
  plainComponent file = true → Js.endsWith (X +:+ file) "/" = false.
Proof.
  intros (Hne&_&_&Hall)%plainComponent_inv.
  destruct (string_snoc file Hne) as (f&c&->).
  rewrite all_append in Hall. apply andb_true_iff in Hall as [_ Hc].
  simpl in Hc. rewrite andb_true_r in Hc. apply negb_true_iff in Hc.
  rewrite <- app_assoc', endsWith_snoc.
  apply bool_decide_eq_false. intros ->. by rewrite Ascii.eqb_refl in Hc.
Qed.

Section OutputPath.
Variable config : Config.SiteConfig.
Variable cwd : string.

Abbreviation outputRoot := (Config.output (Config.paths config)).
Abbreviation outputPathOf := (generateOutputPath config cwd).

(** C8. The output path is computed from the permalink (and the output
    root) only: [index.html] is appended to a permalink that ends with a
    slash, [.html] to one that does not and has no extension, nothing to
    one that has an extension; one leading slash is removed and the rest
    is resolved against the output root.  For an output root
    [/o1/.../on] and a permalink of plain segments this is the root
    followed by the permalink and the appended text. *)
Theorem C8_output_path :
  (∀ permalink,
     Js.endsWith permalink "/" = true →
     outputPathOf permalink
     = Path.resolve cwd
         [outputRoot; withoutLeadingSlash (permalink +:+ "index.html")])
  ∧ (∀ permalink,
       Js.endsWith permalink "/" = false → Path.extname permalink ≠ "" →
       outputPathOf permalink
       = Path.resolve cwd [outputRoot; withoutLeadingSlash permalink])
  ∧ (∀ permalink,
       Js.endsWith permalink "/" = false → Path.extname permalink = "" →
       outputPathOf permalink
       = Path.resolve cwd
           [outputRoot; withoutLeadingSlash (permalink +:+ ".html")])
  ∧ (∀ outSegs segs,
       outputRoot = "/" +:+ Js.join "/" outSegs → outSegs ≠ [] →
       Forall (λ c, plainComponent c = true) outSegs →
       Forall (λ c, plainComponent c = true) segs →
       outputPathOf ("/" +:+ closeSegments segs)
       = outputRoot +:+ ("/" +:+ closeSegments segs) +:+ "index.html")
  ∧ (∀ outSegs segs file,
       outputRoot = "/" +:+ Js.join "/" outSegs → outSegs ≠ [] →
       Forall (λ c, plainComponent c = true) outSegs →
       Forall (λ c, plainComponent c = true) segs →
       plainComponent file = true →
       outputPathOf ("/" +:+ closeSegments segs +:+ file)
       = outputRoot +:+ ("/" +:+ closeSegments segs +:+ file)
         +:+ (if decide (Path.extname file = "") then ".html" else "")).
Proof.
  assert (Hcase1 : ∀ permalink,
     Js.endsWith permalink "/" = true →
     outputPathOf permalink
     = Path.resolve cwd
         [outputRoot; withoutLeadingSlash (permalink +:+ "index.html")]).
  { intros permalink Hend. unfold generateOutputPath. by rewrite Hend. }
  assert (Hcase2 : ∀ permalink,
       Js.endsWith permalink "/" = false → Path.extname permalink ≠ "" →
       outputPathOf permalink
       = Path.resolve cwd [outputRoot; withoutLeadingSlash permalink]).
  { intros permalink Hend Hext. unfold generateOutputPath. rewrite Hend.
    by destruct (Path.extname permalink). }
  assert (Hcase3 : ∀ permalink,
       Js.endsWith permalink "/" = false → Path.extname permalink = "" →
       outputPathOf permalink
       = Path.resolve cwd
           [outputRoot; withoutLeadingSlash (permalink +:+ ".html")]).
  { intros permalink Hend Hext. unfold generateOutputPath.
    by rewrite Hend, Hext. }
  do 3 (split; [done|]). split.
  - intros outSegs segs Hroot Hne Hout Hsegs.
    destruct (rooted_segments_slash segs) as [X HX].
    rewrite Hcase1 by (by rewrite HX, endsWith_snoc).
    rewrite Hroot.
    change (withoutLeadingSlash (("/" +:+ closeSegments segs) +:+ "index.html"))
      with (closeSegments segs +:+ "index.html").
    rewrite resolve_under_root by done.
    simpl. by rewrite !app_assoc'.
  - intros outSegs segs file Hroot Hne Hout Hsegs Hfile.
    change ("/" +:+ closeSegments segs +:+ file)
      with (("/" +:+ closeSegments segs) +:+ file).
    assert (Hext : Path.extname (("/" +:+ closeSegments segs) +:+ file)
                   = Path.extname file).
    { apply extname_file; [done|]. right. apply rooted_segments_slash. }
    pose proof (plain_not_endsWith_slash ("/" +:+ closeSegments segs) file
                  Hfile) as Hend.
    destruct (decide (Path.extname file = "")) as [Hnone|Hsome].
    + rewrite Hcase3 by congruence. rewrite Hroot.
      change (withoutLeadingSlash
                ((("/" +:+ closeSegments segs) +:+ file) +:+ ".html"))
        with ((closeSegments segs +:+ file) +:+ ".html").
      rewrite app_assoc'.
      rewrite resolve_under_root by auto using plain_with_html.
      simpl. by rewrite !app_assoc'.
    + rewrite Hcase2 by congruence. rewrite Hroot.
      change (withoutLeadingSlash (("/" +:+ closeSegments segs) +:+ file))
        with (closeSegments segs +:+ file).
      rewrite resolve_under_root by done.
      simpl. by rewrite !app_assoc', app_empty_r.
Qed.

End OutputPath.

(** * The results at the sample site *)

(** C3 at the sample, under the collation [Intl.localeCompare]. *)
Lemma C3_collections_sorted_witness :
  StronglySorted
    (λ a b, ∃ ta tb, date a = Some ta ∧ date b = Some tb ∧ (tb <= ta)%Z)
    (posts (Sample.processContent Sample.files).1)
  ∧ StronglySorted
      (λ a b, (Intl.localeCompare (permalink a) (permalink b) <= 0)%Z)
      (pages (Sample.processContent Sample.files).1)
  ∧ StronglySorted
      (λ a b, (Intl.localeCompare (permalink a) (permalink b) <= 0)%Z)
      (drafts (Sample.processContent Sample.files).1).
Proof.
  destruct (C3_collections_sorted Sample.config Sample.cwd
              Sample.parseMarkdownFile Sample.readFile Intl.localeCompare Sample.transliterate
              Sample.validAuthority
              Sample.files localeCompare_total localeCompare_trans)
    as (Hposts&_&_&Hpages&Hdrafts&_).
  by repeat split.
Defined.

(** C4 at the sample: [posts/undated.md] has a title and no date. *)
Lemma C4_post_without_valid_date_witness :
  Sample.processItem "/site/posts/undated.md" post
  = (None,
     [Console warn
        "[Warning] Skipping post due to missing or invalid date: posts/undated.md"])
  ∧ ∀ l1 l2,
      (Sample.processContent (l1 ++ "/site/posts/undated.md" :: l2)).1
      = (Sample.processContent (l1 ++ l2)).1.
Proof.
  destruct (C4_post_without_valid_date_is_dropped Sample.config Sample.cwd
              Sample.parseMarkdownFile Sample.readFile Intl.localeCompare Sample.transliterate
              Sample.validAuthority
              "/site/posts/undated.md"
              (Sample.document {[ "title" := JsString "No date" ]}))
    as (_&Hskip&_&Hwarn).
  - by vm_compute.
  - by vm_compute.
  - by vm_compute.
  - intros [t Ht]. vm_compute in Ht. discriminate Ht.
  - split; [|exact Hskip].
    rewrite Hwarn; [by vm_compute| |by vm_compute].
    vm_compute. discriminate.
Defined.

(** C5 at the sample: the page [hidden.md] and the draft [wip.md] both have
    [published: false]; the page is skipped, the draft is built. *)
Lemma C5_publish_filter_witness :
  Sample.processItem "/site/pages/hidden.md" page
  = (None, [Console log "Skipping unpublished item: pages/hidden.md"])
  ∧ ∃ item,
      Sample.processItem "/site/drafts/wip.md" draft = (Some item, [])
      ∧ prop (frontMatter item) "published" = JsBool false
      ∧ item ∈ drafts (Sample.processContent Sample.files).1.
Proof.
  destruct (C5_publish_filter Sample.config Sample.cwd
              Sample.parseMarkdownFile Sample.readFile Intl.localeCompare Sample.transliterate
              Sample.validAuthority)
    as [Hskip Hdraft].
  split.
  - destruct (Hskip "/site/pages/hidden.md" (found page)
                (Sample.document {[ "published" := JsBool false ]}))
      as (Hitem&_); [by vm_compute..|].
    cbn [processedAs] in Hitem. rewrite Hitem.
    by vm_compute.
  - destruct (Hdraft "/site/drafts/wip.md"
                (Sample.document {[ "published" := JsBool false ]}))
      as (item&Hitem&_&_&Hfm&Hin); [by vm_compute..|].
    exists item. split; [exact Hitem|]. split; [by rewrite Hfm|].
    apply (Hin (take 10 Sample.files) (drop 11 Sample.files)).
Defined.

(** C7 at the sample: a slug that is set, a post and a draft named with a
    date, and a post named without one. *)
Lemma C7_slug_derivation_witness :
  Sample.permalinkSlug "pages/custom.md"
    {[ "slug" := JsString "My Custom Slug" ]} page
  = Ok "my-custom-slug"
  ∧ Sample.permalinkSlug "posts/2024-01-15-hello-world.md" ∅ post
    = Ok "hello-world"
  ∧ Sample.permalinkSlug "drafts/2024-01-15-hello-world.md" ∅ draft
    = Ok "2024-01-15-hello-world"
  ∧ stripDatePrefix "2024-1-15-hello" = "2024-1-15-hello".
Proof.
  destruct (C7_slug_derivation Sample.config Sample.cwd
              Sample.parseMarkdownFile Sample.readFile Sample.transliterate
              Sample.validAuthority)
    as (Hset&Hunset&_&_&Hkept&_).
  split; [|split; [|split]].
  - rewrite (Hset _ _ _ "My Custom Slug"); by vm_compute.
  - destruct (Hunset "posts/2024-01-15-hello-world.md" ∅) as (->&_);
      by vm_compute.
  - destruct (Hunset "drafts/2024-01-15-hello-world.md" ∅) as (_&_&->);
      by vm_compute.
  - apply Hkept. intros p rest Heq.
    destruct (isDatePrefix p) eqn:Hp; [|done].
    unfold isDatePrefix in Hp.
    do 11 (destruct p as [|? p]; [done|]). destruct p; [|done].
    cbn [String.list_ascii_of_string] in Hp.
    injection Heq as <- <- <- <- <- <- <- <- <- <- <- _.
    by vm_compute in Hp.
Defined.

(** C8 at the sample: a directory permalink, one without extension and one
    with an extension, under the output root [/site/output]. *)
Lemma C8_output_path_witness :
  generateOutputPath Sample.config Sample.cwd "/blog/hello-world/"
  = "/site/output/blog/hello-world/index.html"
  ∧ generateOutputPath Sample.config Sample.cwd "/about"
    = "/site/output/about.html"
  ∧ generateOutputPath Sample.config Sample.cwd "/feed.xml"
    = "/site/output/feed.xml".
Proof.
  destruct (C8_output_path Sample.config Sample.cwd) as (_&_&_&Hdir&Hfile).
  split; [|split].
  - refine (Hdir ["site"; "output"] ["blog"; "hello-world"] _ _ _ _);
      first [done | by repeat constructor].
  - refine (Hfile ["site"; "output"] [] "about" _ _ _ _ _);
      first [done | by repeat constructor].
  - refine (Hfile ["site"; "output"] [] "feed.xml" _ _ _ _ _);
      first [done | by repeat constructor].
Defined.

(** C10 at the sample: the posts of the run, and the file [posts/old.html]. *)
Lemma C10_posts_are_markdown_witness :
  Forall (λ item, fileType item = markdown)
         (posts (Sample.processContent Sample.files).1)
  ∧ (Sample.processItem "/site/posts/old.html" post).1 = None.
Proof.
  destruct (C10_posts_are_markdown Sample.config Sample.cwd
              Sample.parseMarkdownFile Sample.readFile Intl.localeCompare Sample.transliterate
              Sample.validAuthority)
    as [Hposts Hhtml].
  split.
  - apply Forall_forall. intros item. apply Hposts.
  - destruct (Hhtml "/site/posts/old.html") as (Hnone&_); [by vm_compute..|].
    exact Hnone.
Defined.

(** * Further properties of the processor

    What the loop of [processContent] and its helpers guarantee beyond the
    statements above. *)

Lemma endsWith_snoc_same s c : Js.endsWith (s +:+ String c "") (String c "") = true.
Proof. rewrite endsWith_snoc. by apply bool_decide_eq_true. Qed.


Lemma slugSegment_plain seg :
  isSlugSegment seg = true → plainComponent seg = true.
Proof.
  unfold isSlugSegment, plainComponent. intros [Hne Hall]%andb_true_iff.
  rewrite Hne. simpl.
  assert (Js.all (λ a, negb (Ascii.eqb a "/")) seg = true) as ->.
  { eapply all_impl; [|exact Hall]. intros c Hc.
    destruct (slugChar_not_special c Hc) as (H1&_).
    by apply negb_true_iff, Ascii.eqb_neq. }
  simpl. destruct seg as [|c seg]; [done|].
  simpl in Hall. apply andb_true_iff in Hall as [Hc _].
  destruct (slugChar_not_special c Hc) as (_&Hdot&_).
  rewrite !bool_decide_eq_true_2; [done| |]; intros [= ->]; done.
Qed.

Lemma withTrailingSlash_closed itemPath slug p :
  Js.endsWith p "/" = true → withTrailingSlash itemPath slug p = p.
Proof.
  intros H. unfold withTrailingSlash. rewrite H. simpl.
  rewrite andb_false_r. simpl. by destruct (_ && _).
Qed.

Lemma withTrailingSlash_open itemPath slug p :
  Js.endsWith p "/" = false → p ≠ "/" →
  withTrailingSlash itemPath slug p
  = if directoryLike itemPath slug then p +:+ "/" else p.
Proof.
  intros H Hne. unfold withTrailingSlash, directoryLike.
  rewrite H, (bool_decide_eq_true_2 _ Hne). simpl.
  destruct (bool_decide (slug = "index")) eqn:E1; simpl; [done|].
  destruct (bool_decide (Js.toLowerCase (Path.extname itemPath) = ".md"));
    simpl; [done|].
  destruct (bool_decide (Path.extname itemPath = "")); simpl; [|done].
  rewrite bool_decide_eq_true_2; [done|]. by apply bool_decide_eq_false in E1.
Qed.

Lemma rooted_ends_with_slash segs :
  Js.endsWith ("/" +:+ closeSegments segs) "/" = true.
Proof.
  destruct (rooted_segments_slash segs) as [X ->]. apply endsWith_snoc_same.
Qed.

Lemma rooted_file_open segs file :
  plainComponent file = true →
  Js.endsWith ("/" +:+ closeSegments segs +:+ file) "/" = false
  ∧ "/" +:+ closeSegments segs +:+ file ≠ "/".
Proof.
  intros Hfile. split.
  - apply (plain_not_endsWith_slash ("/" +:+ closeSegments segs) file Hfile).
  - intros Heq.
    pose proof (plain_not_endsWith_slash ("/" +:+ closeSegments segs) file Hfile)
      as Hend.
    change (("/" +:+ closeSegments segs) +:+ file)
      with ("/" +:+ closeSegments segs +:+ file) in Hend.
    by rewrite Heq in Hend.
Qed.

Lemma breakDot_none s :
  Js.all (λ c, negb (Ascii.eqb c ".")) s = true → Path.breakDot s = (s, None).
Proof.
  induction s as [|c s IH]; simpl; [done|].
  intros [Hc Hs]%andb_true_iff. apply negb_true_iff in Hc. rewrite Hc.
  by rewrite IH.
Qed.

Lemma extname_slug slug :
  isSlugSegment slug = true → Path.extname slug = "".
Proof.
  intros Hseg. pose proof (slugSegment_plain slug Hseg) as Hplain.
  unfold Path.extname.
  pose proof (scanBack_file "" slug Hplain (or_introl eq_refl)) as Hscan.
  simpl in Hscan. rewrite Hscan. unfold Path.splitExt.
  rewrite breakDot_none; [done|].
  rewrite all_rev. apply andb_true_iff in Hseg as [_ Hall].
  eapply all_impl; [|exact Hall]. intros c Hc.
  destruct (slugChar_not_special c Hc) as (_&Hdot&_).
  by apply negb_true_iff, Ascii.eqb_neq.
Qed.

Lemma outputPath_directory config cwd outSegs segs :
  Config.output (Config.paths config) = "/" +:+ Js.join "/" outSegs →
  outSegs ≠ [] →
  Forall (λ c, plainComponent c = true) outSegs →
  Forall (λ c, plainComponent c = true) segs →
  generateOutputPath config cwd ("/" +:+ closeSegments segs)
  = Config.output (Config.paths config) +:+ ("/" +:+ closeSegments segs)
    +:+ "index.html".
Proof.
  intros Hroot Hne Hout Hsegs. unfold generateOutputPath.
  rewrite rooted_ends_with_slash, Hroot.
  change (Js.startsWith (("/" +:+ closeSegments segs) +:+ "index.html") "/")
    with true. cbn match.
  change (Js.substring1 (("/" +:+ closeSegments segs) +:+ "index.html"))
    with (closeSegments segs +:+ "index.html").
  rewrite resolve_under_root by done.
  simpl. by rewrite !app_assoc'.
Qed.

Lemma outputPath_file config cwd outSegs segs file :
  Config.output (Config.paths config) = "/" +:+ Js.join "/" outSegs →
  outSegs ≠ [] →
  Forall (λ c, plainComponent c = true) outSegs →
  Forall (λ c, plainComponent c = true) segs →
  plainComponent file = true → Path.extname file = "" →
  generateOutputPath config cwd ("/" +:+ closeSegments segs +:+ file)
  = Config.output (Config.paths config)
    +:+ ("/" +:+ closeSegments segs +:+ file) +:+ ".html".
Proof.
  intros Hroot Hne Hout Hsegs Hfile Hnone. unfold generateOutputPath.
  destruct (rooted_file_open segs file Hfile) as [Hend _]. rewrite Hend.
  change ("/" +:+ closeSegments segs +:+ file)
    with (("/" +:+ closeSegments segs) +:+ file).
  rewrite extname_file, Hnone; [|done|right; apply rooted_segments_slash].
  cbn [Js.nonEmpty negb]. rewrite Hroot.
  change (Js.startsWith ((("/" +:+ closeSegments segs) +:+ file) +:+ ".html") "/")
    with true. cbn match.
  change (Js.substring1 ((("/" +:+ closeSegments segs) +:+ file) +:+ ".html"))
    with ((closeSegments segs +:+ file) +:+ ".html").
  rewrite app_assoc'.
  rewrite resolve_under_root by auto using plain_with_html.
  simpl. by rewrite !app_assoc'.
Qed.

Section Coverage.
Variable config : Config.SiteConfig.
Variable cwd : string.
Variable parseMarkdownFile : string → Result Markdown.ParsedMarkdown.
Variable readFile : string → Result string.
Variable localeCompare : string → string → Z.
Variable transliterate : string → string.
Variable validAuthority : string → bool.

Abbreviation relativeTo filePath :=
  (Path.relative cwd (Config.source (Config.paths config)) filePath).
Abbreviation item_of := (processItem config cwd parseMarkdownFile readFile transliterate validAuthority).
Abbreviation post_of := (postOf config cwd parseMarkdownFile readFile transliterate validAuthority).
Abbreviation page_of := (pageOf config cwd parseMarkdownFile readFile transliterate validAuthority).
Abbreviation draft_of := (draftOf config cwd parseMarkdownFile readFile transliterate validAuthority).
Abbreviation run :=
  (processContent config cwd parseMarkdownFile readFile localeCompare transliterate validAuthority).

(** Where an item of each collection comes from. *)
Lemma posts_origin files item :
  item ∈ posts (run files).1 →
  ∃ out, sourcePath item ∈ files
         ∧ classify config (sourcePath item) = Some (found post)
         ∧ item_of (sourcePath item) post = (Some item, out).
Proof.
  intros (f&Hin&Hf)%elem_of_posts.
  rewrite (contribution_source config cwd parseMarkdownFile readFile transliterate
             validAuthority f item) by auto.
  apply builtAs_Some in Hf as (?&out&?). eauto.
Qed.

Lemma pages_origin files item :
  item ∈ pages (run files).1 →
  ∃ out, sourcePath item ∈ files
         ∧ (classify config (sourcePath item) = Some (found page)
            ∨ classify config (sourcePath item) = Some root_page)
         ∧ item_of (sourcePath item) page = (Some item, out).
Proof.
  intros (f&Hin&Hf)%elem_of_pages.
  rewrite (contribution_source config cwd parseMarkdownFile readFile transliterate
             validAuthority f item) by auto.
  apply pageOf_Some in Hf as (?&out&?). eauto.
Qed.

Lemma drafts_origin files item :
  item ∈ drafts (run files).1 →
  ∃ out, sourcePath item ∈ files
         ∧ classify config (sourcePath item) = Some (found draft)
         ∧ item_of (sourcePath item) draft = (Some item, out).
Proof.
  intros (f&Hin&Hf)%elem_of_drafts.
  rewrite (contribution_source config cwd parseMarkdownFile readFile transliterate
             validAuthority f item) by auto.
  apply builtAs_Some in Hf as (?&out&?). eauto.
Qed.

Lemma allItems_origin files item :
  item ∈ allItems (run files).1 →
  ∃ itemType out, sourcePath item ∈ files
                  ∧ item_of (sourcePath item) itemType = (Some item, out).
Proof.
  unfold allItems. rewrite !elem_of_app.
  intros [H|[H|H]].
  - apply posts_origin in H as (out&?&_&?). eauto.
  - apply pages_origin in H as (out&?&_&?). eauto.
  - apply drafts_origin in H as (out&?&_&?). eauto.
Qed.

(** X1. An item is in the collection its file was classified for: a post
    comes from a file classified as a post, a page from a file classified
    as a page or as a root page, a draft from a file classified as a draft;
    the items of [drafts] are exactly those flagged [isDraft]. *)
Theorem X1_collection_follows_classification files item :
  (item ∈ posts (run files).1 →
   isDraft item = false
   ∧ classify config (sourcePath item) = Some (found post))
  ∧ (item ∈ pages (run files).1 →
     isDraft item = false
     ∧ (classify config (sourcePath item) = Some (found page)
        ∨ classify config (sourcePath item) = Some root_page))
  ∧ (item ∈ drafts (run files).1 →
     isDraft item = true
     ∧ classify config (sourcePath item) = Some (found draft)).
Proof.
  split; [|split].
  - intros (out&_&Hc&Hitem)%posts_origin.
    by destruct (processItem_built config cwd parseMarkdownFile readFile transliterate validAuthority _ _ _ _ Hitem) as (_&_&_&_&->&_).
  - intros (out&_&Hc&Hitem)%pages_origin.
    by destruct (processItem_built config cwd parseMarkdownFile readFile transliterate validAuthority _ _ _ _ Hitem) as (_&_&_&_&->&_).
  - intros (out&_&Hc&Hitem)%drafts_origin.
    by destruct (processItem_built config cwd parseMarkdownFile readFile transliterate validAuthority _ _ _ _ Hitem) as (_&_&_&_&->&_).
Qed.

(** X2. Every post of the result carries a date, the time value of the
    valid [Date] in its front matter; a page or a draft carries none. *)
Theorem X2_posts_carry_their_date files item :
  (item ∈ posts (run files).1 →
   ∃ t, date item = Some t
        ∧ prop (frontMatter item) "date" = JsDate (Some t))
  ∧ (item ∈ pages (run files).1 ∨ item ∈ drafts (run files).1 →
     date item = None).
Proof.
  split.
  - intros (out&_&_&Hitem)%posts_origin.
    destruct (processItem_built config cwd parseMarkdownFile readFile transliterate validAuthority _ _ _ _ Hitem)
      as (_&_&_&_&_&_&_&_&_&Hdate&Hsome&_).
    destruct (Hsome eq_refl) as [t Ht]. exists t. split; [done|].
    rewrite Ht in Hdate. simpl in Hdate.
    by destruct (prop (frontMatter item) "date") as [| | | | |[]|];
      simplify_eq/=.
  - intros [(out&_&_&Hitem)%pages_origin|(out&_&_&Hitem)%drafts_origin];
      by destruct (processItem_built config cwd parseMarkdownFile readFile transliterate validAuthority _ _ _ _ Hitem)
        as (_&_&_&_&_&_&_&_&_&->&_).
Qed.


Lemma processItem_outcome filePath itemType :
  (∃ item, item_of filePath itemType = (Some item, [])
           ∧ outputHref item = "" ∧ id item = relativePath item)
  ∨ (∃ d, item_of filePath itemType = (None, [d])).
Proof.
  unfold processItem, tryProcessItem.
  destruct (decide (Js.toLowerCase (Path.extname filePath) = ".md")).
  - destruct (parseMarkdownFile filePath); simpl; [|by eauto].
    destruct (bool_decide _ && _); [by eauto|].
    destruct (generatePermalink _ _ _ _); simpl; [|by eauto].
    destruct (decide _); [|by eauto].
    destruct (_ || _ || _); by eauto.
  - destruct (readFile filePath); simpl; [|by eauto].
    destruct (generatePermalink _ _ _ _); simpl; [|by eauto].
    destruct (decide _); by eauto.
Qed.

(** X3. The fields of every item agree with each other: the source path is
    one of the discovered files, [id] and [relativePath] are both the source
    path relative to the source root, the output path is
    [generateOutputPath] of the permalink, [outputHref] is the empty
    placeholder, and the file type is [markdown] exactly when the extension
    of the source path is [.md] in any letter case. *)
Theorem X3_item_fields_agree files :
  Forall
    (λ item,
       sourcePath item ∈ files
       ∧ id item = relativePath item
       ∧ relativePath item = relativeTo (sourcePath item)
       ∧ outputPath item = generateOutputPath config cwd (permalink item)
       ∧ outputHref item = ""
       ∧ (fileType item = markdown
          ↔ Js.toLowerCase (Path.extname (sourcePath item)) = ".md"))
    (allItems (run files).1).
Proof.
  apply Forall_forall. intros item (itemType&out&Hin&Hitem)%allItems_origin.
  destruct (processItem_built config cwd parseMarkdownFile readFile transliterate validAuthority _ _ _ _ Hitem)
    as (_&_&Hid&Hrel&_&Htype&_&Hout&_).
  destruct (processItem_outcome (sourcePath item) itemType)
    as [(item'&Hitem'&Hhref&_)|(d&Hnone)]; [|congruence].
  assert (item' = item) as -> by congruence.
  repeat split; try done; try congruence.
  - rewrite Htype. by destruct (decide _).
  - intros Hext. rewrite Htype. by rewrite decide_True.
Qed.

Lemma contributions_exclusive filePath :
  length (option_list (post_of filePath))
  + length (option_list (page_of filePath))
  + length (option_list (draft_of filePath)) ≤ 1.
Proof.
  unfold postOf, pageOf, draftOf, builtAs.
  destruct (classify config filePath) as [[[]|]|];
    repeat case_decide; simplify_eq; simpl;
    repeat match goal with
           | |- context [(processItem ?a ?b ?c ?d ?e ?v ?f ?t).1] =>
               destruct (processItem a b c d e v f t).1
           end; simpl; lia.
Qed.

Lemma omap_step {A B : Type} (f : A → option B) x l :
  omap f (x :: l) = option_list (f x) ++ omap f l.
Proof. simpl. by destruct (f x). Qed.

Lemma contributions_length files :
  length (omap post_of files) + length (omap page_of files)
  + length (omap draft_of files) ≤ length files.
Proof.
  induction files as [|f files IH]; [done|].
  pose proof (contributions_exclusive f) as Hex.
  rewrite !omap_step, !length_app. simpl. lia.
Qed.

Lemma contribution_paths (pick : string → option ContentItem)
    (files : list string) x :
  (∀ f item, pick f = Some item → sourcePath item = f) →
  x ∈ sourcePath <$> omap pick files → ∃ item, pick x = Some item.
Proof.
  intros Hof (item&->&(f&_&Hf)%list_elem_of_omap)%list_elem_of_fmap.
  rewrite (Hof f item Hf). eauto.
Qed.

(** X4. A discovered file yields at most one item: the three collections
    together have no more items than there are files, and when no file is
    listed twice no two items have the same source path. *)
Theorem X4_one_item_per_file files :
  length (allItems (run files).1) ≤ length files
  ∧ (NoDup files → NoDup (sourcePath <$> allItems (run files).1)).
Proof.
  assert (Hperm : allItems (run files).1
                  ≡ₚ omap post_of files ++ omap page_of files
                     ++ omap draft_of files).
  { unfold allItems. rewrite processContent_sorted. simpl.
    by rewrite !sort_Permutation. }
  split.
  - rewrite Hperm, !length_app. pose proof (contributions_length files). lia.
  - intros Hnodup. rewrite Hperm, !fmap_app.
    assert (Hsrc : ∀ pick,
      (∀ f item, pick f = Some item → sourcePath item = f) →
      NoDup (sourcePath <$> omap pick files)).
    { intros pick Hof. apply (sublist_NoDup _ files); [exact Hnodup|by apply omap_sublist]. }
    assert (Hpost : ∀ f item, post_of f = Some item → sourcePath item = f)
      by (intros; apply (contribution_source config cwd parseMarkdownFile
                           readFile transliterate validAuthority); auto).
    assert (Hpage : ∀ f item, page_of f = Some item → sourcePath item = f)
      by (intros; apply (contribution_source config cwd parseMarkdownFile
                           readFile transliterate validAuthority); auto).
    assert (Hdraft : ∀ f item, draft_of f = Some item → sourcePath item = f)
      by (intros; apply (contribution_source config cwd parseMarkdownFile
                           readFile transliterate validAuthority); auto).
    apply NoDup_app. split; [auto|]. split; [|apply NoDup_app; repeat split; auto].
    + intros x [a Ha]%(contribution_paths _ _ _ Hpost) Hin.
      pose proof (contributions_exclusive x) as Hex. rewrite Ha in Hex.
      apply elem_of_app in Hin
        as [[b Hb]%(contribution_paths _ _ _ Hpage)
           |[b Hb]%(contribution_paths _ _ _ Hdraft)];
        rewrite Hb in Hex; simpl in Hex; [destruct (draft_of x)|destruct (page_of x)];
        simpl in Hex; lia.
    + intros x [a Ha]%(contribution_paths _ _ _ Hpage)
               [b Hb]%(contribution_paths _ _ _ Hdraft).
      pose proof (contributions_exclusive x) as Hex. rewrite Ha, Hb in Hex.
      destruct (post_of x); simpl in Hex; lia.
Qed.


(** X5. A classified file whose reader throws ([parseMarkdownFile] for
    [.md], [fs.readFile] otherwise) is caught by [processItem]: one error
    line with the relative path and the message of the exception, no item;
    the collections are those of the run without the file, and no item of
    any run has it as source. *)
Theorem X5_failed_file_is_skipped filePath itemType message :
  classify config filePath = Some itemType →
  (Js.toLowerCase (Path.extname filePath) = ".md"
   ∧ parseMarkdownFile filePath = Throw message)
  ∨ (Js.toLowerCase (Path.extname filePath) ≠ ".md"
     ∧ readFile filePath = Throw message) →
  item_of filePath (processedAs itemType)
  = (None,
     [Console error
        ("[Error] Failed to process file " +:+ relativeTo filePath +:+ ": "
         +:+ message)])
  ∧ (∀ l1 l2, (run (l1 ++ filePath :: l2)).1 = (run (l1 ++ l2)).1)
  ∧ (∀ files item, item ∈ allItems (run files).1 → sourcePath item ≠ filePath).
Proof.
  intros Hclass Hthrow.
  assert (Hitem : item_of filePath (processedAs itemType)
    = (None,
       [Console error
          ("[Error] Failed to process file " +:+ relativeTo filePath +:+ ": "
           +:+ message)])).
  { unfold processItem, tryProcessItem.
    destruct Hthrow as [[Hext Hparse]|[Hext Hread]].
    - rewrite decide_True by done. by rewrite Hparse.
    - rewrite decide_False by done. by rewrite Hread. }
  split; [done|].
  apply (dropped_absent config cwd parseMarkdownFile readFile localeCompare
           transliterate validAuthority filePath itemType Hclass).
  by rewrite Hitem.
Qed.

Lemma contribution_count filePath :
  length (option_list (post_of filePath))
  + length (option_list (page_of filePath))
  + length (option_list (draft_of filePath))
  + length (fileDiagnostics config cwd parseMarkdownFile readFile transliterate
       validAuthority filePath)
  = 1.
Proof.
  unfold fileDiagnostics, postOf, pageOf, draftOf, builtAs.
  destruct (classify config filePath) as [[t|]|]; simpl.
  - destruct (processItem_outcome filePath t) as [(item&Hitem&_)|(d&Hitem)];
      destruct t; repeat case_decide; simplify_eq; rewrite ?Hitem; done.
  - destruct (processItem_outcome filePath page) as [(item&Hitem&_)|(d&Hitem)];
      repeat case_decide; simplify_eq; rewrite ?Hitem; done.
  - by repeat case_decide.
Qed.

Lemma loop_diagnostics files st :
  (foldl (loopBody config cwd parseMarkdownFile readFile transliterate validAuthority) st files).2
  = st.2 ++ flat_map (fileDiagnostics config cwd parseMarkdownFile readFile transliterate
       validAuthority)
                     files.
Proof.
  revert st. induction files as [|f files IH]; intros st; simpl.
  - by rewrite app_nil_r.
  - rewrite IH. rewrite app_assoc. f_equal.
    unfold loopBody, fileDiagnostics.
    destruct (classify config f); [|done].
    by destruct (processItem _ _ _ _ _ _).
Qed.

(** X6. What [processContent] and [processItem] write to the console in a
    run (the lines of the parser aside): the start line, the line with the
    number of files, what each file wrote, in the order of discovery, and
    the summary line with the sizes of the three collections.  A file writes
    at most one line, and every file is accounted for: the number of items
    plus the number of lines written for files is the number of files. *)
Theorem X6_console_transcript files :
  (run files).2
  = [Console log "Starting content processing...";
     Console log ("Found " +:+ pretty (length files)
                  +:+ " potential content files.")]
    ++ flat_map (fileDiagnostics config cwd parseMarkdownFile readFile transliterate
       validAuthority) files
    ++ [Console log
          ("Processed: " +:+ pretty (length (posts (run files).1))
           +:+ " posts, " +:+ pretty (length (pages (run files).1))
           +:+ " pages, " +:+ pretty (length (drafts (run files).1))
           +:+ " drafts.")]
  ∧ Forall (λ filePath,
       length (fileDiagnostics config cwd parseMarkdownFile readFile transliterate
       validAuthority filePath)
       ≤ 1) files
  ∧ length (allItems (run files).1)
    + length (flat_map (fileDiagnostics config cwd parseMarkdownFile readFile transliterate
       validAuthority)
                files)
    = length files.
Proof.
  split; [|split].
  - unfold processContent.
    pose proof (loop_diagnostics files
      (emptyContent,
       [Console log "Starting content processing...";
        Console log ("Found " +:+ pretty (length files)
                     +:+ " potential content files.")])) as Hd.
    destruct (foldl _ _ files) as [c out]. simpl in *. by rewrite Hd.
  - apply Forall_forall. intros f _.
    pose proof (contribution_count f). lia.
  - assert (Hperm : allItems (run files).1
                    ≡ₚ omap post_of files ++ omap page_of files
                       ++ omap draft_of files).
    { unfold allItems. rewrite processContent_sorted. simpl.
      by rewrite !sort_Permutation. }
    rewrite Hperm, !length_app. clear Hperm.
    induction files as [|f files IH]; [done|].
    pose proof (contribution_count f) as Hf.
    rewrite !omap_step, !length_app. simpl. rewrite length_app. lia.
Qed.


Lemma resolve_absolute root rel :
  Path.isAbsolute root = true →
  Path.isAbsolute (Path.resolve cwd [root; rel]) = true.
Proof.
  intros Habs. unfold Path.resolve.
  assert (Hfrom : ∃ p, Path.resolveFrom cwd (reverse [root; rel]) "" = (p, true)).
  { change (reverse [root; rel]) with [rel; root]. simpl.
    assert (Hroot : ∀ acc, ∃ p, Path.resolveFrom cwd [root] acc = (p, true)).
    { intros acc. simpl. destruct (decide (root = "")) as [->|_]; [done|].
      rewrite Habs. eauto. }
    destruct (decide (rel = "")); [apply Hroot|].
    destruct (Path.isAbsolute rel); [eauto|apply Hroot]. }
  destruct Hfrom as [p ->]. done.
Qed.

Lemma withTrailingSlash_rooted itemPath slug r :
  ∃ r', withTrailingSlash itemPath slug (String "/" r) = String "/" r'.
Proof.
  unfold withTrailingSlash.
  repeat match goal with |- context [if ?b then _ else _] => destruct b end;
    simpl; eauto.
Qed.

Lemma withTrailingSlash_markdown itemPath slug p :
  Js.toLowerCase (Path.extname itemPath) = ".md" →
  Js.endsWith (withTrailingSlash itemPath slug p) "/" = true.
Proof.
  intros Hext. unfold withTrailingSlash.
  rewrite (bool_decide_eq_true_2 _ Hext), orb_true_r, andb_true_r.
  case_bool_decide as Hroot; simpl.
  - destruct (Js.endsWith p "/") eqn:Hend; simpl; [done|].
    change "/" with (String "/" "") at 1. apply endsWith_snoc_same.
  - by subst.
Qed.

(** X7. Every permalink starts with a slash.  When the extension of the
    relative path is [.md] (in any letter case) it also ends with a slash
    and the item is written to [index.html] in the directory of that name
    under the output root.  When the output root is absolute, so is every
    output path. *)
Theorem X7_permalink_rooted files :
  Forall
    (λ item,
       Js.startsWith (permalink item) "/" = true
       ∧ (Js.toLowerCase (Path.extname (relativePath item)) = ".md" →
          Js.endsWith (permalink item) "/" = true
          ∧ outputPath item
            = Path.resolve cwd
                [Config.output (Config.paths config);
                 Js.substring1 (permalink item) +:+ "index.html"])
       ∧ (Path.isAbsolute (Config.output (Config.paths config)) = true →
          Path.isAbsolute (outputPath item) = true))
    (allItems (run files).1).
Proof.
  apply Forall_forall. intros item (itemType&out&Hin&Hitem)%allItems_origin.
  destruct (processItem_built config cwd parseMarkdownFile readFile transliterate validAuthority _ _ _ _ Hitem)
    as (_&_&_&Hrel&_&_&Hperm&Hout&_).
  rewrite <- Hrel in Hperm. rewrite generatePermalink_unfold in Hperm.
  destruct (permalinkSlug _ _ _ _) as [slug|]; [|done].
  destruct (Url.pathname _ _) as [pathname|] eqn:Hpath; [|done].
  apply Ok_inj in Hperm.
  destruct (pathname_rooted _ _ _ Hpath) as [r ->].
  destruct (withTrailingSlash_rooted (relativePath item) slug r) as [r' Hr'].
  pose proof (withTrailingSlash_markdown (relativePath item) slug (String "/" r))
    as Hmd.
  rewrite Hr' in Hperm, Hmd.
  rewrite Hout, <- Hperm. split; [done|]. split.
  - intros Hext. specialize (Hmd Hext). split; [done|].
    unfold generateOutputPath. by rewrite Hmd.
  - apply resolve_absolute.
Qed.

(** X8. [generatePermalink] throws the error of [slugify] exactly when
    the front matter [slug] is truthy and not a string (a number, [true], a
    date, a list); a Markdown file with such a slug, unless it is skipped
    as unpublished before, ends as one error line of [processItem] and no
    item.  With a slug that is falsy or a string it returns for every post
    and every draft, and for every page whose first kept directory, if any,
    opens a path; the only error left is the [Invalid URL] of a page whose
    path names a host that the URL parser refuses. *)
Theorem X8_slug_must_be_a_string itemPath frontMatter itemType :
  (slugUsable frontMatter = true →
   (itemType = page →
    ∀ dir, head (relevantSegmentsOf config itemPath) = Some dir →
           opensPath dir = true) →
   ∃ p, generatePermalink config transliterate validAuthority itemPath
          frontMatter itemType = Ok p)
  ∧ (slugUsable frontMatter = true →
     ∀ message,
       generatePermalink config transliterate validAuthority itemPath
         frontMatter itemType = Throw message →
       message = "Invalid URL" ∧ itemType = page)
  ∧ (slugUsable frontMatter = false →
     generatePermalink config transliterate validAuthority itemPath
       frontMatter itemType
     = Throw "slugify: string argument expected"
     ∧ ∀ filePath parsed,
         Js.toLowerCase (Path.extname filePath) = ".md" →
         parseMarkdownFile filePath = Ok parsed →
         Markdown.frontMatter parsed = frontMatter →
         relativeTo filePath = itemPath →
         (prop frontMatter "published" = JsBool false → itemType = draft) →
         item_of filePath itemType
         = (None,
            [Console error
               ("[Error] Failed to process file " +:+ itemPath
                +:+ ": slugify: string argument expected")])).
Proof.
  split; [apply generatePermalink_returns|]. split.
  - intros Huse message Hthrow. split.
    + rewrite generatePermalink_unfold in Hthrow.
      destruct (permalinkSlug_returns transliterate itemPath frontMatter
                  itemType Huse) as [slug Hslug].
      rewrite Hslug in Hthrow.
      destruct (Url.pathname _ _) as [|m] eqn:Hpath; [done|].
      injection Hthrow as <-. by apply (pathname_throws _ _ _ Hpath).
    + destruct (decide (itemType = page)) as [|Htype]; [done|].
      destruct (generatePermalink_returns_unless_page config transliterate
                  validAuthority itemPath frontMatter itemType Huse Htype)
        as [p Hp].
      congruence.
  - intros Hslug.
    split; [by apply generatePermalink_throws|].
    intros filePath parsed Hext Hparse <- <- Hpub.
    by apply (unusable_slug_fails config cwd parseMarkdownFile readFile
                transliterate validAuthority filePath itemType parsed).
Qed.


Lemma permalinkSegments_lead itemPath itemType slug :
  permalinkSegments config itemPath itemType slug
  = if bool_decide (itemType = page) && bool_decide (slug = "index")
    then leadingSegments config itemPath itemType
    else leadingSegments config itemPath itemType ++ [slug].
Proof.
  destruct itemType; [done| |done].
  rewrite permalinkSegments_page.
  change (leadingSegments config itemPath page)
    with (relevantSegmentsOf config itemPath).
  rewrite (bool_decide_eq_true_2 (page = page)) by done.
  destruct (decide (slug = "index")).
  - by rewrite bool_decide_eq_true_2, app_nil_r.
  - by rewrite bool_decide_eq_false_2.
Qed.

Lemma generatePermalink_closed itemPath frontMatter itemType slug :
  permalinkSlug transliterate itemPath frontMatter itemType = Ok slug →
  Forall (λ seg, isSlugSegment seg = true)
         (leadingSegments config itemPath itemType) →
  generatePermalink config transliterate validAuthority itemPath frontMatter itemType
  = Ok ("/" +:+ closeSegments (leadingSegments config itemPath itemType)
        +:+ slugPart itemPath itemType slug).
Proof.
  intros Hslug Hlead. rewrite generatePermalink_unfold, Hslug.
  pose proof (permalinkSlug_slugChars _ _ _ _ _ Hslug) as Hchars.
  rewrite permalinkSegments_lead. unfold slugPart.
  generalize dependent (leadingSegments config itemPath itemType).
  intros lead Hlead.
  destruct (bool_decide (itemType = page) && bool_decide (slug = "index"))
    eqn:Hidx.
  - apply andb_true_iff in Hidx as [_ ->%bool_decide_eq_true].
    destruct lead as [|seg init _] using rev_ind.
    + change (Js.join "/" []) with "". cbn [Js.startsWith].
      rewrite (pathname_plain validAuthority "") by done.
      by rewrite withTrailingSlash_closed.
    + apply Forall_app in Hlead as [Hinit Hseg%Forall_inv].
      pose proof (slugSegment_plain seg Hseg) as Hplain.
      apply andb_true_iff in Hseg as [_ Hseg].
      rewrite join_snoc, joined_relative by done.
      rewrite pathname_plain.
      2:{ rewrite all_append, closeSegments_pathChars by done.
          eapply all_impl; [apply slugChar_pathChar|done]. }
      2:{ by apply joined_relative. }
      cbv beta iota. f_equal.
      destruct (rooted_file_open init seg Hplain) as [Hend Hne].
      rewrite withTrailingSlash_open by done.
      rewrite closeSegments_app. simpl. by rewrite !app_assoc', ?app_empty_r.
  - rewrite join_snoc, joined_relative by done.
    rewrite pathname_plain.
    2:{ rewrite all_append, closeSegments_pathChars by done.
        eapply all_impl; [apply slugChar_pathChar|done]. }
    2:{ by apply joined_relative. }
    cbv beta iota. f_equal.
    destruct (decide (slug = "")) as [->|Hne].
    + rewrite app_empty_r. apply withTrailingSlash_closed.
      apply rooted_ends_with_slash.
    + assert (Hplain : plainComponent slug = true).
      { apply slugSegment_plain. unfold isSlugSegment.
        rewrite Hchars, andb_true_r. by destruct slug. }
      destruct (rooted_file_open lead slug Hplain) as [Hend Hne'].
      rewrite withTrailingSlash_open by done.
      destruct (directoryLike itemPath slug); [|done].
      by rewrite !app_assoc'.
Qed.


(** X9. The permalink in closed form, when the segments before the slug
    are non-empty runs of [[a-z0-9-]] (as [blog] and [drafts] are): a slash,
    every leading segment followed by a slash, then nothing for the index
    page of a directory and for an empty slug, the slug and a slash when
    the slug is [index], the source is [.md] or has no extension, and the
    bare slug otherwise. *)
Theorem X9_permalink_closed_form itemPath frontMatter itemType slug :
  permalinkSlug transliterate itemPath frontMatter itemType = Ok slug →
  Forall (λ seg, isSlugSegment seg = true)
         (leadingSegments config itemPath itemType) →
  generatePermalink config transliterate validAuthority itemPath frontMatter itemType
  = Ok ("/" +:+ closeSegments (leadingSegments config itemPath itemType)
        +:+ slugPart itemPath itemType slug).
Proof. apply generatePermalink_closed. Qed.

Lemma built_permalink filePath itemType item out :
  item_of filePath itemType = (Some item, out) →
  Forall (λ seg, isSlugSegment seg = true)
         (leadingSegments config (relativePath item) itemType) →
  ∃ slug,
    permalinkSlug transliterate (relativePath item) (frontMatter item) itemType = Ok slug
    ∧ permalink item
      = "/" +:+ closeSegments (leadingSegments config (relativePath item) itemType)
        +:+ slugPart (relativePath item) itemType slug.
Proof.
  intros Hitem Hlead.
  destruct (processItem_built config cwd parseMarkdownFile readFile transliterate validAuthority _ _ _ _ Hitem)
    as (_&_&_&Hrel&_&_&Hperm&_).
  rewrite <- Hrel in Hperm.
  destruct (permalinkSlug transliterate (relativePath item) (frontMatter item) itemType)
    as [slug|message] eqn:Hslug.
  - exists slug. split; [done|].
    rewrite (generatePermalink_closed _ _ _ _ Hslug Hlead) in Hperm.
    by apply Ok_inj in Hperm.
  - rewrite generatePermalink_unfold, Hslug in Hperm. done.
Qed.

(** X10. The permalinks of the result: every post is under [/blog/], every
    draft under [/drafts/], followed by the slug part of its relative path
    and front matter; a page whose kept directories are runs of
    [[a-z0-9-]] is at those directories followed by its slug part. *)
Theorem X10_permalinks_of_the_collections files :
  Forall
    (λ item,
       ∃ slug,
         permalinkSlug transliterate (relativePath item) (frontMatter item) post = Ok slug
         ∧ permalink item = "/blog/" +:+ slugPart (relativePath item) post slug)
    (posts (run files).1)
  ∧ Forall
      (λ item,
         ∃ slug,
           permalinkSlug transliterate (relativePath item) (frontMatter item) draft = Ok slug
           ∧ permalink item
             = "/drafts/" +:+ slugPart (relativePath item) draft slug)
      (drafts (run files).1)
  ∧ Forall
      (λ item,
         Forall (λ seg, isSlugSegment seg = true)
                (relevantSegmentsOf config (relativePath item)) →
         ∃ slug,
           permalinkSlug transliterate (relativePath item) (frontMatter item) page = Ok slug
           ∧ permalink item
             = "/" +:+ closeSegments
                         (relevantSegmentsOf config (relativePath item))
               +:+ slugPart (relativePath item) page slug)
      (pages (run files).1).
Proof.
  split; [|split]; apply Forall_forall; intros item Hin.
  - apply posts_origin in Hin as (out&_&_&Hitem).
    apply (built_permalink _ _ _ _ Hitem). by repeat constructor.
  - apply drafts_origin in Hin as (out&_&_&Hitem).
    apply (built_permalink _ _ _ _ Hitem). by repeat constructor.
  - apply pages_origin in Hin as (out&_&_&Hitem).
    apply (built_permalink _ _ _ _ Hitem).
Qed.

(** The shape of a permalink in closed form: it is well formed when it is
    given the trailing slash or ends with its directories, and is a
    well-formed one without its trailing slash otherwise. *)
Lemma permalinkTail_open inSegment slug :
  Js.all isSlugChar slug = true → inSegment = true ∨ slug ≠ "" →
  permalinkTail inSegment slug = false.
Proof.
  revert inSegment. induction slug as [|c slug IH]; intros inSegment; simpl.
  - intros _ [->|?]; done.
  - rewrite andb_true_iff. intros [Hc Hslug] _.
    destruct (slugChar_not_special c Hc) as (Hslash&_).
    destruct (Ascii.eqb_spec c "/") as [->|_]; [done|].
    rewrite Hc, IH; auto.
Qed.

Lemma permalinkTail_lead lead r :
  Forall (λ seg, isSlugSegment seg = true) lead →
  permalinkTail false (closeSegments lead +:+ r) = permalinkTail false r.
Proof.
  induction 1 as [|seg lead Hseg _ IH]; simpl; [done|].
  apply andb_true_iff in Hseg as [Hne Hall].
  rewrite !app_assoc'.
  change (String "/" (closeSegments lead) +:+ r)
    with (String "/" (closeSegments lead +:+ r)).
  by rewrite permalinkTail_segment, Hne, IH.
Qed.

Lemma permalink_shape lead itemPath itemType slug :
  Forall (λ seg, isSlugSegment seg = true) lead →
  Js.all isSlugChar slug = true →
  (directoryLike itemPath slug = true ∨ slug = "" →
   permalinkWellFormed
     ("/" +:+ closeSegments lead +:+ slugPart itemPath itemType slug))
  ∧ (directoryLike itemPath slug = false → slug ≠ "" →
     ¬ permalinkWellFormed
         ("/" +:+ closeSegments lead +:+ slugPart itemPath itemType slug)
     ∧ permalinkPattern
         (("/" +:+ closeSegments lead +:+ slugPart itemPath itemType slug)
          +:+ "/") = true).
Proof.
  intros Hlead Hslug.
  assert (Hdir : permalinkWellFormed ("/" +:+ closeSegments lead +:+ "")).
  { right. apply permalinkPattern_segments. exists lead.
    by rewrite app_empty_r. }
  assert (Hclosed : slug ≠ "" →
            permalinkPattern ("/" +:+ closeSegments lead +:+ slug +:+ "/")
            = true).
  { intros Hne. apply permalinkPattern_segments. exists (lead ++ [slug]).
    split.
    - apply Forall_app. split; [done|]. repeat constructor.
      unfold isSlugSegment. rewrite Hslug, andb_true_r. by destruct slug.
    - rewrite closeSegments_app. simpl. by rewrite ?app_assoc', ?app_empty_r. }
  unfold slugPart.
  destruct (bool_decide (itemType = page) && bool_decide (slug = "index"))
    eqn:Hidx.
  { apply andb_true_iff in Hidx as [_ ->%bool_decide_eq_true].
    split; [done|]. by unfold directoryLike. }
  destruct (decide (slug = "")) as [->|Hne]; [by split|].
  destruct (directoryLike itemPath slug) eqn:Hlike.
  - split; [|done]. intros _. right. by apply Hclosed.
  - split; [by intros [|]|]. intros _ _. split.
    + intros [Hroot|Hpat].
      * injection Hroot as Hroot.
        destruct lead as [|seg lead]; [by destruct slug|].
        simpl in Hroot. by destruct seg.
      * simpl in Hpat. rewrite permalinkTail_lead in Hpat by done.
        rewrite permalinkTail_open in Hpat; [done|done|by right].
    + replace (("/" +:+ closeSegments lead +:+ slug) +:+ "/")
        with ("/" +:+ closeSegments lead +:+ slug +:+ "/");
        [by apply Hclosed|].
      simpl. by rewrite !app_assoc'.
Qed.

(** C1, as amended.  The permalink of every item, of whatever file type, a
    page being one whose kept directories are non-empty runs of
    [[a-z0-9-]]: it is [/] or matches [/^\/([a-z0-9-]+\/)*$/] when the
    extension of the source is [.md] (in any letter case) or absent, or the
    slug is [index] or empty; otherwise (another extension, as [.html], and
    a slug that is neither [index] nor empty) it is that text without the
    trailing slash: it does not match, and with a slash added it does. *)
Theorem C1_permalink_shape files :
  let shaped item itemType :=
    ∃ slug,
      permalinkSlug transliterate (relativePath item) (frontMatter item)
        itemType = Ok slug
      ∧ (directoryLike (relativePath item) slug = true ∨ slug = "" →
         permalinkWellFormed (permalink item))
      ∧ (directoryLike (relativePath item) slug = false → slug ≠ "" →
         ¬ permalinkWellFormed (permalink item)
         ∧ permalinkPattern (permalink item +:+ "/") = true) in
  Forall (λ item, shaped item post) (posts (run files).1)
  ∧ Forall (λ item, shaped item draft) (drafts (run files).1)
  ∧ Forall
      (λ item,
         Forall (λ seg, isSlugSegment seg = true)
                (relevantSegmentsOf config (relativePath item)) →
         shaped item page)
      (pages (run files).1).
Proof.
  intros shaped.
  assert (Hshape : ∀ filePath itemType item out,
    item_of filePath itemType = (Some item, out) →
    Forall (λ seg, isSlugSegment seg = true)
           (leadingSegments config (relativePath item) itemType) →
    shaped item itemType).
  { intros filePath itemType item out Hitem Hlead. unfold shaped.
    destruct (built_permalink _ _ _ _ Hitem Hlead) as (slug&Hslug&->).
    exists slug. split; [done|].
    apply permalink_shape; [done|].
    by apply (permalinkSlug_slugChars transliterate _ _ _ _ Hslug). }
  split; [|split]; apply Forall_forall; intros item Hin.
  - apply posts_origin in Hin as (out&_&_&Hitem).
    apply (Hshape _ _ _ _ Hitem). by repeat constructor.
  - apply drafts_origin in Hin as (out&_&_&Hitem).
    apply (Hshape _ _ _ _ Hitem). by repeat constructor.
  - apply pages_origin in Hin as (out&_&_&Hitem).
    apply (Hshape _ _ _ _ Hitem).
Qed.

(** X11. Where a permalink of that closed form is written, for an output
    root [/o1/.../on] of plain components: at the output root followed by
    the permalink and [index.html] when the permalink ends with a slash,
    and by the permalink and [.html] when it does not; a slug has no dot,
    so the case of a permalink that keeps an extension of its own does not
    arise. *)
Theorem X11_output_path_closed_form outSegs itemPath itemType slug :
  Config.output (Config.paths config) = "/" +:+ Js.join "/" outSegs →
  outSegs ≠ [] →
  Forall (λ c, plainComponent c = true) outSegs →
  Forall (λ seg, isSlugSegment seg = true)
         (leadingSegments config itemPath itemType) →
  Js.all isSlugChar slug = true →
  generateOutputPath config cwd
    ("/" +:+ closeSegments (leadingSegments config itemPath itemType)
     +:+ slugPart itemPath itemType slug)
  = Config.output (Config.paths config)
    +:+ ("/" +:+ closeSegments (leadingSegments config itemPath itemType)
         +:+ slugPart itemPath itemType slug)
    +:+ (if Js.endsWith
              ("/" +:+ closeSegments (leadingSegments config itemPath itemType)
               +:+ slugPart itemPath itemType slug) "/"
         then "index.html" else ".html").
Proof.
  intros Hroot Hne Hout Hlead Hchars.
  generalize dependent (leadingSegments config itemPath itemType).
  intros lead Hlead.
  assert (Hplain : Forall (λ c, plainComponent c = true) lead).
  { eapply Forall_impl; [exact Hlead|]. apply slugSegment_plain. }
  assert (Hdir : ∀ segs,
    Forall (λ c, plainComponent c = true) segs →
    generateOutputPath config cwd ("/" +:+ closeSegments segs +:+ "")
    = Config.output (Config.paths config)
      +:+ ("/" +:+ closeSegments segs +:+ "")
      +:+ (if Js.endsWith ("/" +:+ closeSegments segs +:+ "") "/"
           then "index.html" else ".html")).
  { intros segs Hsegs. rewrite !app_empty_r, rooted_ends_with_slash.
    by apply (outputPath_directory config cwd outSegs). }
  unfold slugPart.
  destruct (bool_decide (itemType = page) && bool_decide (slug = "index"));
    [by apply Hdir|].
  destruct (decide (slug = "")) as [->|Hslug]; [by apply Hdir|].
  assert (Hseg : isSlugSegment slug = true).
  { unfold isSlugSegment. rewrite Hchars, andb_true_r. by destruct slug. }
  destruct (directoryLike itemPath slug).
  - assert (Heq : "/" +:+ closeSegments lead +:+ slug +:+ "/"
                  = "/" +:+ closeSegments (lead ++ [slug]) +:+ "").
    { rewrite closeSegments_app. simpl. by rewrite ?app_assoc', ?app_empty_r. }
    rewrite Heq. apply Hdir. apply Forall_app. split; [done|].
    constructor; [by apply slugSegment_plain|done].
  - destruct (rooted_file_open lead slug (slugSegment_plain slug Hseg))
      as [-> _].
    apply (outputPath_file config cwd outSegs); auto using slugSegment_plain,
      extname_slug.
Qed.

End Coverage.

(** X5 at the sample: the parser throws on [pages/broken.md]. *)
Lemma X5_failed_file_witness :
  Sample.processItem "/site/pages/broken.md" page
  = (None,
     [Console error
        "[Error] Failed to process file pages/broken.md: unexpected end of the stream"])
  ∧ ∀ l1 l2,
      (Sample.processContent (l1 ++ "/site/pages/broken.md" :: l2)).1
      = (Sample.processContent (l1 ++ l2)).1.
Proof.
  destruct (X5_failed_file_is_skipped Sample.config Sample.cwd
              Sample.parseMarkdownFile Sample.readFile Intl.localeCompare Sample.transliterate
              Sample.validAuthority
              "/site/pages/broken.md" (found page)
              "unexpected end of the stream")
    as (Hitem&Hskip&_).
  - by vm_compute.
  - left. by vm_compute.
  - split; [|exact Hskip].
    cbn [processedAs] in Hitem. rewrite Hitem. by vm_compute.
Defined.

(** X9 at the sample: an HTML page in a directory, and the index page of
    that directory. *)
Lemma X9_permalink_closed_form_witness :
  Sample.generatePermalink "pages/docs/guide.html" ∅ page
  = Ok "/docs/guide"
  ∧ Sample.generatePermalink "pages/docs/index.html" ∅ page
    = Ok "/docs/".
Proof.
  split.
  - rewrite (X9_permalink_closed_form Sample.config Sample.transliterate
               Sample.validAuthority "pages/docs/guide.html"
               ∅ page "guide"); [by vm_compute|by vm_compute|].
    by repeat constructor.
  - rewrite (X9_permalink_closed_form Sample.config Sample.transliterate
               Sample.validAuthority "pages/docs/index.html"
               ∅ page "index"); [by vm_compute|by vm_compute|].
    by repeat constructor.
Defined.

(** X11 at the sample: a post and an HTML page. *)
Lemma X11_output_path_closed_form_witness :
  generateOutputPath Sample.config Sample.cwd "/blog/hello-world/"
  = "/site/output/blog/hello-world/index.html"
  ∧ generateOutputPath Sample.config Sample.cwd "/docs/guide"
    = "/site/output/docs/guide.html".
Proof.
  split.
  - refine (X11_output_path_closed_form Sample.config Sample.cwd
              ["site"; "output"] "posts/2024-01-15-hello-world.md" post
              "hello-world" _ _ _ _ _);
      first [done | by repeat constructor].
  - refine (X11_output_path_closed_form Sample.config Sample.cwd
              ["site"; "output"] "pages/docs/guide.html" page
              "guide" _ _ _ _ _);
      first [done | by repeat constructor].
Defined.
(** * The Markdown parser *)

Lemma member_insert fields key v : member (<[key := v]> fields) key = v.
Proof. unfold member. by rewrite lookup_insert_eq. Qed.

Lemma member_insert_ne fields key key' v :
  key ≠ key' → member (<[key := v]> fields) key' = member fields key'.
Proof. intros. unfold member. by rewrite lookup_insert_ne. Qed.

Lemma truthy_toJs v : truthy (toJs v) = truthyValue v.
Proof. by destruct v. Qed.

Lemma prop_toJs fields key : prop (toJs <$> fields) key = toJs (member fields key).
Proof. unfold prop, member. rewrite lookup_fmap. by destruct (fields !! key). Qed.

Section ParserFacts.
Variable readFile : string → Result string.
Variable matter : string → Result (Value * string).
Variable newDate : Value → Result (option Z).
Variable numberText : Z → string.
Variable dateText : Z → string.
Variable markedParse : string → Result string.

Abbreviation textOf := (toText numberText dateText).
Abbreviation cleanDate' := (Parser.cleanDate newDate numberText dateText).
Abbreviation cleanList' := (Parser.cleanList numberText dateText).
Abbreviation clean' := (Parser.clean newDate numberText dateText).
Abbreviation parse' :=
  (Parser.parseMarkdownFile readFile matter newDate numberText dateText
     markedParse).

(** The date a front matter holds after line 57. *)
Lemma cleanDate_date filePath data fields :
  let v := member fields "date" in
  if truthyValue v && negb (isDate v) then
    match newDate v with
    | Ok (Some t) =>
        member (cleanDate' filePath data fields).1 "date" = VDate (Some t)
        ∧ (cleanDate' filePath data fields).2 = []
    | _ =>
        member (cleanDate' filePath data fields).1 "date" = VUndefined
        ∧ ∃ line, (cleanDate' filePath data fields).2 = [Console warn line]
    end
  else cleanDate' filePath data fields = (fields, []).
Proof.
  intros v. unfold Parser.cleanDate. fold v.
  destruct (truthyValue v && negb (isDate v)); [|done].
  destruct (newDate v) as [[t|]|]; simpl; rewrite member_insert; eauto.
Qed.

Lemma cleanDate_other filePath data fields key :
  key ≠ "date" →
  (cleanDate' filePath data fields).1 !! key = fields !! key.
Proof.
  intros Hkey. unfold Parser.cleanDate.
  destruct (_ && _); [|done].
  destruct (newDate _) as [[t|]|]; simpl; by rewrite lookup_insert_ne.
Qed.

(** A list of the front matter after lines 60-72. *)
Lemma cleanList_key key filePath fields :
  let v := member fields key in
  member (cleanList' key filePath fields).1 key
  = (if truthyValue v then
       match v with
       | VArray items => VArray ((λ tag, VString (textOf tag)) <$> items)
       | _ => VArray [VString (textOf v)]
       end
     else v)
  ∧ (cleanList' key filePath fields).2
    = (if truthyValue v && negb (isArray v)
       then [Console warn
               ("[Warning] '" +:+ key +:+ "' field in " +:+ filePath
                +:+ " is not an array. Converting...")]
       else []).
Proof.
  intros v. unfold Parser.cleanList. fold v.
  destruct v as [| |[]|n|s| |items|] eqn:Hv; simpl;
    try destruct (negb (n =? 0)%Z); try destruct (Js.nonEmpty s); simpl;
    rewrite ?member_insert; try done; by subst v.
Qed.

Lemma cleanList_other key filePath fields key' :
  key' ≠ key →
  (cleanList' key filePath fields).1 !! key' = fields !! key'.
Proof.
  intros Hkey. unfold Parser.cleanList.
  destruct (_ && _); simpl; [by rewrite lookup_insert_ne|].
  destruct (member fields key); simpl; try done. by rewrite lookup_insert_ne.
Qed.

Lemma clean_unfold filePath data :
  clean' filePath data
  = let r1 := cleanDate' filePath data (spread data) in
    let r2 := cleanList' "tags" filePath r1.1 in
    let r3 := cleanList' "categories" filePath r2.1 in
    (r3.1, r1.2 ++ r2.2 ++ r3.2).
Proof.
  unfold Parser.clean.
  destruct (cleanDate' _ _ _) as [f1 o1]. simpl.
  destruct (cleanList' "tags" _ _) as [f2 o2]. simpl.
  by destruct (cleanList' "categories" _ _) as [f3 o3].
Qed.

Lemma clean_other filePath data key :
  key ∉ ["date"; "tags"; "categories"] →
  (clean' filePath data).1 !! key = spread data !! key.
Proof.
  intros Hkey. rewrite clean_unfold. simpl.
  rewrite cleanList_other, cleanList_other, cleanDate_other; [done|..];
    intros ->; apply Hkey; set_solver.
Qed.

Lemma clean_date filePath data :
  member (clean' filePath data).1 "date"
  = member (cleanDate' filePath data (spread data)).1 "date".
Proof.
  rewrite clean_unfold. simpl. unfold member.
  by rewrite !cleanList_other.
Qed.

(** When [parseMarkdownFile] returns. *)
Lemma parse_Ok filePath parsed out :
  parse' filePath = (Ok parsed, out)
  ↔ ∃ fileContent data content html,
      readFile filePath = Ok fileContent
      ∧ matter fileContent = Ok (data, content)
      ∧ markedParse content = Ok html
      ∧ parsed = {| Parser.frontMatter := (clean' filePath data).1;
                    Parser.markdownContent := content;
                    Parser.htmlContent := html |}
      ∧ out = (clean' filePath data).2.
Proof.
  unfold Parser.parseMarkdownFile, Parser.tryParse. split.
  - destruct (readFile filePath) as [fileContent|] eqn:Hread; [|done].
    destruct (matter fileContent) as [[data content]|] eqn:Hmatter; [|done].
    destruct (clean' filePath data) as [fields o] eqn:Hclean.
    destruct (markedParse content) as [html|] eqn:Hhtml; [|done].
    intros [= <- <-]. exists fileContent, data, content, html.
    by rewrite Hclean.
  - intros (fileContent&data&content&html&->&->&Hhtml&->&->).
    destruct (clean' filePath data) as [fields o]. by rewrite Hhtml.
Qed.


Lemma clean_list filePath data key :
  key ∈ ["tags"; "categories"] →
  let v := member (spread data) key in
  member (clean' filePath data).1 key
  = (if truthyValue v then
       match v with
       | VArray items => VArray ((λ tag, VString (textOf tag)) <$> items)
       | _ => VArray [VString (textOf v)]
       end
     else v)
  ∧ (truthyValue v = true → isArray v = false →
     Console warn
       ("[Warning] '" +:+ key +:+ "' field in " +:+ filePath
        +:+ " is not an array. Converting...")
     ∈ (clean' filePath data).2).
Proof.
  intros Hkey v. rewrite clean_unfold. cbn zeta. simpl fst. simpl snd.
  set (r1 := cleanDate' filePath data (spread data)).
  set (r2 := cleanList' "tags" filePath r1.1).
  assert (H1 : ∀ k, k ≠ "date" → member r1.1 k = member (spread data) k).
  { intros k Hk. unfold member, r1. by rewrite cleanDate_other. }
  apply elem_of_cons in Hkey as [->|Hkey].
  - destruct (cleanList_key "tags" filePath r1.1) as [Hv Hout].
    fold r2 in Hv, Hout. rewrite H1 in Hv, Hout by done. fold v in Hv, Hout.
    split.
    + unfold member. rewrite cleanList_other by done. exact Hv.
    + intros Ht Ha. rewrite Hout, Ht, Ha. set_solver.
  - apply list_elem_of_singleton in Hkey as ->.
    destruct (cleanList_key "categories" filePath r2.1) as [Hv Hout].
    assert (H2 : member r2.1 "categories" = v).
    { unfold member, r2. rewrite cleanList_other by done. by apply H1. }
    rewrite H2 in Hv, Hout. split; [exact Hv|].
    intros Ht Ha. rewrite Hout, Ht, Ha. set_solver.
Qed.

Lemma strings_fixed items :
  forallb isString items = true →
  (λ tag, VString (textOf tag)) <$> items = items.
Proof.
  induction items as [|v items IH]; [done|].
  rewrite fmap_cons. cbn [forallb]. intros [Hv Hs]%andb_true_iff.
  rewrite IH by done. by destruct v.
Qed.

Lemma strings_made items :
  forallb isString ((λ tag, VString (textOf tag)) <$> items) = true.
Proof.
  induction items as [|v items IH]; [done|]. rewrite fmap_cons. exact IH.
Qed.

Lemma clean_warnings filePath data :
  length (clean' filePath data).2 ≤ 3
  ∧ Forall (λ d, level d = warn) (clean' filePath data).2.
Proof.
  rewrite clean_unfold. simpl.
  set (r1 := cleanDate' filePath data (spread data)).
  set (r2 := cleanList' "tags" filePath r1.1).
  destruct (cleanList_key "tags" filePath r1.1) as [_ H2]. fold r2 in H2.
  destruct (cleanList_key "categories" filePath r2.1) as [_ H3].
  rewrite H2, H3.
  assert (Hd : r1.2 = [] ∨ ∃ line, r1.2 = [Console warn line]).
  { pose proof (cleanDate_date filePath data (spread data)) as Hd.
    cbn zeta in Hd. fold r1 in Hd.
    destruct (_ && _) in Hd; [|by rewrite Hd; left].
    destruct (newDate _) as [[t|]|]; destruct Hd as [_ Hd]; auto. }
  destruct Hd as [->|[line ->]];
    do 2 destruct (_ && _); simpl; split; try lia; by repeat constructor.
Qed.

Lemma clean_typed filePath data :
  typedFrontMatter (spread data) = true →
  clean' filePath data = (spread data, []).
Proof.
  unfold typedFrontMatter.
  intros [[Hdate Htags]%andb_true_iff Hcats]%andb_true_iff.
  rewrite clean_unfold. cbn zeta.
  assert (Hd : cleanDate' filePath data (spread data) = (spread data, [])).
  { unfold Parser.cleanDate.
    destruct (truthyValue _), (isDate _); simpl in *; done. }
  rewrite Hd. simpl fst. simpl snd.
  assert (Hl : ∀ key, stringList (member (spread data) key) = true →
                      cleanList' key filePath (spread data) = (spread data, [])).
  { intros key Hs. unfold Parser.cleanList, member in *.
    destruct (spread data !! key) as [v|] eqn:Hkey; [|done].
    destruct v as [| |[]|n|s| |items|]; simpl in *; try done.
    - by destruct (n =? 0)%Z.
    - by destruct s.
    - rewrite strings_fixed by done. by rewrite insert_id. }
  rewrite (Hl "tags") by done. simpl. by rewrite (Hl "categories").
Qed.

Lemma clean_is_typed filePath data :
  typedFrontMatter (clean' filePath data).1 = true.
Proof.
  unfold typedFrontMatter.
  destruct (clean_list filePath data "tags") as [-> _]; [set_solver|].
  destruct (clean_list filePath data "categories") as [-> _]; [set_solver|].
  rewrite clean_date.
  pose proof (cleanDate_date filePath data (spread data)) as Hd. cbn zeta in Hd.
  assert (Hlist : ∀ v,
    stringList (if truthyValue v then
                  match v with
                  | VArray items =>
                      VArray ((λ tag, VString (textOf tag)) <$> items)
                  | _ => VArray [VString (textOf v)]
                  end
                else v) = true).
  { intros v. destruct v as [| |[]|n|s| |items|]; simpl; try done.
    - destruct (n =? 0)%Z eqn:Hn; simpl; by rewrite ?Hn.
    - by destruct s.
    - apply strings_made. }
  rewrite !Hlist, !andb_true_r.
  destruct (truthyValue (member (spread data) "date")
            && negb (isDate (member (spread data) "date"))) eqn:Hc.
  - destruct (newDate _) as [[t|]|]; destruct Hd as [-> _]; done.
  - rewrite Hd. simpl.
    by destruct (truthyValue _), (isDate _).
Qed.


Abbreviation parserOf :=
  (Parser.forProcessItem readFile matter newDate numberText dateText
     markedParse).


(** X13. The date of a parsed front matter is never a truthy value that is
    not a [Date].  A date that is falsy or already a [Date] is kept; another
    truthy date becomes the [Date] that [new Date] makes of it when that
    date is valid, and [undefined] otherwise, with a warning that names the
    file and the value of the data. *)
Theorem X13_date_after_parsing filePath parsed out :
  parse' filePath = (Ok parsed, out) →
  ∃ fileContent data content,
    readFile filePath = Ok fileContent
    ∧ matter fileContent = Ok (data, content)
    ∧ let v := member (spread data) "date" in
      let d := member (Parser.frontMatter parsed) "date" in
      (truthyValue d = true → isDate d = true)
      ∧ (truthyValue v = false ∨ isDate v = true → d = v)
      ∧ (truthyValue v = true → isDate v = false →
         match newDate v with
         | Ok (Some t) => d = VDate (Some t)
         | Ok None =>
             d = VUndefined
             ∧ Console warn
                 ("[Warning] Invalid date format in front matter for file: "
                  +:+ filePath +:+ ". Value: "
                  +:+ textOf (memberOf data "date"))
               ∈ out
         | Throw _ =>
             d = VUndefined
             ∧ Console warn
                 ("[Warning] Could not parse date in front matter for file: "
                  +:+ filePath +:+ ". Value: "
                  +:+ textOf (memberOf data "date"))
               ∈ out
         end).
Proof.
  intros (fileContent&data&content&html&Hread&Hmatter&_&->&->)%parse_Ok.
  exists fileContent, data, content. do 2 (split; [done|]).
  cbn zeta. simpl Parser.frontMatter. rewrite clean_date.
  assert (Hout : ∀ line,
    line ∈ (cleanDate' filePath data (spread data)).2 →
    line ∈ (clean' filePath data).2).
  { intros line Hin. rewrite clean_unfold. simpl. set_solver. }
  unfold Parser.cleanDate in *.
  destruct (truthyValue (member (spread data) "date")) eqn:Ht;
    destruct (isDate (member (spread data) "date")) eqn:Hd; simpl in *.
  - split; [done|]. split; [done|]. done.
  - split; [|split; [by intros [|]|]].
    + destruct (newDate _) as [[t|]|]; simpl; by rewrite member_insert.
    + intros _ _.
      destruct (newDate _) as [[t|]|]; simpl in *; rewrite member_insert;
        [done|split; [done|]..]; apply Hout; set_solver.
  - split; [done|]. split; [done|]. done.
  - split; [by rewrite Ht|]. split; [done|]. done.
Qed.

(** X14. After parsing, [tags] and [categories] are each absent (or falsy,
    as they were) or an array of strings: an array has every element
    converted with [String], any other truthy value becomes the array of
    its one text, with a warning that names the key and the file. *)
Theorem X14_lists_after_parsing filePath parsed out :
  parse' filePath = (Ok parsed, out) →
  ∃ fileContent data content,
    readFile filePath = Ok fileContent
    ∧ matter fileContent = Ok (data, content)
    ∧ Forall
        (λ key,
           let v := member (spread data) key in
           member (Parser.frontMatter parsed) key
           = (if truthyValue v then
                match v with
                | VArray items =>
                    VArray ((λ tag, VString (textOf tag)) <$> items)
                | _ => VArray [VString (textOf v)]
                end
              else v)
           ∧ stringList (member (Parser.frontMatter parsed) key) = true
           ∧ (truthyValue v = true → isArray v = false →
              Console warn
                ("[Warning] '" +:+ key +:+ "' field in " +:+ filePath
                 +:+ " is not an array. Converting...")
              ∈ out))
        ["tags"; "categories"].
Proof.
  intros (fileContent&data&content&html&Hread&Hmatter&_&->&->)%parse_Ok.
  exists fileContent, data, content. do 2 (split; [done|]).
  apply Forall_forall. intros key Hkey. cbn zeta. simpl Parser.frontMatter.
  destruct (clean_list filePath data key Hkey) as [Hv Hwarn].
  split; [exact Hv|]. split; [|exact Hwarn].
  pose proof (clean_is_typed filePath data) as Htyped.
  unfold typedFrontMatter in Htyped.
  apply andb_true_iff in Htyped as [[_ Htags]%andb_true_iff Hcats].
  apply elem_of_cons in Hkey as [->|Hkey]; [done|].
  by apply list_elem_of_singleton in Hkey as ->.
Qed.

(** X15. What parsing keeps: the content after the front matter is the
    Markdown content, its rendering by [marked.parse] the HTML content, and
    every key of the data other than [date], [tags] and [categories] has
    its value unchanged.  The front matter returned is of the declared
    types; data that already is, is returned as it is, without a warning.
    Only warnings are written before a result, at most three. *)
Theorem X15_parsing_keeps_the_rest filePath parsed out :
  parse' filePath = (Ok parsed, out) →
  ∃ fileContent data,
    readFile filePath = Ok fileContent
    ∧ matter fileContent = Ok (data, Parser.markdownContent parsed)
    ∧ markedParse (Parser.markdownContent parsed)
      = Ok (Parser.htmlContent parsed)
    ∧ (∀ key, key ∉ ["date"; "tags"; "categories"] →
              Parser.frontMatter parsed !! key = spread data !! key)
    ∧ typedFrontMatter (Parser.frontMatter parsed) = true
    ∧ (typedFrontMatter (spread data) = true →
       Parser.frontMatter parsed = spread data ∧ out = [])
    ∧ length out ≤ 3
    ∧ Forall (λ d, level d = warn) out.
Proof.
  intros (fileContent&data&content&html&Hread&Hmatter&Hhtml&->&->)%parse_Ok.
  exists fileContent, data. simpl.
  do 3 (split; [done|]).
  split; [intros key Hkey; by apply clean_other|].
  split; [apply clean_is_typed|].
  split; [intros Htyped; by rewrite clean_typed|].
  apply clean_warnings.
Qed.

Lemma toJs_false v : toJs v = JsBool false → v = VBool false.
Proof. destruct v; simpl; congruence. Qed.


End ParserFacts.


(** X13 at the sample: the date [soon] becomes [undefined]. *)
Lemma X13_date_after_parsing_witness :
  ∃ parsed out,
    SampleParser.parseMarkdownFile "/site/posts/misdated.md" = (Ok parsed, out)
    ∧ member (Parser.frontMatter parsed) "date" = VUndefined
    ∧ Console warn
        "[Warning] Invalid date format in front matter for file: /site/posts/misdated.md. Value: soon"
      ∈ out.
Proof.
  destruct (SampleParser.parseMarkdownFile "/site/posts/misdated.md")
    as [[parsed|] out] eqn:Hparse; [|by vm_compute in Hparse].
  exists parsed, out. split; [done|].
  destruct (X13_date_after_parsing SampleParser.readFile
              SampleParser.matter SampleParser.newDate SampleParser.numberText
              SampleParser.dateText SampleParser.markedParse _ _ _ Hparse)
    as (fileContent&data&content&Hread&Hmatter&_&_&Hconv).
  vm_compute in Hread. injection Hread as <-.
  vm_compute in Hmatter. injection Hmatter as <- <-.
  exact (Hconv eq_refl eq_refl).
Defined.

(** X14 at the sample: the tag [rocq] becomes a list of one string. *)
Lemma X14_lists_after_parsing_witness :
  ∃ parsed out,
    SampleParser.parseMarkdownFile "/site/posts/tagged.md" = (Ok parsed, out)
    ∧ member (Parser.frontMatter parsed) "tags" = VArray [VString "rocq"]
    ∧ member (Parser.frontMatter parsed) "categories" = VUndefined.
Proof.
  destruct (SampleParser.parseMarkdownFile "/site/posts/tagged.md")
    as [[parsed|] out] eqn:Hparse; [|by vm_compute in Hparse].
  exists parsed, out. split; [done|].
  destruct (X14_lists_after_parsing SampleParser.readFile
              SampleParser.matter SampleParser.newDate SampleParser.numberText
              SampleParser.dateText SampleParser.markedParse _ _ _ Hparse)
    as (fileContent&data&content&Hread&Hmatter&Hlists).
  vm_compute in Hread. injection Hread as <-.
  vm_compute in Hmatter. injection Hmatter as <- <-.
  apply Forall_cons in Hlists as [(Htags&_) Hlists].
  apply Forall_cons in Hlists as [(Hcats&_) _].
  split; [exact Htags|exact Hcats].
Defined.

(** X15 at the sample: the title of the tagged post, and its text. *)
Lemma X15_parsing_keeps_the_rest_witness :
  ∃ parsed out,
    SampleParser.parseMarkdownFile "/site/posts/tagged.md" = (Ok parsed, out)
    ∧ Parser.frontMatter parsed !! "title" = Some (VString "Tagged")
    ∧ Parser.markdownContent parsed = "Hello"
    ∧ length out ≤ 3.
Proof.
  destruct (SampleParser.parseMarkdownFile "/site/posts/tagged.md")
    as [[parsed|] out] eqn:Hparse; [|by vm_compute in Hparse].
  exists parsed, out. split; [done|].
  destruct (X15_parsing_keeps_the_rest SampleParser.readFile
              SampleParser.matter SampleParser.newDate SampleParser.numberText
              SampleParser.dateText SampleParser.markedParse _ _ _ Hparse)
    as (fileContent&data&Hread&Hmatter&_&Hother&_&_&Hlen&_).
  vm_compute in Hread. injection Hread as <-.
  vm_compute in Hmatter. injection Hmatter as <- Hcontent.
  split; [|by split].
  rewrite Hother; [by vm_compute|]. by apply (bool_decide_unpack _).
Defined.


(** * The configuration *)

Lemma lookup_union_match {A : Type} (m1 m2 : gmap string A) key :
  (m1 ∪ m2) !! key
  = match m1 !! key with Some v => Some v | None => m2 !! key end.
Proof. rewrite lookup_union. by destruct (m1 !! key), (m2 !! key). Qed.

Lemma member_union m1 m2 key :
  member (m1 ∪ m2) key
  = match m1 !! key with Some v => v | None => member m2 key end.
Proof. unfold member. rewrite lookup_union_match. by destruct (m1 !! key). Qed.

Section MergeFacts.
Variable nullAccessError : string → string.

Abbreviation merge' := (mergeConfigs nullAccessError).

Lemma field_Ok v key r :
  field nullAccessError v key = Ok r → r = memberOf v key.
Proof. destruct v; simpl; congruence. Qed.

Lemma mergePaths_Ok userConfig defaultConfig merged merged' :
  mergePaths nullAccessError userConfig defaultConfig merged = Ok merged' →
  merged'
  = <["paths" :=
        VObject
          (if truthyValue (memberOf userConfig "paths")
           then spread (memberOf userConfig "paths")
                ∪ spread (memberOf defaultConfig "paths")
           else spread (memberOf defaultConfig "paths"))]> merged.
Proof.
  unfold mergePaths.
  destruct (field _ userConfig _) as [userPaths|] eqn:Hu; [|done].
  apply field_Ok in Hu as ->. simpl.
  destruct (field _ defaultConfig _) as [defaultPaths|] eqn:Hd;
    [|by destruct (truthyValue _)].
  apply field_Ok in Hd as ->.
  destruct (truthyValue (memberOf userConfig "paths")); simpl.
  - by intros <-%Ok_inj.
  - destruct (truthyValue _); [|done]. by intros <-%Ok_inj.
Qed.

Lemma mergePagination_Ok userConfig defaultConfig merged merged' :
  mergePagination nullAccessError userConfig defaultConfig merged = Ok merged' →
  ∃ v, merged' = <["pagination" := v]> merged
       ∧ v = (if truthyValue (memberOf userConfig "pagination")
              then VObject
                     (spread (memberOf userConfig "pagination")
                      ∪ spread (memberOf defaultConfig "pagination"))
              else if truthyValue (memberOf defaultConfig "pagination")
                   then VObject (spread (memberOf defaultConfig "pagination"))
                   else VUndefined).
Proof.
  unfold mergePagination.
  destruct (field _ userConfig _) as [userPagination|] eqn:Hu; [|done].
  apply field_Ok in Hu as ->. simpl.
  destruct (field _ defaultConfig _) as [defaultPagination|] eqn:Hd;
    [|by destruct (truthyValue _)].
  apply field_Ok in Hd as ->.
  destruct (truthyValue (memberOf userConfig "pagination")); simpl.
  - intros <-%Ok_inj. eexists. split; [done|].
    destruct (truthyValue (memberOf defaultConfig "pagination")) eqn:Hd;
      [done|].
    by destruct (memberOf defaultConfig "pagination") as [| |[]| |[]| | |].
  - destruct (truthyValue _); intros <-%Ok_inj; by eexists.
Qed.

Lemma validate_Ok merged finalConfig :
  validate merged = Ok finalConfig →
  finalConfig = VObject merged
  ∧ (∃ title, merged !! "title" = Some (VString title) ∧ title ≠ "")
  ∧ (∃ baseUrl, merged !! "baseUrl" = Some (VString baseUrl) ∧ baseUrl ≠ "")
  ∧ Forall (λ key,
              truthyValue (memberOf (member merged "paths") key) = true)
           pathKeys.
Proof.
  unfold validate.
  destruct (negb (truthyValue (member merged "title")) || _) eqn:Ht; [done|].
  destruct (negb (truthyValue (member merged "baseUrl")) || _) eqn:Hb; [done|].
  destruct (negb (truthyValue (member merged "paths")) || _ || _) eqn:Hp;
    [done|].
  intros <-%Ok_inj. split; [done|].
  assert (Htext : ∀ key,
    negb (truthyValue (member merged key)) || negb (isString (member merged key))
    = false →
    ∃ s, merged !! key = Some (VString s) ∧ s ≠ "").
  { intros key. unfold member.
    destruct (merged !! key) as [[| |[]| |s| | |]|]; simpl; try done.
    - by rewrite orb_true_r.
    - destruct s; [done|]. by eauto. }
  split; [by apply Htext|]. split; [by apply Htext|].
  apply orb_false_iff in Hp as [_ Hp].
  apply Forall_forall. intros key Hkey.
  apply negb_false_iff. revert Hp key Hkey.
  generalize pathKeys. intros keys Hp.
  induction keys as [|k keys IH]; intros key Hkey; [by apply elem_of_nil in Hkey|].
  simpl in Hp. apply orb_false_iff in Hp as [Hk Hp].
  apply elem_of_cons in Hkey as [->|Hkey]; [done|]. by apply IH.
Qed.


Lemma merge_Ok userConfig defaultConfig finalConfig :
  merge' userConfig defaultConfig = Ok finalConfig →
  ∃ pagination,
    finalConfig
    = VObject
        (<["pagination" := pagination]>
           (<["paths" :=
                VObject
                  (if truthyValue (memberOf userConfig "paths")
                   then spread (memberOf userConfig "paths")
                        ∪ spread (memberOf defaultConfig "paths")
                   else spread (memberOf defaultConfig "paths"))]>
              (spread userConfig ∪ spread defaultConfig)))
    ∧ pagination
      = (if truthyValue (memberOf userConfig "pagination")
         then VObject
                (spread (memberOf userConfig "pagination")
                 ∪ spread (memberOf defaultConfig "pagination"))
         else if truthyValue (memberOf defaultConfig "pagination")
              then VObject (spread (memberOf defaultConfig "pagination"))
              else VUndefined)
    ∧ validate
        (<["pagination" := pagination]>
           (<["paths" :=
                VObject
                  (if truthyValue (memberOf userConfig "paths")
                   then spread (memberOf userConfig "paths")
                        ∪ spread (memberOf defaultConfig "paths")
                   else spread (memberOf defaultConfig "paths"))]>
              (spread userConfig ∪ spread defaultConfig)))
      = Ok finalConfig.
Proof.
  unfold mergeConfigs.
  destruct (mergePaths _ _ _ _) as [m1|] eqn:H1; [|done].
  apply mergePaths_Ok in H1 as ->. simpl.
  destruct (mergePagination _ _ _ _) as [m2|] eqn:H2; [|done].
  apply mergePagination_Ok in H2 as (v&->&Hv). simpl.
  intros Hvalid. exists v. split; [|done].
  by apply validate_Ok in Hvalid as [-> _].
Qed.

(** X17. What [mergeConfigs] returns when it returns: an object in which
    every key other than [paths] and [pagination] has the value of the
    user configuration when that has the key, and of the default
    otherwise; [paths] is an object merged in the same way key by key, from
    the user's [paths] when that is truthy; all eight path keys are truthy,
    and [title] and [baseUrl] are non-empty strings. *)
Theorem X17_merge_overrides userConfig defaultConfig finalConfig :
  merge' userConfig defaultConfig = Ok finalConfig →
  ∃ merged paths,
    finalConfig = VObject merged
    ∧ (∀ key, key ∉ ["paths"; "pagination"] →
              merged !! key
              = match spread userConfig !! key with
                | Some v => Some v
                | None => spread defaultConfig !! key
                end)
    ∧ merged !! "paths" = Some (VObject paths)
    ∧ (∀ key,
         paths !! key
         = match
             (if truthyValue (memberOf userConfig "paths")
              then spread (memberOf userConfig "paths") !! key else None)
           with
           | Some v => Some v
           | None => spread (memberOf defaultConfig "paths") !! key
           end)
    ∧ Forall (λ key, truthyValue (member paths key) = true) pathKeys
    ∧ (∃ title, merged !! "title" = Some (VString title) ∧ title ≠ "")
    ∧ (∃ baseUrl, merged !! "baseUrl" = Some (VString baseUrl) ∧ baseUrl ≠ "").
Proof.
  intros (pagination&->&_&Hvalid)%merge_Ok.
  apply validate_Ok in Hvalid as (_&Htitle&Hbase&Hpaths).
  eexists _, _. split; [done|].
  split.
  { intros key Hkey. rewrite !lookup_insert_ne, lookup_union_match; [done|..];
      intros <-; apply Hkey; by apply (bool_decide_unpack _). }
  split; [by rewrite lookup_insert_ne, lookup_insert_eq|].
  split.
  { intros key. destruct (truthyValue (memberOf userConfig "paths")); [|done].
    apply lookup_union_match. }
  split; [|done].
  unfold member in Hpaths.
  rewrite lookup_insert_ne, lookup_insert_eq in Hpaths by done.
  exact Hpaths.
Qed.


Lemma default_paths_truthy :
  Forall (λ key,
            truthyValue (member (spread (memberOf DEFAULT_CONFIG "paths")) key)
            = true)
         pathKeys.
Proof. repeat constructor. Qed.

Lemma paths_check (userPaths defaultPaths : gmap string Value) keys :
  Forall (λ key, truthyValue (member defaultPaths key) = true) keys →
  existsb (λ key, negb (truthyValue (member (userPaths ∪ defaultPaths) key)))
          keys
  = negb (forallb
            (λ key,
               match userPaths !! key with
               | None => true
               | Some v => truthyValue v
               end)
            keys).
Proof.
  induction 1 as [|key keys Hkey _ IH]; [done|].
  cbn [existsb forallb]. rewrite IH, member_union, negb_andb.
  destruct (userPaths !! key); [done|]. by rewrite Hkey.
Qed.

Lemma merge_object userConfig :
  merge' (VObject userConfig) DEFAULT_CONFIG
  = if negb (textSetting userConfig "title")
    then Throw "Configuration Error: 'title' is missing or not a string."
    else if negb (textSetting userConfig "baseUrl")
    then Throw "Configuration Error: 'baseUrl' is missing or not a string."
    else if negb (pathSettings userConfig)
    then Throw
           "Configuration Error: 'paths' object is incomplete or invalid after merge."
    else
      Ok (VObject
            (<["pagination" :=
                 if truthyValue (member userConfig "pagination")
                 then VObject
                        (spread (member userConfig "pagination")
                         ∪ spread (memberOf DEFAULT_CONFIG "pagination"))
                 else memberOf DEFAULT_CONFIG "pagination"]>
               (<["paths" :=
                    VObject
                      (if truthyValue (member userConfig "paths")
                       then spread (member userConfig "paths")
                            ∪ spread (memberOf DEFAULT_CONFIG "paths")
                       else spread (memberOf DEFAULT_CONFIG "paths"))]>
                  (userConfig ∪ spread DEFAULT_CONFIG)))).
Proof.
  unfold mergeConfigs, mergePaths, mergePagination.
  change (field nullAccessError (VObject userConfig) "paths")
    with (Ok (member userConfig "paths")).
  change (field nullAccessError (VObject userConfig) "pagination")
    with (Ok (member userConfig "pagination")).
  change (field nullAccessError DEFAULT_CONFIG "paths")
    with (Ok (memberOf DEFAULT_CONFIG "paths")).
  change (field nullAccessError DEFAULT_CONFIG "pagination")
    with (Ok (memberOf DEFAULT_CONFIG "pagination")).
  change (spread (VObject userConfig)) with userConfig.
  cbn [mbind Result_bind].
  set (paths := if truthyValue (member userConfig "paths")
                then spread (member userConfig "paths")
                     ∪ spread (memberOf DEFAULT_CONFIG "paths")
                else spread (memberOf DEFAULT_CONFIG "paths")).
  set (pagination := if truthyValue (member userConfig "pagination")
                     then VObject
                            (spread (member userConfig "pagination")
                             ∪ spread (memberOf DEFAULT_CONFIG "pagination"))
                     else memberOf DEFAULT_CONFIG "pagination").
  assert (H1 : (if truthyValue (member userConfig "paths")
                then Ok (<["paths" := VObject
                             (spread (member userConfig "paths")
                              ∪ spread (memberOf DEFAULT_CONFIG "paths"))]>
                           (userConfig ∪ spread DEFAULT_CONFIG))
                else if truthyValue (memberOf DEFAULT_CONFIG "paths")
                     then Ok (<["paths" := VObject
                                  (spread (memberOf DEFAULT_CONFIG "paths"))]>
                                (userConfig ∪ spread DEFAULT_CONFIG))
                     else Throw
                            "Critical Error: Default paths configuration is missing.")
               = Ok (<["paths" := VObject paths]>
                       (userConfig ∪ spread DEFAULT_CONFIG))).
  { unfold paths. by destruct (truthyValue (member userConfig "paths")). }
  rewrite H1. clear H1. cbn [mbind Result_bind].
  assert (H2 : ∀ merged : gmap string Value,
    (if truthyValue (member userConfig "pagination")
     then Ok (<["pagination" :=
                  VObject
                    (spread (member userConfig "pagination")
                     ∪ spread
                         (if truthyValue (memberOf DEFAULT_CONFIG "pagination")
                          then memberOf DEFAULT_CONFIG "pagination"
                          else VObject ∅))]> merged)
     else if truthyValue (memberOf DEFAULT_CONFIG "pagination")
          then Ok (<["pagination" :=
                       VObject (spread (memberOf DEFAULT_CONFIG "pagination"))]>
                     merged)
          else Ok (<["pagination" := VUndefined]> merged))
    = Ok (<["pagination" := pagination]> merged)).
  { intros merged. unfold pagination.
    by destruct (truthyValue (member userConfig "pagination")). }
  rewrite H2. clear H2. cbn [mbind Result_bind].
  unfold validate.
  assert (Htext : ∀ key,
    key ≠ "pagination" → key ≠ "paths" →
    is_Some (spread DEFAULT_CONFIG !! key) →
    truthyValue (member (spread DEFAULT_CONFIG) key)
    && isString (member (spread DEFAULT_CONFIG) key) = true →
    negb (truthyValue
            (member (<["pagination" := pagination]>
                       (<["paths" := VObject paths]>
                          (userConfig ∪ spread DEFAULT_CONFIG))) key))
    || negb (isString
               (member (<["pagination" := pagination]>
                          (<["paths" := VObject paths]>
                             (userConfig ∪ spread DEFAULT_CONFIG))) key))
    = negb (textSetting userConfig key)).
  { intros key H1 H2 _ Hd. rewrite !member_insert_ne, member_union by done.
    unfold textSetting. rewrite <- negb_andb.
    destruct (userConfig !! key); [done|]. by rewrite Hd. }
  rewrite (Htext "title"), (Htext "baseUrl") by done.
  destruct (textSetting userConfig "title"); [|done].
  destruct (textSetting userConfig "baseUrl"); [|done].
  cbn [negb].
  rewrite member_insert_ne, member_insert by done.
  cbn [truthyValue isObjectType negb orb memberOf].
  assert (Hp : existsb (λ key, negb (truthyValue (member paths key))) pathKeys
               = negb (pathSettings userConfig)).
  { unfold paths, pathSettings.
    change (member userConfig "paths")
      with (default VUndefined (userConfig !! "paths")).
    destruct (userConfig !! "paths") as [userPaths|].
    - change (default VUndefined (Some userPaths)) with userPaths.
      destruct (truthyValue userPaths); cbn [negb orb].
      + apply paths_check, default_paths_truthy.
      + by vm_compute.
    - by vm_compute. }
  rewrite Hp. by destruct (pathSettings userConfig).
Qed.

(** X18. Which user configurations [mergeConfigs] accepts over
    [DEFAULT_CONFIG]: an object is accepted exactly when its [title] and
    its [baseUrl] are each absent or a non-empty string and none of the
    eight path keys that its truthy [paths] has of its own is falsy.  A
    value the user sets is never replaced by the default: a [title] that
    is set to the empty string, [null] or a number fails with the message
    for the title, then [baseUrl] with its message, then the paths. *)
Theorem X18_accepted_user_configuration userConfig :
  (textSetting userConfig "title" = false →
   merge' (VObject userConfig) DEFAULT_CONFIG
   = Throw "Configuration Error: 'title' is missing or not a string.")
  ∧ (textSetting userConfig "title" = true →
     textSetting userConfig "baseUrl" = false →
     merge' (VObject userConfig) DEFAULT_CONFIG
     = Throw "Configuration Error: 'baseUrl' is missing or not a string.")
  ∧ (textSetting userConfig "title" = true →
     textSetting userConfig "baseUrl" = true →
     pathSettings userConfig = false →
     merge' (VObject userConfig) DEFAULT_CONFIG
     = Throw
         "Configuration Error: 'paths' object is incomplete or invalid after merge.")
  ∧ (textSetting userConfig "title" = true →
     textSetting userConfig "baseUrl" = true →
     pathSettings userConfig = true →
     ∃ finalConfig,
       merge' (VObject userConfig) DEFAULT_CONFIG = Ok finalConfig).
Proof.
  rewrite merge_object.
  repeat split; intros; repeat match goal with H : _ = _ |- _ => rewrite H end;
    cbn [negb]; eauto.
Qed.

(** X19. A user configuration that is not an object: [null] (and
    [undefined]) make [mergeConfigs] throw the [TypeError] of reading
    [paths]; the empty object, a number and a boolean are accepted and
    give [DEFAULT_CONFIG] itself. *)
Theorem X19_configuration_that_is_no_object :
  (∀ defaultConfig,
     merge' VNull defaultConfig = Throw (nullAccessError "paths")
     ∧ merge' VUndefined defaultConfig = Throw (nullAccessError "paths"))
  ∧ merge' (VObject ∅) DEFAULT_CONFIG = Ok DEFAULT_CONFIG
  ∧ (∀ n, merge' (VNumber n) DEFAULT_CONFIG = Ok DEFAULT_CONFIG)
  ∧ (∀ b, merge' (VBool b) DEFAULT_CONFIG = Ok DEFAULT_CONFIG).
Proof.
  split; [done|]. split; [by vm_compute|].
  split; intros; by vm_compute.
Qed.

End MergeFacts.

Lemma resolveFrom_absolute cwd revArgs acc :
  Path.isAbsolute cwd = true → (Path.resolveFrom cwd revArgs acc).2 = true.
Proof.
  intros Hcwd. revert acc.
  induction revArgs as [|p rest IH]; intros acc; simpl; [done|].
  destruct (decide (p = "")); [apply IH|].
  destruct (Path.isAbsolute p); [done|apply IH].
Qed.

Lemma resolve_isAbsolute cwd args :
  Path.isAbsolute cwd = true → Path.isAbsolute (Path.resolve cwd args) = true.
Proof.
  intros Hcwd. unfold Path.resolve.
  pose proof (resolveFrom_absolute cwd (reverse args) "" Hcwd) as Habs.
  destruct (Path.resolveFrom cwd (reverse args) "") as [p abs].
  simpl in Habs. by subst abs.
Qed.

Lemma dirname_absolute filePath :
  Path.isAbsolute filePath = true →
  Path.isAbsolute (Path.dirname filePath) = true.
Proof.
  destruct filePath as [|c r]; [done|].
  unfold Path.isAbsolute, Path.dirname. simpl.
  destruct (Ascii.eqb c "/") eqn:Hc; [|done]. intros _.
  change (Ascii.eqb c Path.sep) with (Ascii.eqb c "/"). rewrite Hc.
  destruct (Path.scanBack r).2 as [d|]; [|done].
  simpl. by destruct (bool_decide (d = "")).
Qed.

Lemma startsWith_relative filePath root :
  Path.isAbsolute filePath = true → root ≠ "" →
  Path.isAbsolute root = false →
  Js.startsWith filePath root = false.
Proof.
  destruct filePath as [|c r]; [done|]. destruct root as [|d root]; [done|].
  unfold Path.isAbsolute. simpl. rewrite !andb_true_r.
  intros ->%Ascii.eqb_eq _ Hd.
  by rewrite Ascii.eqb_sym, Hd.
Qed.

(** A configuration whose roots are relative classifies no absolute
    path. *)
Lemma classify_relative_roots config filePath :
  Path.isAbsolute filePath = true →
  Forall (λ root, root ≠ "" ∧ Path.isAbsolute root = false)
         [Config.posts (Config.paths config);
          Config.drafts (Config.paths config);
          Config.pages (Config.paths config)] →
  Path.isAbsolute (Config.source (Config.paths config)) = false →
  classify config filePath = None.
Proof.
  intros Habs Hroots Hsource.
  apply Forall_cons in Hroots as [[? ?] Hroots].
  apply Forall_cons in Hroots as [[? ?] Hroots].
  apply Forall_cons in Hroots as [[? ?] _].
  unfold classify. rewrite !startsWith_relative by done.
  rewrite decide_False; [done|].
  intros Heq. apply dirname_absolute in Habs. congruence.
Qed.

Lemma unclassified_empty config cwd parseMarkdownFile readFile localeCompare
    transliterate validAuthority files :
  Forall (λ filePath, classify config filePath = None) files →
  (processContent config cwd parseMarkdownFile readFile localeCompare transliterate validAuthority files).1
  = emptyContent.
Proof.
  intros Hnone. rewrite processContent_sorted.
  assert (Hempty : ∀ pick : string → option ContentItem,
    (∀ filePath, classify config filePath = None → pick filePath = None) →
    omap pick files = []).
  { intros pick Hpick. induction Hnone as [|f files Hf _ IH]; [done|].
    simpl. by rewrite (Hpick f Hf). }
  unfold discovered. simpl.
  rewrite !Hempty; [done|..]; intros filePath Hf;
    unfold draftOf, pageOf, postOf, builtAs; by rewrite Hf.
Qed.

Lemma normalizeParts_app above acc l1 l2 :
  Forall (λ c, c = "" ∨ plainComponent c = true) l1 →
  Path.normalizeParts above acc (l1 ++ l2)
  = Path.normalizeParts above (reverse (filter (λ c, c ≠ "") l1) ++ acc) l2.
Proof.
  intros Hparts. revert acc.
  induction Hparts as [|p parts Hp _ IH]; intros acc; [done|].
  rewrite <- app_comm_cons. cbn [Path.normalizeParts].
  destruct Hp as [->|Hp].
  - rewrite decide_True by done. by rewrite IH, filter_empty_head.
  - apply plainComponent_inv in Hp as (?&?&?&_).
    rewrite !decide_False by done.
    rewrite IH, filter_cons_True, reverse_cons, <- app_assoc by done.
    done.
Qed.

(** [path.resolve] of a normal absolute directory and [.] is that
    directory. *)
Lemma resolve_dot cwd segs :
  segs ≠ [] →
  Forall (λ c, plainComponent c = true) segs →
  Path.resolve cwd ["/" +:+ Js.join "/" segs; "."] = "/" +:+ Js.join "/" segs.
Proof.
  intros Hne Hsegs. unfold Path.resolve.
  change (reverse ["/" +:+ Js.join "/" segs; "."])
    with ["."; "/" +:+ Js.join "/" segs].
  cbn [Path.resolveFrom]. rewrite decide_False by done.
  change (Path.isAbsolute ".") with false. cbn match.
  rewrite decide_False by done.
  change (Path.isAbsolute ("/" +:+ Js.join "/" segs)) with true.
  cbn [negb]. unfold Path.normalizeString.
  assert (Hp : ("/" +:+ Js.join "/" segs) +:+ "/" +:+ "." +:+ "/" +:+ ""
               = String "/" (closeSegments segs +:+ "./")).
  { rewrite <- (join_closeSegments segs Hne). simpl.
    by rewrite !app_assoc'. }
  rewrite Hp. clear Hp.
  cbn [Js.split]. rewrite Ascii.eqb_refl, split_closeSegments by done.
  change (Js.split "/" "./") with ["."; ""].
  change ("" :: segs ++ ["."; ""]) with (("" :: segs) ++ ["."; ""]).
  rewrite normalizeParts_app.
  2:{ constructor; [by left|]. eapply Forall_impl; [exact Hsegs|]. by right. }
  rewrite filter_empty_head, filter_plain by done.
  cbn [Path.normalizeParts]. rewrite decide_False by done.
  rewrite decide_True by done. rewrite decide_True by done.
  by rewrite app_nil_r, reverse_involutive.
Qed.

Section LoadFacts.
Variable cwd : string.
Variable readFile : string → FsResult.
Variable jsonParse : string → Result Value.
Variable jsonStringify : Value → string.
Variable invalidArgError : Value → string.
Variable nullAccessError : string → string.

Abbreviation load' :=
  (loadConfig cwd readFile jsonParse jsonStringify invalidArgError
     nullAccessError).
Abbreviation configFile configPath baseDir :=
  (Path.resolve cwd [baseDir; configPath]).

(** X20. When the configuration file does not exist, [loadConfig] warns
    and returns [DEFAULT_CONFIG] as it is: its paths are not resolved, the
    source is [.] and the posts directory [posts].  With that
    configuration [processContent] classifies no absolute path, so every
    file that the search returns is skipped and the three collections are
    empty. *)
Theorem X20_missing_file_gives_unresolved_defaults configPath baseDir message :
  readFile (configFile configPath baseDir) = FsError "ENOENT" message →
  load' configPath baseDir
  = (Ok DEFAULT_CONFIG,
     [Console log
        ("Attempting to load configuration from: "
         +:+ configFile configPath baseDir);
      Console warn
        ("Configuration file not found at " +:+ configFile configPath baseDir
         +:+ ". Using default configuration.")])
  ∧ siteConfig DEFAULT_CONFIG
    = Some {| Config.paths :=
                {| Config.source := ".";
                   Config.output := "output";
                   Config.posts := "posts";
                   Config.pages := "pages";
                   Config.drafts := "drafts" |} |}
  ∧ ∀ config, siteConfig DEFAULT_CONFIG = Some config →
      ∀ processCwd parseMarkdownFile readContent localeCompare transliterate
        validAuthority files,
        Forall (λ filePath, Path.isAbsolute filePath = true) files →
        (processContent config processCwd parseMarkdownFile readContent
           localeCompare transliterate validAuthority files).1
        = emptyContent
        ∧ Forall (λ filePath, classify config filePath = None) files.
Proof.
  intros Hread. split; [|split].
  - unfold loadConfig. rewrite Hread. rewrite decide_True by done.
    assert (Hmerge : mergeConfigs nullAccessError (VObject ∅) DEFAULT_CONFIG
                     = Ok DEFAULT_CONFIG) by (by vm_compute).
    by rewrite Hmerge.
  - by vm_compute.
  - intros config Hconfig. vm_compute in Hconfig. injection Hconfig as <-.
    intros processCwd parseMarkdownFile readContent localeCompare
      transliterate validAuthority files Habs.
    assert (Hnone : Forall
              (λ filePath,
                 classify
                   {| Config.paths :=
                        {| Config.source := ".";
                           Config.output := "output";
                           Config.posts := "posts";
                           Config.pages := "pages";
                           Config.drafts := "drafts" |} |} filePath = None)
              files).
    { eapply Forall_impl; [exact Habs|]. intros filePath Hf.
      apply classify_relative_roots; [done| |done].
      by repeat constructor. }
    split; [by apply unclassified_empty|done].
Qed.


Lemma resolveUnder_lookup sourceDir (paths : gmap string Value) key :
  map_imap (λ key v, Some (resolveUnder cwd sourceDir key v)) paths !! key
  = resolveUnder cwd sourceDir key <$> paths !! key.
Proof. rewrite map_lookup_imap. by destruct (paths !! key). Qed.

(** What [loadConfig] returns for a configuration that [mergeConfigs]
    accepts and whose [source] and [output] are strings. *)
Lemma load_resolved configPath baseDir userConfigData userConfig merged
    source output :
  readFile (configFile configPath baseDir) = FsOk userConfigData →
  jsonParse userConfigData = Ok userConfig →
  mergeConfigs nullAccessError userConfig DEFAULT_CONFIG = Ok merged →
  member (spread (memberOf merged "paths")) "source" = VString source →
  member (spread (memberOf merged "paths")) "output" = VString output →
  ∃ resolved,
    load' configPath baseDir
    = (Ok (VObject (<["paths" := VObject resolved]> (spread merged))),
       [Console log
          ("Attempting to load configuration from: "
           +:+ configFile configPath baseDir);
        Console log "Configuration loaded successfully:";
        Console log
          (jsonStringify
             (VObject (<["paths" := VObject resolved]> (spread merged))))])
    ∧ resolved !! "source"
      = Some (VString (Path.resolve cwd [baseDir; source]))
    ∧ resolved !! "output"
      = Some (VString (Path.resolve cwd [baseDir; output]))
    ∧ ∀ key, key ≠ "source" → key ≠ "output" →
        resolved !! key
        = match spread (memberOf merged "paths") !! key with
          | Some (VString s) =>
              Some (VString
                      (Path.resolve cwd
                         [Path.resolve cwd [baseDir; source]; s]))
          | other => other
          end.
Proof.
  intros Hread Hparse Hmerge Hsource Houtput.
  unfold loadConfig. rewrite Hread, Hparse, Hmerge. cbn [mbind Result_bind].
  unfold resolvePaths. rewrite Hsource. cbn [resolveValue mbind Result_bind].
  set (sourceDir := Path.resolve cwd [baseDir; source]).
  set (paths := spread (memberOf merged "paths")) in *.
  assert (Hout : member
            (map_imap (λ key v, Some (resolveUnder cwd sourceDir key v))
               (<["source" := VString sourceDir]> paths)) "output"
          = VString output).
  { unfold member in *. rewrite resolveUnder_lookup, lookup_insert_ne by done.
    destruct (paths !! "output") as [v|]; [|done].
    simpl in *. by subst v. }
  rewrite Hout. cbn [resolveValue mbind Result_bind].
  eexists. split; [done|].
  split.
  { rewrite lookup_insert_ne, resolveUnder_lookup, lookup_insert_eq by done.
    done. }
  split; [by rewrite lookup_insert_eq|].
  intros key Hs Ho.
  rewrite lookup_insert_ne, resolveUnder_lookup, lookup_insert_ne by done.
  unfold resolveUnder.
  rewrite !bool_decide_eq_true_2 by done. cbn [andb].
  by destruct (paths !! key) as [[]|].
Qed.

(** X21. When the file is read, parsed and merged, [loadConfig] returns the
    merged configuration with its paths resolved: [source] and [output]
    against the base directory, every other path that is a string against
    the resolved source, and what is not a string as it is; all of them are
    absolute when the working directory is.  A [source] or an [output]
    that is not a string makes [path.resolve] throw, which is reported as a
    failed validation. *)
Theorem X21_paths_are_resolved configPath baseDir userConfigData userConfig
    merged :
  readFile (configFile configPath baseDir) = FsOk userConfigData →
  jsonParse userConfigData = Ok userConfig →
  mergeConfigs nullAccessError userConfig DEFAULT_CONFIG = Ok merged →
  (∀ source output,
     member (spread (memberOf merged "paths")) "source" = VString source →
     member (spread (memberOf merged "paths")) "output" = VString output →
     ∃ resolved,
       (load' configPath baseDir).1
       = Ok (VObject (<["paths" := VObject resolved]> (spread merged)))
       ∧ resolved !! "source"
         = Some (VString (Path.resolve cwd [baseDir; source]))
       ∧ resolved !! "output"
         = Some (VString (Path.resolve cwd [baseDir; output]))
       ∧ (∀ key, key ≠ "source" → key ≠ "output" →
            resolved !! key
            = match spread (memberOf merged "paths") !! key with
              | Some (VString s) =>
                  Some (VString
                          (Path.resolve cwd
                             [Path.resolve cwd [baseDir; source]; s]))
              | other => other
              end)
       ∧ (Path.isAbsolute cwd = true →
          ∀ key s, resolved !! key = Some (VString s) →
                   Path.isAbsolute s = true))
  ∧ (isString (member (spread (memberOf merged "paths")) "source") = false →
     (load' configPath baseDir).1
     = Throw ("Configuration validation failed: "
              +:+ invalidArgError
                    (member (spread (memberOf merged "paths")) "source")))
  ∧ (isString (member (spread (memberOf merged "paths")) "source") = true →
     isString (member (spread (memberOf merged "paths")) "output") = false →
     (load' configPath baseDir).1
     = Throw ("Configuration validation failed: "
              +:+ invalidArgError
                    (member (spread (memberOf merged "paths")) "output"))).
Proof.
  intros Hread Hparse Hmerge. split; [|split].
  - intros source output Hsource Houtput.
    destruct (load_resolved configPath baseDir userConfigData userConfig
                merged source output Hread Hparse Hmerge Hsource Houtput)
      as (resolved&Hload&Hs&Ho&Hrest).
    exists resolved. rewrite Hload. do 4 (split; [done|]).
    intros Hcwd key s Hkey.
    destruct (decide (key = "source")) as [->|Hns].
    { rewrite Hs in Hkey. injection Hkey as <-. by apply resolve_isAbsolute. }
    destruct (decide (key = "output")) as [->|Hno].
    { rewrite Ho in Hkey. injection Hkey as <-. by apply resolve_isAbsolute. }
    rewrite (Hrest key Hns Hno) in Hkey.
    destruct (spread (memberOf merged "paths") !! key) as [[]|];
      simplify_eq. by apply resolve_isAbsolute.
  - intros Hsource. unfold loadConfig.
    rewrite Hread, Hparse, Hmerge. cbn [mbind Result_bind].
    unfold resolvePaths.
    by destruct (member (spread (memberOf merged "paths")) "source").
  - intros Hsource Houtput. unfold loadConfig.
    rewrite Hread, Hparse, Hmerge. cbn [mbind Result_bind].
    unfold resolvePaths.
    destruct (member (spread (memberOf merged "paths")) "source")
      as [| | | |source| | |] eqn:Hs; try done.
    cbn [resolveValue mbind Result_bind].
    set (sourceDir := Path.resolve cwd [baseDir; source]).
    assert (Hout : member
              (map_imap (λ key v, Some (resolveUnder cwd sourceDir key v))
                 (<["source" := VString sourceDir]>
                    (spread (memberOf merged "paths")))) "output"
            = member (spread (memberOf merged "paths")) "output").
    { unfold member. rewrite resolveUnder_lookup, lookup_insert_ne by done.
      by destruct (spread (memberOf merged "paths") !! "output"). }
    rewrite Hout.
    by destruct (member (spread (memberOf merged "paths")) "output").
Qed.


(** X22. The failures of [loadConfig]: when it throws it has written the
    one line of the attempt, and the message is that of the read error
    (which is not [ENOENT]) after [Failed to read configuration file at],
    that of [JSON.parse] after [Failed to parse configuration file at], or
    that of [mergeConfigs] or of the path resolution after
    [Configuration validation failed].  A missing file is no failure. *)
Theorem X22_load_failures configPath baseDir failure :
  (load' configPath baseDir).1 = Throw failure →
  (load' configPath baseDir).2
  = [Console log
       ("Attempting to load configuration from: "
        +:+ configFile configPath baseDir)]
  ∧ ((∃ code message,
        readFile (configFile configPath baseDir) = FsError code message
        ∧ code ≠ "ENOENT"
        ∧ failure
          = "Failed to read configuration file at "
            +:+ configFile configPath baseDir +:+ ": " +:+ message)
     ∨ (∃ userConfigData message,
          readFile (configFile configPath baseDir) = FsOk userConfigData
          ∧ jsonParse userConfigData = Throw message
          ∧ failure
            = "Failed to parse configuration file at "
              +:+ configFile configPath baseDir +:+ " as JSON: " +:+ message)
     ∨ (∃ userConfigData userConfig message,
          readFile (configFile configPath baseDir) = FsOk userConfigData
          ∧ jsonParse userConfigData = Ok userConfig
          ∧ failure = "Configuration validation failed: " +:+ message
          ∧ (mergeConfigs nullAccessError userConfig DEFAULT_CONFIG
             = Throw message
             ∨ ∃ merged,
                 mergeConfigs nullAccessError userConfig DEFAULT_CONFIG
                 = Ok merged
                 ∧ resolvePaths cwd invalidArgError baseDir merged
                   = Throw message))).
Proof.
  unfold loadConfig.
  destruct (readFile (configFile configPath baseDir))
    as [userConfigData|code message] eqn:Hread.
  - destruct (jsonParse userConfigData) as [userConfig|message] eqn:Hparse.
    + destruct (mergeConfigs nullAccessError userConfig DEFAULT_CONFIG)
        as [merged|message] eqn:Hmerge; cbn [mbind Result_bind].
      * destruct (resolvePaths cwd invalidArgError baseDir merged)
          as [finalConfig|message] eqn:Hresolve; [done|].
        simpl. intros [= <-]. split; [done|]. right. right.
        exists userConfigData, userConfig, message.
        do 3 (split; [done|]). right. by exists merged.
      * simpl. intros [= <-]. split; [done|]. right. right.
        exists userConfigData, userConfig, message.
        do 3 (split; [done|]). by left.
    + simpl. intros [= <-]. split; [done|]. right. left.
      by exists userConfigData, message.
  - destruct (decide (code = "ENOENT")) as [->|Hcode].
    + assert (Hmerge : mergeConfigs nullAccessError (VObject ∅) DEFAULT_CONFIG
                       = Ok DEFAULT_CONFIG) by (by vm_compute).
      by rewrite Hmerge.
    + simpl. intros [= <-]. split; [done|]. left. by exists code, message.
Qed.

(** X23. The default layout: for a base directory [/d1/.../dn] of plain
    components and a configuration file that is an object without [paths]
    (and with a usable title and base URL), the configuration that
    [loadConfig] returns has the base directory as source and [output],
    [posts], [pages] and [drafts] directly under it. *)
Theorem X23_default_layout configPath segs userConfigData userConfig :
  segs ≠ [] →
  Forall (λ c, plainComponent c = true) segs →
  readFile (configFile configPath ("/" +:+ Js.join "/" segs))
  = FsOk userConfigData →
  jsonParse userConfigData = Ok (VObject userConfig) →
  userConfig !! "paths" = None →
  textSetting userConfig "title" = true →
  textSetting userConfig "baseUrl" = true →
  ∃ finalConfig,
    (load' configPath ("/" +:+ Js.join "/" segs)).1 = Ok finalConfig
    ∧ siteConfig finalConfig
      = Some {| Config.paths :=
                  {| Config.source := "/" +:+ Js.join "/" segs;
                     Config.output := "/" +:+ Js.join "/" segs +:+ "/output";
                     Config.posts := "/" +:+ Js.join "/" segs +:+ "/posts";
                     Config.pages := "/" +:+ Js.join "/" segs +:+ "/pages";
                     Config.drafts := "/" +:+ Js.join "/" segs +:+ "/drafts"
                  |} |}.
Proof.
  intros Hne Hsegs Hread Hparse Hpaths Htitle Hbase.
  pose proof (merge_object nullAccessError userConfig) as Hmerge.
  rewrite Htitle, Hbase in Hmerge. unfold pathSettings in Hmerge.
  unfold member in Hmerge at 3 4. rewrite Hpaths in Hmerge.
  cbn [negb default truthyValue] in Hmerge.
  match type of Hmerge with
  | _ = Ok ?m => set (merged := m) in *
  end.
  assert (Hdefault : ∀ key,
    spread (memberOf merged "paths") !! key
    = spread (memberOf DEFAULT_CONFIG "paths") !! key).
  { intros key. unfold merged. simpl memberOf. unfold member.
    by rewrite lookup_insert_ne, lookup_insert_eq. }
  destruct (load_resolved configPath ("/" +:+ Js.join "/" segs) userConfigData
              (VObject userConfig) merged "." "output" Hread Hparse Hmerge)
    as (resolved&Hload&Hs&Ho&Hrest).
  { unfold member. by rewrite Hdefault. }
  { unfold member. by rewrite Hdefault. }
  eexists. split; [by rewrite Hload|].
  assert (Hunder : ∀ name,
    plainComponent name = true →
    Path.resolve cwd ["/" +:+ Js.join "/" segs; name]
    = "/" +:+ Js.join "/" segs +:+ "/" +:+ name).
  { intros name Hname.
    pose proof (resolve_under_root cwd segs [] name Hne Hsegs
                  (Forall_nil_2 _) Hname) as Hr.
    change (closeSegments [] +:+ name) with name in Hr.
    rewrite Hr. by rewrite !app_assoc'. }
  rewrite resolve_dot in Hs, Hrest by done.
  rewrite Hunder in Ho by done.
  unfold siteConfig. simpl memberOf. unfold member.
  rewrite lookup_insert_eq. simpl spread. unfold stringAt.
  rewrite Hs, Ho, !Hrest, !Hdefault by done.
  change (spread (memberOf DEFAULT_CONFIG "paths") !! "posts")
    with (Some (VString "posts")).
  change (spread (memberOf DEFAULT_CONFIG "paths") !! "pages")
    with (Some (VString "pages")).
  change (spread (memberOf DEFAULT_CONFIG "paths") !! "drafts")
    with (Some (VString "drafts")).
  cbv beta iota. rewrite !Hunder by done. done.
Qed.

End LoadFacts.

(** X17 at the sample: the title and the posts directory of the user, the
    other paths of the defaults. *)
Lemma X17_merge_overrides_witness :
  ∃ merged paths,
    mergeConfigs SampleLoader.nullAccessError SampleLoader.renamed
      DEFAULT_CONFIG
    = Ok (VObject merged)
    ∧ merged !! "title" = Some (VString "Notes")
    ∧ merged !! "baseUrl" = Some (VString "/")
    ∧ merged !! "paths" = Some (VObject paths)
    ∧ paths !! "posts" = Some (VString "articles")
    ∧ paths !! "pages" = Some (VString "pages").
Proof.
  destruct (mergeConfigs SampleLoader.nullAccessError SampleLoader.renamed
              DEFAULT_CONFIG) as [finalConfig|] eqn:Hmerge;
    [|by vm_compute in Hmerge].
  destruct (X17_merge_overrides _ _ _ _ Hmerge)
    as (merged&paths&->&Hother&Hpaths&Hkey&_).
  exists merged, paths. split; [done|].
  split; [rewrite Hother; [by vm_compute|by apply (bool_decide_unpack _)]|].
  split; [rewrite Hother; [by vm_compute|by apply (bool_decide_unpack _)]|].
  split; [done|].
  split; rewrite Hkey; by vm_compute.
Defined.

(** X20 at the sample: no [config.json] in [/empty]; the twelve files of
    the sample site are then all skipped. *)
Lemma X20_missing_file_witness :
  (SampleLoader.loadConfig "config.json" "/empty").1 = Ok DEFAULT_CONFIG
  ∧ ∃ config,
      siteConfig DEFAULT_CONFIG = Some config
      ∧ (processContent config Sample.cwd Sample.parseMarkdownFile
           Sample.readFile Intl.localeCompare Sample.transliterate
              Sample.validAuthority Sample.files).1
        = emptyContent.
Proof.
  destruct (X20_missing_file_gives_unresolved_defaults SampleLoader.cwd
              SampleLoader.readFile SampleLoader.jsonParse
              SampleLoader.jsonStringify SampleLoader.invalidArgError
              SampleLoader.nullAccessError "config.json" "/empty"
              "ENOENT: no such file or directory, open '/empty/config.json'")
    as (Hload&Hconfig&Hempty); [by vm_compute|].
  split; [by rewrite Hload|].
  eexists. split; [exact Hconfig|].
  apply (Hempty _ Hconfig). by repeat constructor.
Defined.

(** X21 at the sample: the paths of the site at [/site]. *)
Lemma X21_paths_are_resolved_witness :
  ∃ finalConfig resolved,
    (SampleLoader.loadConfig "config.json" "/site").1 = Ok finalConfig
    ∧ memberOf finalConfig "paths" = VObject resolved
    ∧ resolved !! "source" = Some (VString "/site")
    ∧ resolved !! "output" = Some (VString "/site/output")
    ∧ resolved !! "layouts" = Some (VString "/site/layouts").
Proof.
  destruct (X21_paths_are_resolved SampleLoader.cwd
              SampleLoader.readFile SampleLoader.jsonParse
              SampleLoader.jsonStringify SampleLoader.invalidArgError
              SampleLoader.nullAccessError "config.json" "/site" "{}"
              (VObject ∅) DEFAULT_CONFIG)
    as (Hresolved&_); [by vm_compute..|].
  destruct (Hresolved "." "output") as (resolved&Hload&Hs&Ho&Hrest&_);
    [by vm_compute..|].
  eexists _, resolved. split; [exact Hload|].
  split; [by vm_compute|].
  split; [rewrite Hs; by vm_compute|].
  split; [rewrite Ho; by vm_compute|].
  rewrite Hrest by done. by vm_compute.
Defined.

(** X22 at the sample: a file that cannot be read, one that is not JSON,
    and one that holds [null]. *)
Lemma X22_load_failures_witness :
  SampleLoader.loadConfig "config.json" "/locked"
  = (Throw
       "Failed to read configuration file at /locked/config.json: EACCES: permission denied, open '/locked/config.json'",
     [Console log
        "Attempting to load configuration from: /locked/config.json"])
  ∧ (SampleLoader.loadConfig "config.json" "/broken").1
    = Throw
        "Failed to parse configuration file at /broken/config.json as JSON: Unexpected end of JSON input"
  ∧ (SampleLoader.loadConfig "config.json" "/null").1
    = Throw
        "Configuration validation failed: Cannot read properties of null (reading 'paths')".
Proof.
  assert (Hlocked : (SampleLoader.loadConfig "config.json" "/locked").1
    = Throw
        "Failed to read configuration file at /locked/config.json: EACCES: permission denied, open '/locked/config.json'")
    by (by vm_compute).
  destruct (X22_load_failures SampleLoader.cwd
              SampleLoader.readFile SampleLoader.jsonParse
              SampleLoader.jsonStringify SampleLoader.invalidArgError
              SampleLoader.nullAccessError "config.json" "/locked" _ Hlocked)
    as [Hout _].
  split; [|split; by vm_compute].
  destruct (SampleLoader.loadConfig "config.json" "/locked") as [r out].
  simpl in *. by rewrite Hlocked, Hout.
Defined.

(** X23 at the sample: the empty [config.json] in [/site] gives the
    configuration of the sample site. *)
Lemma X23_default_layout_witness :
  ∃ finalConfig,
    (SampleLoader.loadConfig "config.json" "/site").1 = Ok finalConfig
    ∧ siteConfig finalConfig = Some Sample.config.
Proof.
  destruct (X23_default_layout SampleLoader.cwd
              SampleLoader.readFile SampleLoader.jsonParse
              SampleLoader.jsonStringify SampleLoader.invalidArgError
              SampleLoader.nullAccessError "config.json" ["site"] "{}" ∅)
    as (finalConfig&Hload&Hconfig);
    [done|by repeat constructor|by vm_compute..|].
  exists finalConfig. split; [exact Hload|].
  rewrite Hconfig. by vm_compute.
Defined.

(** * From the configuration to the addresses of a site *)

Lemma join_segments_app l1 l2 :
  l1 ≠ [] → l2 ≠ [] →
  Js.join "/" (l1 ++ l2) = Js.join "/" l1 +:+ "/" +:+ Js.join "/" l2.
Proof.
  intros H1 H2. destruct l2 as [|last init _] using rev_ind; [done|].
  rewrite app_assoc, !join_snoc, closeSegments_app.
  rewrite <- (join_closeSegments l1 H1). by rewrite !app_assoc'.
Qed.

Lemma split_of_join segs :
  segs ≠ [] → Forall (λ c, plainComponent c = true) segs →
  Js.split "/" (Js.join "/" segs) = segs.
Proof.
  intros Hne Hsegs. destruct segs as [|last init _] using rev_ind; [done|].
  apply Forall_app in Hsegs as [Hinit Hlast%Forall_inv].
  rewrite join_snoc, split_closeSegments by done.
  apply plainComponent_inv in Hlast as (_&_&_&Hlast).
  by rewrite (split_no_sep "/" last Hlast).
Qed.

Lemma filter_nonEmpty_plain l :
  Forall (λ c, plainComponent c = true) l → List.filter Js.nonEmpty l = l.
Proof.
  induction 1 as [|c l Hc _ IH]; [done|].
  apply plainComponent_inv in Hc as (Hne&_). simpl.
  rewrite IH. by destruct c.
Qed.

(** [path.resolve] of one normal absolute path is that path. *)
Lemma resolve_plain cwd segs :
  segs ≠ [] → Forall (λ c, plainComponent c = true) segs →
  Path.resolve cwd ["/" +:+ Js.join "/" segs] = "/" +:+ Js.join "/" segs.
Proof.
  intros Hne Hsegs. unfold Path.resolve.
  change (reverse ["/" +:+ Js.join "/" segs]) with ["/" +:+ Js.join "/" segs].
  cbn [Path.resolveFrom]. rewrite decide_False by done.
  change (Path.isAbsolute ("/" +:+ Js.join "/" segs)) with true.
  cbn [negb]. unfold Path.normalizeString.
  assert (Hp : ("/" +:+ Js.join "/" segs) +:+ "/" +:+ ""
               = String "/" (closeSegments segs +:+ "")).
  { rewrite <- (join_closeSegments segs Hne). simpl.
    by rewrite !app_assoc', !app_empty_r. }
  rewrite Hp. clear Hp.
  cbn [Js.split]. rewrite Ascii.eqb_refl, split_closeSegments by done.
  change (Js.split "/" "") with [""].
  rewrite normalizeParts_plain.
  2:{ constructor; [by left|]. apply Forall_app. split.
      - eapply Forall_impl; [exact Hsegs|]. by right.
      - constructor; [by left|constructor]. }
  rewrite filter_empty_head, filter_app, filter_plain by done.
  rewrite (filter_cons_False _ "") by (by intros []).
  by rewrite filter_nil, app_nil_r.
Qed.

Lemma components_plain segs :
  segs ≠ [] → Forall (λ c, plainComponent c = true) segs →
  Path.components ("/" +:+ Js.join "/" segs) = segs.
Proof.
  intros Hne Hsegs. unfold Path.components.
  change (Js.split Path.sep ("/" +:+ Js.join "/" segs))
    with (Js.split "/" (String "/" (Js.join "/" segs))).
  cbn [Js.split]. rewrite Ascii.eqb_refl, split_of_join by done.
  simpl. by apply filter_nonEmpty_plain.
Qed.

Lemma dropCommon_prefix l r : Path.dropCommon l (l ++ r) = ([], r).
Proof.
  induction l as [|x l IH]; simpl; [by destruct r|].
  by rewrite decide_True.
Qed.

(** [path.relative] from a normal absolute directory to a path below
    it. *)
Lemma relative_below cwd segs rest :
  segs ≠ [] → rest ≠ [] →
  Forall (λ c, plainComponent c = true) segs →
  Forall (λ c, plainComponent c = true) rest →
  Path.relative cwd ("/" +:+ Js.join "/" segs)
    ("/" +:+ Js.join "/" (segs ++ rest))
  = Js.join "/" rest.
Proof.
  intros Hne Hrest Hsegs Hplain.
  assert (Hall : Forall (λ c, plainComponent c = true) (segs ++ rest))
    by by apply Forall_app.
  assert (Hne' : segs ++ rest ≠ []) by by destruct segs.
  unfold Path.relative. rewrite decide_False.
  2:{ intros Heq. apply (f_equal Path.components) in Heq.
      rewrite !components_plain in Heq by done.
      rewrite <- (app_nil_r segs) in Heq at 1.
      by apply app_inv_head in Heq. }
  rewrite !resolve_plain, !components_plain by done.
  by rewrite dropCommon_prefix.
Qed.

Lemma scanBack_path X file :
  plainComponent file = true →
  Path.scanBack (X +:+ "/" +:+ file) = (file, Some X).
Proof.
  intros (Hne&_&_&Hall)%plainComponent_inv.
  unfold Path.scanBack. rewrite !rev_append, app_assoc'.
  assert (Hrev : Js.all (λ c, negb (Ascii.eqb c "/")) (String.rev file) = true)
    by by rewrite all_rev.
  assert (Hdrop : ∀ r, Path.dropSlashes (String.rev file +:+ r)
                       = String.rev file +:+ r).
  { intros r. destruct (String.rev file) as [|c f] eqn:Hf.
    - apply (f_equal String.rev) in Hf. by rewrite rev_involutive in Hf.
    - simpl in *. apply andb_true_iff in Hrev as [Hc _].
      apply negb_true_iff in Hc. unfold Path.sep. by rewrite Hc. }
  rewrite Hdrop. destruct (breakSlash_plain _ Hrev) as [_ Hsome].
  change (String.rev "/") with "/".
  change ("/" +:+ String.rev X) with (String "/" (String.rev X)).
  rewrite Hsome. simpl. by rewrite !rev_involutive.
Qed.

Lemma splitExt_md name :
  name ≠ "" → Path.splitExt (name +:+ ".md") = (name, ".md").
Proof.
  intros Hne. unfold Path.splitExt. rewrite rev_append.
  change (String.rev ".md") with "dm.".
  change (Path.breakDot ("dm." +:+ String.rev name))
    with ("dm", Some (String.rev name)).
  cbv beta iota. rewrite decide_False.
  2:{ intros Hr. apply (f_equal String.rev) in Hr.
      by rewrite rev_involutive in Hr. }
  rewrite decide_False.
  2:{ destruct name as [|a [|b [|c name]]]; try done.
      all: simpl; intros [= _ Hx]; try done.
      all: by destruct name. }
  by rewrite rev_involutive.
Qed.

Lemma plain_with_md name :
  plainComponent name = true → plainComponent (name +:+ ".md") = true.
Proof.
  intros (Hne&_&_&Hall)%plainComponent_inv. unfold plainComponent.
  rewrite all_append, Hall. simpl.
  rewrite !bool_decide_eq_true_2; [by destruct name| |].
  - destruct name as [|a [|b [|c f]]]; done.
  - destruct name as [|a [|b [|c f]]]; done.
Qed.

(** [path.parse] and [path.extname] of a Markdown file in a directory. *)
Lemma parse_md dir name :
  plainComponent name = true →
  dir ≠ "" → Path.isAbsolute dir = false →
  Path.parse (dir +:+ "/" +:+ name +:+ ".md")
  = {| Path.root := ""; Path.dir := dir;
       Path.base := name +:+ ".md"; Path.ext := ".md"; Path.name := name |}
  ∧ Path.extname (dir +:+ "/" +:+ name +:+ ".md") = ".md".
Proof.
  intros Hname Hdne Hdir.
  pose proof (plain_with_md name Hname) as Hfile.
  assert (Hne : name ≠ "") by (by apply plainComponent_inv in Hname as [? _]).
  assert (Hscan : Path.scanBack (dir +:+ "/" +:+ name +:+ ".md")
                  = (name +:+ ".md", Some dir)).
  { by apply (scanBack_path dir (name +:+ ".md")). }
  split.
  - unfold Path.parse.
    assert (Habs : Path.isAbsolute (dir +:+ "/" +:+ name +:+ ".md") = false).
    { destruct dir as [|c dir]; [done|]. exact Hdir. }
    rewrite Habs, Hscan, splitExt_md by done. reflexivity.
  - unfold Path.extname. rewrite Hscan. simpl. by rewrite splitExt_md.
Qed.

Lemma startsWith_app a b : Js.startsWith (a +:+ b) a = true.
Proof.
  induction a as [|c a IH]; simpl; [by destruct b|].
  by rewrite Ascii.eqb_refl.
Qed.

Lemma startsWith_common a b c :
  Js.startsWith (a +:+ b) (a +:+ c) = Js.startsWith b c.
Proof.
  induction a as [|x a IH]; simpl; [done|]. by rewrite Ascii.eqb_refl.
Qed.

Lemma extname_md X name :
  plainComponent name = true →
  Path.extname (X +:+ "/" +:+ name +:+ ".md") = ".md".
Proof.
  intros Hname. unfold Path.extname.
  rewrite (scanBack_path X (name +:+ ".md")) by by apply plain_with_md.
  simpl. rewrite splitExt_md; [done|].
  by apply plainComponent_inv in Hname as [? _].
Qed.

Lemma scanBack_bare file :
  plainComponent file = true → Path.scanBack file = (file, None).
Proof.
  intros (Hne&_&_&Hall)%plainComponent_inv.
  unfold Path.scanBack.
  assert (Hrev : Js.all (λ c, negb (Ascii.eqb c "/")) (String.rev file) = true)
    by by rewrite all_rev.
  assert (Hdrop : Path.dropSlashes (String.rev file) = String.rev file).
  { destruct (String.rev file) as [|c f] eqn:Hf; [done|].
    simpl in *. apply andb_true_iff in Hrev as [Hc _].
    apply negb_true_iff in Hc. unfold Path.sep. by rewrite Hc. }
  rewrite Hdrop. destruct (breakSlash_plain _ Hrev) as [-> _].
  simpl. by rewrite rev_involutive.
Qed.

(** [path.parse] and [path.extname] of a Markdown file without a
    directory. *)
Lemma parse_md_bare name :
  plainComponent name = true →
  Path.parse (name +:+ ".md")
  = {| Path.root := ""; Path.dir := "";
       Path.base := name +:+ ".md"; Path.ext := ".md"; Path.name := name |}
  ∧ Path.extname (name +:+ ".md") = ".md".
Proof.
  intros Hname.
  pose proof (plain_with_md name Hname) as Hfile.
  assert (Hne : name ≠ "") by (by apply plainComponent_inv in Hname as [? _]).
  pose proof (scanBack_bare _ Hfile) as Hscan.
  split.
  - unfold Path.parse.
    rewrite (plain_not_absolute name ".md" Hname), Hscan, splitExt_md by done.
    reflexivity.
  - unfold Path.extname. rewrite Hscan. simpl. by rewrite splitExt_md.
Qed.

(** [path.dirname] of a file in a normal absolute directory. *)
Lemma dirname_of_file segs file :
  segs ≠ [] → Forall (λ c, plainComponent c = true) segs →
  plainComponent file = true →
  Path.dirname ("/" +:+ Js.join "/" segs +:+ "/" +:+ file)
  = "/" +:+ Js.join "/" segs.
Proof.
  intros Hne Hsegs Hfile.
  change ("/" +:+ Js.join "/" segs +:+ "/" +:+ file)
    with (String "/" (Js.join "/" segs +:+ "/" +:+ file)).
  cbn [Path.dirname]. change (Ascii.eqb "/" Path.sep) with true. cbn match.
  rewrite scanBack_path by done. cbn [snd andb].
  rewrite bool_decide_eq_false_2; [done|].
  destruct segs as [|seg segs _] using rev_ind; [done|].
  apply Forall_app in Hsegs as [_ Hseg%Forall_inv].
  apply plainComponent_inv in Hseg as (Hseg&_).
  rewrite join_snoc. intros Hempty.
  by destruct (closeSegments segs), seg.
Qed.

Ltac same_text :=
  first [ reflexivity
        | simpl; rewrite ?app_assoc', ?app_empty_r; simpl; reflexivity ].

Section Addresses.
Variable cwd : string.
Variable parseMarkdownFile : string → Result Markdown.ParsedMarkdown.
Variable readFile : string → Result string.
Variable localeCompare : string → string → Z.
Variable transliterate : string → string.
Variable validAuthority : string → bool.
Variable segs : list string.
Hypothesis segs_nonempty : segs ≠ [].
Hypothesis segs_plain : Forall (λ c, plainComponent c = true) segs.

Abbreviation siteRoot := ("/" +:+ Js.join "/" segs).
Abbreviation site := (layoutAt siteRoot).
Abbreviation itemAt := (processItem site cwd parseMarkdownFile readFile transliterate validAuthority).
Abbreviation siteContent :=
  (processContent site cwd parseMarkdownFile readFile localeCompare transliterate validAuthority).

Lemma below_root rest :
  rest ≠ [] →
  siteRoot +:+ "/" +:+ Js.join "/" rest = "/" +:+ Js.join "/" (segs ++ rest).
Proof.
  intros Hrest. rewrite join_segments_app by done. reflexivity.
Qed.

Lemma relative_of_file rest :
  rest ≠ [] → Forall (λ c, plainComponent c = true) rest →
  Path.relative cwd (Config.source (Config.paths site))
    (siteRoot +:+ "/" +:+ Js.join "/" rest)
  = Js.join "/" rest.
Proof.
  intros Hrest Hplain. rewrite below_root by done.
  by apply relative_below.
Qed.

Lemma output_of_directory dirs :
  Forall (λ c, plainComponent c = true) dirs →
  generateOutputPath site cwd ("/" +:+ closeSegments dirs)
  = siteRoot +:+ "/output" +:+ "/" +:+ closeSegments dirs +:+ "index.html".
Proof.
  intros Hdirs.
  rewrite (outputPath_directory site cwd (segs ++ ["output"]) dirs).
  - same_text.
  - simpl. rewrite join_snoc, <- (join_closeSegments segs segs_nonempty).
    same_text.
  - by destruct segs.
  - apply Forall_app. split; [done|]. by repeat constructor.
  - done.
Qed.

(** X24. The address of a post in the default layout at a source root
    [/d1/.../dn]: the Markdown file [posts/<name>.md] with a valid date, not
    unpublished and without a slug of its own is classified as a post and
    built; its relative path is [posts/<name>.md], its permalink is [/blog/],
    the slug of the name without its date prefix and a slash, and it is
    written to [index.html] in that directory under the output root.  The
    item is in the posts of every run that discovers the file. *)
Theorem X24_address_of_a_post name parsed t :
  plainComponent name = true →
  parseMarkdownFile (siteRoot +:+ "/posts/" +:+ name +:+ ".md") = Ok parsed →
  prop (Markdown.frontMatter parsed) "published" ≠ JsBool false →
  truthy (prop (Markdown.frontMatter parsed) "slug") = false →
  prop (Markdown.frontMatter parsed) "date" = JsDate (Some t) →
  Slugify.slugify transliterate (stripDatePrefix name) ≠ "" →
  ∃ item,
    itemAt (siteRoot +:+ "/posts/" +:+ name +:+ ".md") post = (Some item, [])
    ∧ classify site (siteRoot +:+ "/posts/" +:+ name +:+ ".md")
      = Some (found post)
    ∧ relativePath item = "posts/" +:+ name +:+ ".md"
    ∧ permalink item
      = "/blog/" +:+ Slugify.slugify transliterate (stripDatePrefix name) +:+ "/"
    ∧ outputPath item
      = siteRoot +:+ "/output/blog/"
        +:+ Slugify.slugify transliterate (stripDatePrefix name) +:+ "/index.html"
    ∧ date item = Some t
    ∧ ∀ l1 l2,
        item ∈ posts (siteContent
                        (l1 ++ (siteRoot +:+ "/posts/" +:+ name +:+ ".md")
                            :: l2)).1.
Proof.
  intros Hname Hparse Hpub Hslug Hdate Hne.
  set (slug := Slugify.slugify transliterate (stripDatePrefix name)) in *.
  set (filePath := siteRoot +:+ "/posts/" +:+ name +:+ ".md") in *.
  pose proof (plain_with_md name Hname) as Hfile.
  assert (Hpath : filePath
                  = siteRoot +:+ "/" +:+ Js.join "/" ["posts"; name +:+ ".md"]).
  { unfold filePath. same_text. }
  assert (Hrel : Path.relative cwd (Config.source (Config.paths site)) filePath
                 = "posts/" +:+ name +:+ ".md").
  { rewrite Hpath, relative_of_file; [done|done|].
    by repeat constructor. }
  assert (Hext : Path.extname filePath = ".md").
  { unfold filePath.
    change (siteRoot +:+ "/posts/" +:+ name +:+ ".md")
      with (String "/" (Js.join "/" segs +:+ "/posts/" +:+ name +:+ ".md")).
    replace (Js.join "/" segs +:+ "/posts/" +:+ name +:+ ".md")
      with ((Js.join "/" segs +:+ "/posts") +:+ "/" +:+ name +:+ ".md")
      by same_text.
    change (String "/" ((Js.join "/" segs +:+ "/posts") +:+ "/" +:+ name
                        +:+ ".md"))
      with (String "/" (Js.join "/" segs +:+ "/posts") +:+ "/" +:+ name
            +:+ ".md").
    by apply extname_md. }
  destruct (parse_md "posts" name Hname) as [Hparsed Hrelext]; [done..|].
  change ("posts" +:+ "/" +:+ name +:+ ".md")
    with ("posts/" +:+ name +:+ ".md") in Hparsed, Hrelext.
  assert (Hs : permalinkSlug transliterate ("posts/" +:+ name +:+ ".md")
                 (Markdown.frontMatter parsed) post = Ok slug).
  { unfold permalinkSlug. rewrite Hslug, decide_True by done.
    by rewrite Hparsed. }
  assert (Hperm : generatePermalink site transliterate validAuthority ("posts/" +:+ name +:+ ".md")
                    (Markdown.frontMatter parsed) post
                  = Ok ("/blog/" +:+ slug +:+ "/")).
  { rewrite (generatePermalink_closed site transliterate validAuthority _ _ _ slug
               Hs)
      by (by repeat constructor).
    f_equal. unfold slugPart, directoryLike.
    rewrite (bool_decide_eq_false_2 (post = page)) by done.
    rewrite decide_False by done. rewrite Hrelext.
    rewrite (bool_decide_eq_true_2 (Js.toLowerCase ".md" = ".md")) by done.
    rewrite orb_true_r. simpl. done. }
  assert (Hslugseg : isSlugSegment slug = true).
  { unfold isSlugSegment.
    rewrite (permalinkSlug_slugChars _ _ _ _ _ Hs), andb_true_r.
    by destruct slug. }
  assert (Hitem : itemAt filePath post
    = (Some
         (withDate
            {| id := "posts/" +:+ name +:+ ".md";
               sourcePath := filePath;
               relativePath := "posts/" +:+ name +:+ ".md";
               fileType := markdown;
               isDraft := false;
               frontMatter := Markdown.frontMatter parsed;
               rawContent := Markdown.markdownContent parsed;
               htmlContent := Markdown.htmlContent parsed;
               permalink := "/blog/" +:+ slug +:+ "/";
               outputHref := "";
               outputPath :=
                 generateOutputPath site cwd ("/blog/" +:+ slug +:+ "/");
               date := None |} (Some t)), [])).
  { rewrite (processItem_markdown site cwd parseMarkdownFile readFile transliterate validAuthority
               filePath post parsed); [|by rewrite Hext|done].
    rewrite Hrel, Hperm, Hdate.
    rewrite bool_decide_eq_false_2 by done. cbn [andb].
    by rewrite decide_True. }
  assert (Hclass : classify site filePath = Some (found post)).
  { unfold classify. simpl Config.posts.
    replace filePath with ((siteRoot +:+ "/posts") +:+ "/" +:+ name +:+ ".md").
    - by rewrite startsWith_app.
    - unfold filePath. same_text. }
  eexists. split; [exact Hitem|]. split; [exact Hclass|].
  split; [done|]. split; [done|]. split.
  { cbn [outputPath withDate].
    change ("/blog/" +:+ slug +:+ "/")
      with ("/" +:+ closeSegments ["blog"; slug]).
    rewrite output_of_directory; [same_text|].
    repeat constructor. by apply slugSegment_plain. }
  split; [done|].
  intros l1 l2. apply elem_of_posts. exists filePath.
  split; [apply elem_of_app; right; left|].
  unfold postOf, builtAs. rewrite decide_True by done.
  simpl processedAs. by rewrite Hitem.
Qed.


Lemma filter_absent (x : string) (l : list string) :
  x ∉ l → filter (λ y, y ≠ x) l = l.
Proof.
  induction l as [|y l IH]; [done|].
  intros [Hy Hl]%not_elem_of_cons.
  rewrite filter_cons_True by done. by rewrite IH.
Qed.

Lemma kept_directories dirs name :
  Forall (λ c, plainComponent c = true) dirs → "pages" ∉ dirs →
  plainComponent name = true →
  relevantSegmentsOf site
    (Js.join "/" ("pages" :: dirs) +:+ "/" +:+ name +:+ ".md")
  = dirs.
Proof.
  intros Hdirs Hpages Hname.
  assert (Hall : Forall (λ c, plainComponent c = true) ("pages" :: dirs))
    by by constructor.
  unfold relevantSegmentsOf, dirSegmentsOf.
  destruct (parse_md (Js.join "/" ("pages" :: dirs)) name Hname) as [-> _].
  { destruct dirs; done. }
  { destruct dirs; done. }
  cbn [Path.dir]. change Path.sep with "/"%char.
  rewrite split_of_join, filter_plain by done.
  assert (Hbase : Path.basename (Config.pages (Config.paths site)) = "pages").
  { unfold Path.basename.
    assert (Hscan : Path.scanBack (Config.pages (Config.paths site))
                    = ("pages", Some siteRoot))
      by (by apply (scanBack_path siteRoot "pages")).
    by rewrite Hscan. }
  rewrite Hbase. rewrite filter_cons_False by (by intros []).
  by apply filter_absent.
Qed.

(** X25. The address of a page in the default layout: the Markdown file
    [pages/<dirs>/<name>.md], whose directories are runs of [[a-z0-9-]] none
    of which is named [pages], not unpublished and without a slug of its
    own, is classified as a page and built; its permalink is the
    directories followed by the slug of the name, each with a slash, the
    slug being left out when it is [index] or empty; it is written to
    [index.html] in that directory under the output root, and it is in the
    pages of every run that discovers the file. *)
Theorem X25_address_of_a_page dirs name parsed :
  Forall (λ seg, isSlugSegment seg = true) dirs →
  "pages" ∉ dirs →
  plainComponent name = true →
  parseMarkdownFile
    (siteRoot +:+ "/pages/" +:+ closeSegments dirs +:+ name +:+ ".md")
  = Ok parsed →
  prop (Markdown.frontMatter parsed) "published" ≠ JsBool false →
  truthy (prop (Markdown.frontMatter parsed) "slug") = false →
  ∃ item,
    itemAt (siteRoot +:+ "/pages/" +:+ closeSegments dirs +:+ name +:+ ".md")
      page
    = (Some item, [])
    ∧ classify site
        (siteRoot +:+ "/pages/" +:+ closeSegments dirs +:+ name +:+ ".md")
      = Some (found page)
    ∧ relativePath item = "pages/" +:+ closeSegments dirs +:+ name +:+ ".md"
    ∧ permalink item
      = "/" +:+ closeSegments
                  (dirs ++ (if bool_decide (Slugify.slugify transliterate name = "index")
                               || bool_decide (Slugify.slugify transliterate name = "")
                            then [] else [Slugify.slugify transliterate name]))
    ∧ outputPath item
      = siteRoot +:+ "/output" +:+ permalink item +:+ "index.html"
    ∧ ∀ l1 l2,
        item ∈ pages
                 (siteContent
                    (l1 ++ (siteRoot +:+ "/pages/" +:+ closeSegments dirs
                            +:+ name +:+ ".md") :: l2)).1.
Proof.
  intros Hdirs Hpages Hname Hparse Hpub Hslug.
  set (slug := Slugify.slugify transliterate name) in *.
  set (filePath :=
         siteRoot +:+ "/pages/" +:+ closeSegments dirs +:+ name +:+ ".md") in *.
  set (rel := "pages/" +:+ closeSegments dirs +:+ name +:+ ".md").
  pose proof (plain_with_md name Hname) as Hfile.
  assert (Hplain : Forall (λ c, plainComponent c = true) dirs).
  { eapply Forall_impl; [exact Hdirs|]. apply slugSegment_plain. }
  assert (Hjoin : Js.join "/" ("pages" :: dirs ++ [name +:+ ".md"]) = rel).
  { change ("pages" :: dirs ++ [name +:+ ".md"])
      with (("pages" :: dirs) ++ [name +:+ ".md"]).
    rewrite join_snoc. unfold rel. same_text. }
  assert (Hdir : rel = Js.join "/" ("pages" :: dirs) +:+ "/" +:+ name +:+ ".md").
  { rewrite <- Hjoin.
    change ("pages" :: dirs ++ [name +:+ ".md"])
      with (("pages" :: dirs) ++ [name +:+ ".md"]).
    rewrite join_segments_app by done. reflexivity. }
  assert (Hpath : filePath
                  = siteRoot +:+ "/"
                    +:+ Js.join "/" ("pages" :: dirs ++ [name +:+ ".md"])).
  { rewrite Hjoin. unfold filePath, rel. same_text. }
  assert (Hrel : Path.relative cwd (Config.source (Config.paths site)) filePath
                 = rel).
  { rewrite Hpath, relative_of_file; [done|done|].
    constructor; [done|]. apply Forall_app. split; [done|].
    by constructor. }
  assert (Hext : Path.extname filePath = ".md").
  { rewrite Hpath.
    change ("pages" :: dirs ++ [name +:+ ".md"])
      with (("pages" :: dirs) ++ [name +:+ ".md"]).
    rewrite join_segments_app by done.
    replace (siteRoot +:+ "/" +:+ Js.join "/" ("pages" :: dirs) +:+ "/"
             +:+ Js.join "/" [name +:+ ".md"])
      with ((siteRoot +:+ "/" +:+ Js.join "/" ("pages" :: dirs)) +:+ "/"
            +:+ name +:+ ".md") by same_text.
    by apply extname_md. }
  destruct (parse_md (Js.join "/" ("pages" :: dirs)) name Hname)
    as [Hparsed Hrelext].
  { destruct dirs; done. }
  { destruct dirs; done. }
  rewrite <- Hdir in Hparsed, Hrelext.
  assert (Hs : permalinkSlug transliterate rel (Markdown.frontMatter parsed) page = Ok slug).
  { unfold permalinkSlug. rewrite Hslug, decide_False by done.
    by rewrite Hparsed. }
  assert (Hlead : leadingSegments site rel page = dirs).
  { cbn [leadingSegments]. rewrite Hdir. by apply kept_directories. }
  assert (Hperm : generatePermalink site transliterate validAuthority rel (Markdown.frontMatter parsed) page
                  = Ok ("/" +:+ closeSegments
                          (dirs ++ (if bool_decide (slug = "index")
                                       || bool_decide (slug = "")
                                    then [] else [slug])))).
  { rewrite (generatePermalink_closed site transliterate validAuthority _ _ _ slug
               Hs)
      by (by rewrite Hlead).
    rewrite Hlead. f_equal. unfold slugPart, directoryLike.
    rewrite (bool_decide_eq_true_2 (page = page)) by done. cbn [andb].
    rewrite Hrelext.
    rewrite (bool_decide_eq_true_2 (Js.toLowerCase ".md" = ".md")) by done.
    rewrite orb_true_r.
    destruct (bool_decide (slug = "index")); cbn [orb];
      [by rewrite app_nil_r, app_empty_r|].
    destruct (decide (slug = "")) as [Hempty|Hfull].
    - rewrite bool_decide_eq_true_2 by done.
      by rewrite app_nil_r, app_empty_r.
    - rewrite bool_decide_eq_false_2 by done.
      rewrite closeSegments_app. same_text. }
  set (kept := dirs ++ (if bool_decide (slug = "index")
                           || bool_decide (slug = "")
                        then [] else [slug])) in *.
  assert (Hkept : Forall (λ c, plainComponent c = true) kept).
  { unfold kept. apply Forall_app. split; [done|].
    destruct (bool_decide (slug = "index")); [constructor|].
    case_bool_decide as Hempty; [constructor|].
    repeat constructor. apply slugSegment_plain. unfold isSlugSegment.
    rewrite (permalinkSlug_slugChars _ _ _ _ _ Hs), andb_true_r.
    by destruct slug. }
  assert (Hitem : itemAt filePath page
    = (Some
         {| id := rel;
            sourcePath := filePath;
            relativePath := rel;
            fileType := markdown;
            isDraft := false;
            frontMatter := Markdown.frontMatter parsed;
            rawContent := Markdown.markdownContent parsed;
            htmlContent := Markdown.htmlContent parsed;
            permalink := "/" +:+ closeSegments kept;
            outputHref := "";
            outputPath :=
              generateOutputPath site cwd ("/" +:+ closeSegments kept);
            date := None |}, [])).
  { rewrite (processItem_markdown site cwd parseMarkdownFile readFile transliterate validAuthority
               filePath page parsed); [|by rewrite Hext|done].
    rewrite Hrel, Hperm.
    rewrite bool_decide_eq_false_2 by done. cbn [andb].
    by rewrite decide_False. }
  assert (Hclass : classify site filePath = Some (found page)).
  { assert (Hunder : ∀ root,
      Js.startsWith filePath (siteRoot +:+ root)
      = Js.startsWith
          ("/pages/" +:+ closeSegments dirs +:+ name +:+ ".md") root).
    { intros root. unfold filePath. apply startsWith_common. }
    unfold classify.
    change (Config.posts (Config.paths site)) with (siteRoot +:+ "/posts").
    change (Config.drafts (Config.paths site)) with (siteRoot +:+ "/drafts").
    change (Config.pages (Config.paths site)) with (siteRoot +:+ "/pages").
    by rewrite !Hunder. }
  eexists. split; [exact Hitem|]. split; [exact Hclass|].
  split; [done|]. split; [done|]. split.
  { cbn [outputPath permalink]. rewrite output_of_directory by done.
    same_text. }
  intros l1 l2. apply elem_of_pages. exists filePath.
  split; [apply elem_of_app; right; left|].
  unfold pageOf, builtAs. rewrite decide_True by done.
  simpl processedAs. by rewrite Hitem.
Qed.

(** X26. The address of a file at the source root in the default layout:
    the Markdown file [<name>.md] directly in the source root, whose name
    does not begin with the text [posts], [drafts] or [pages], not
    unpublished and without a slug of its own, is classified as a root page
    and built as a page; its permalink is the slug of the name between
    slashes, and the root [/] when the slug is [index] or empty; it is
    written to [index.html] in that directory under the output root, and it
    is in the pages of every run that discovers the file. *)
Theorem X26_address_of_a_root_page name parsed :
  plainComponent name = true →
  Forall (λ dir, Js.startsWith (name +:+ ".md") dir = false)
         ["posts"; "drafts"; "pages"] →
  parseMarkdownFile (siteRoot +:+ "/" +:+ name +:+ ".md") = Ok parsed →
  prop (Markdown.frontMatter parsed) "published" ≠ JsBool false →
  truthy (prop (Markdown.frontMatter parsed) "slug") = false →
  ∃ item,
    itemAt (siteRoot +:+ "/" +:+ name +:+ ".md") page = (Some item, [])
    ∧ classify site (siteRoot +:+ "/" +:+ name +:+ ".md") = Some root_page
    ∧ relativePath item = name +:+ ".md"
    ∧ permalink item
      = "/" +:+ closeSegments
                  (if bool_decide (Slugify.slugify transliterate name = "index")
                      || bool_decide (Slugify.slugify transliterate name = "")
                   then [] else [Slugify.slugify transliterate name])
    ∧ outputPath item
      = siteRoot +:+ "/output" +:+ permalink item +:+ "index.html"
    ∧ ∀ l1 l2,
        item ∈ pages
                 (siteContent
                    (l1 ++ (siteRoot +:+ "/" +:+ name +:+ ".md") :: l2)).1.
Proof.
  intros Hname Hprefix Hparse Hpub Hslug.
  set (slug := Slugify.slugify transliterate name) in *.
  set (filePath := siteRoot +:+ "/" +:+ name +:+ ".md") in *.
  set (rel := name +:+ ".md").
  pose proof (plain_with_md name Hname) as Hfile.
  assert (Hrel : Path.relative cwd (Config.source (Config.paths site)) filePath
                 = rel).
  { exact (relative_of_file [rel] ltac:(done) ltac:(by constructor)). }
  assert (Hext : Path.extname filePath = ".md").
  { by apply extname_md. }
  destruct (parse_md_bare name Hname) as [Hparsed Hrelext].
  fold rel in Hparsed, Hrelext.
  assert (Hs : permalinkSlug transliterate rel (Markdown.frontMatter parsed) page = Ok slug).
  { unfold permalinkSlug. rewrite Hslug, decide_False by done.
    by rewrite Hparsed. }
  assert (Hlead : leadingSegments site rel page = []).
  { cbn [leadingSegments]. unfold relevantSegmentsOf, dirSegmentsOf.
    by rewrite Hparsed. }
  assert (Hperm : generatePermalink site transliterate validAuthority rel (Markdown.frontMatter parsed) page
                  = Ok ("/" +:+ closeSegments
                          (if bool_decide (slug = "index")
                              || bool_decide (slug = "")
                           then [] else [slug]))).
  { rewrite (generatePermalink_closed site transliterate validAuthority _ _ _ slug
               Hs)
      by (by rewrite Hlead).
    rewrite Hlead. f_equal. unfold slugPart, directoryLike.
    rewrite (bool_decide_eq_true_2 (page = page)) by done. cbn [andb].
    rewrite Hrelext.
    rewrite (bool_decide_eq_true_2 (Js.toLowerCase ".md" = ".md")) by done.
    rewrite orb_true_r.
    destruct (bool_decide (slug = "index")); cbn [orb]; [done|].
    destruct (decide (slug = "")) as [Hempty|Hfull].
    - by rewrite bool_decide_eq_true_2.
    - rewrite bool_decide_eq_false_2 by done. same_text. }
  set (kept := if bool_decide (slug = "index") || bool_decide (slug = "")
               then [] else [slug]) in *.
  assert (Hkept : Forall (λ c, plainComponent c = true) kept).
  { unfold kept.
    destruct (bool_decide (slug = "index")); [constructor|].
    case_bool_decide as Hempty; [constructor|].
    repeat constructor. apply slugSegment_plain. unfold isSlugSegment.
    rewrite (permalinkSlug_slugChars _ _ _ _ _ Hs), andb_true_r.
    by destruct slug. }
  assert (Hitem : itemAt filePath page
    = (Some
         {| id := rel;
            sourcePath := filePath;
            relativePath := rel;
            fileType := markdown;
            isDraft := false;
            frontMatter := Markdown.frontMatter parsed;
            rawContent := Markdown.markdownContent parsed;
            htmlContent := Markdown.htmlContent parsed;
            permalink := "/" +:+ closeSegments kept;
            outputHref := "";
            outputPath :=
              generateOutputPath site cwd ("/" +:+ closeSegments kept);
            date := None |}, [])).
  { rewrite (processItem_markdown site cwd parseMarkdownFile readFile transliterate validAuthority
               filePath page parsed); [|by rewrite Hext|done].
    rewrite Hrel, Hperm.
    rewrite bool_decide_eq_false_2 by done. cbn [andb].
    by rewrite decide_False. }
  assert (Hclass : classify site filePath = Some root_page).
  { assert (Hunder : ∀ dir,
      Js.startsWith (name +:+ ".md") dir = false →
      Js.startsWith filePath (siteRoot +:+ "/" +:+ dir) = false).
    { intros dir Hdir. unfold filePath. rewrite startsWith_common.
      destruct dir as [|c dir]; [by destruct (name +:+ ".md")|].
      change (Js.startsWith ("/" +:+ name +:+ ".md") ("/" +:+ String c dir))
        with (Js.startsWith (name +:+ ".md") (String c dir)).
      exact Hdir. }
    apply Forall_cons in Hprefix as [Hposts Hprefix].
    apply Forall_cons in Hprefix as [Hdrafts Hprefix].
    apply Forall_cons in Hprefix as [Hpages _].
    unfold classify.
    change (Config.posts (Config.paths site))
      with (siteRoot +:+ "/" +:+ "posts").
    change (Config.drafts (Config.paths site))
      with (siteRoot +:+ "/" +:+ "drafts").
    change (Config.pages (Config.paths site))
      with (siteRoot +:+ "/" +:+ "pages").
    rewrite !Hunder by done.
    rewrite decide_True; [done|].
    by apply dirname_of_file. }
  eexists. split; [exact Hitem|]. split; [exact Hclass|].
  split; [done|]. split; [done|]. split.
  { cbn [outputPath permalink]. rewrite output_of_directory by done.
    same_text. }
  intros l1 l2. apply elem_of_pages. exists filePath.
  split; [apply elem_of_app; right; left|].
  unfold pageOf, builtAs.
  rewrite decide_False by (by rewrite Hclass).
  rewrite decide_True by done.
  simpl processedAs. by rewrite Hitem.
Qed.

End Addresses.

(** X24 at the sample: the first post of the sample site. *)
Lemma X24_address_of_a_post_witness :
  ∃ item,
    Sample.processItem "/site/posts/2024-01-15-hello-world.md" post
    = (Some item, [])
    ∧ permalink item = "/blog/hello-world/"
    ∧ outputPath item = "/site/output/blog/hello-world/index.html"
    ∧ item ∈ posts (Sample.processContent Sample.files).1.
Proof.
  destruct (X24_address_of_a_post Sample.cwd Sample.parseMarkdownFile
              Sample.readFile Intl.localeCompare Sample.transliterate
              Sample.validAuthority ["site"]
              ltac:(done) ltac:(by repeat constructor)
              "2024-01-15-hello-world"
              (Sample.document {[ "date" := JsDate (Some 1705276800000%Z) ]})
              1705276800000%Z)
    as (item&Hitem&_&_&Hperm&Hout&_&Hin); [by vm_compute..|].
  exists item. split; [exact Hitem|].
  split; [rewrite Hperm; by vm_compute|].
  split; [rewrite Hout; by vm_compute|].
  apply (Hin [] (drop 1 Sample.files)).
Defined.

(** X25 at the sample: the index page of [projects] and the page
    [about]. *)
Lemma X25_address_of_a_page_witness :
  (∃ item,
     Sample.processItem "/site/pages/projects/index.md" page = (Some item, [])
     ∧ permalink item = "/projects/"
     ∧ outputPath item = "/site/output/projects/index.html")
  ∧ (∃ item,
       Sample.processItem "/site/pages/about.md" page = (Some item, [])
       ∧ permalink item = "/about/"
       ∧ outputPath item = "/site/output/about/index.html").
Proof.
  split.
  - destruct (X25_address_of_a_page Sample.cwd Sample.parseMarkdownFile
                Sample.readFile Intl.localeCompare Sample.transliterate
              Sample.validAuthority ["site"]
                ltac:(done) ltac:(by repeat constructor)
                ["projects"] "index" (Sample.document ∅))
      as (item&Hitem&_&_&Hperm&Hout&_);
      [by repeat constructor|by apply (bool_decide_unpack _)
      |by vm_compute..|].
    exists item. split; [exact Hitem|].
    split; [rewrite Hperm; by vm_compute|].
    rewrite Hout, Hperm. by vm_compute.
  - destruct (X25_address_of_a_page Sample.cwd Sample.parseMarkdownFile
                Sample.readFile Intl.localeCompare Sample.transliterate
              Sample.validAuthority ["site"]
                ltac:(done) ltac:(by repeat constructor)
                [] "about" (Sample.document ∅))
      as (item&Hitem&_&_&Hperm&Hout&_);
      [by repeat constructor|by apply (bool_decide_unpack _)
      |by vm_compute..|].
    exists item. split; [exact Hitem|].
    split; [rewrite Hperm; by vm_compute|].
    rewrite Hout, Hperm. by vm_compute.
Defined.

(** X26 at the sample: [index.md] at the root of the sample site is its
    home page. *)
Lemma X26_address_of_a_root_page_witness :
  ∃ item,
    Sample.processItem "/site/index.md" page = (Some item, [])
    ∧ classify Sample.config "/site/index.md" = Some root_page
    ∧ permalink item = "/"
    ∧ outputPath item = "/site/output/index.html"
    ∧ item ∈ pages (Sample.processContent Sample.files).1.
Proof.
  destruct (X26_address_of_a_root_page Sample.cwd Sample.parseMarkdownFile
              Sample.readFile Intl.localeCompare Sample.transliterate
              Sample.validAuthority ["site"]
              ltac:(done) ltac:(by repeat constructor)
              "index" (Sample.document ∅))
    as (item&Hitem&Hclass&_&Hperm&Hout&Hin);
    [by repeat constructor..|by vm_compute|by vm_compute|by vm_compute|].
  exists item. split; [exact Hitem|]. split; [exact Hclass|].
  split; [rewrite Hperm; by vm_compute|].
  split; [rewrite Hout, Hperm; by vm_compute|].
  apply (Hin (take 6 Sample.files) (drop 7 Sample.files)).
Defined.

(** C1 at the sample: the pages of a Markdown file, of an HTML file and of
    the HTML index of a directory. *)
Lemma C1_permalink_shape_witness :
  permalink <$>
    pages (Sample.processContent
             ["/site/pages/about.md"; "/site/pages/docs/guide.html";
              "/site/pages/docs/index.html"]).1
  = ["/about/"; "/docs/"; "/docs/guide"]
  ∧ Forall
      (λ item,
         permalinkWellFormed (permalink item)
         ∨ permalinkPattern (permalink item +:+ "/") = true)
      (pages (Sample.processContent
                ["/site/pages/about.md"; "/site/pages/docs/guide.html";
                 "/site/pages/docs/index.html"]).1).
Proof.
  split; [by vm_compute|].
  destruct (C1_permalink_shape Sample.config Sample.cwd
              Sample.parseMarkdownFile Sample.readFile Intl.localeCompare
              Sample.transliterate Sample.validAuthority
              ["/site/pages/about.md"; "/site/pages/docs/guide.html";
               "/site/pages/docs/index.html"])
    as (_&_&Hpages).
  rewrite Forall_forall in Hpages. apply Forall_forall. intros item Hin.
  destruct (Hpages item Hin) as (slug&_&Hclosed&Hopen).
  { revert item Hin. apply Forall_forall. apply (bool_decide_unpack _).
    by vm_compute. }
  destruct (directoryLike (relativePath item) slug) eqn:Hlike;
    [left; apply Hclosed; by left|].
  destruct (decide (slug = "")) as [->|Hne];
    [left; apply Hclosed; by right|].
  right. by apply Hopen.
Defined.

(** * The file types of the discovered files *)

Lemma startsWith_inv s p : Js.startsWith s p = true → ∃ r, s = p +:+ r.
Proof.
  revert s. induction p as [|b p IH]; intros s; [by exists s; destruct s|].
  destruct s as [|a s]; [done|]. simpl.
  rewrite andb_true_iff. intros [->%Ascii.eqb_eq (r&->)%IH]. by exists r.
Qed.

Lemma endsWith_inv s suffix :
  Js.endsWith s suffix = true → ∃ stem, s = stem +:+ suffix.
Proof.
  unfold Js.endsWith. intros (r&Hr)%startsWith_inv.
  exists (String.rev r).
  by rewrite <- (rev_involutive s), Hr, rev_append, rev_involutive.
Qed.

Lemma splitExt_html name :
  name ≠ "" → Path.splitExt (name +:+ ".html") = (name, ".html").
Proof.
  intros Hne. unfold Path.splitExt. rewrite rev_append.
  change (String.rev ".html") with "lmth.".
  change (Path.breakDot ("lmth." +:+ String.rev name))
    with ("lmth", Some (String.rev name)).
  cbv beta iota. rewrite decide_False.
  2:{ intros Hr. apply (f_equal String.rev) in Hr.
      by rewrite rev_involutive in Hr. }
  rewrite decide_False.
  2:{ destruct name as [|a [|b [|c name]]]; try done.
      all: simpl; intros [= _ Hx]; try done. }
  by rewrite rev_involutive.
Qed.

(** The extension of a path that matches [*.{md,html}]. *)
Lemma extname_of_content filePath :
  matchesContentPattern filePath = true →
  Path.extname filePath = ".md" ∨ Path.extname filePath = ".html".
Proof.
  unfold matchesContentPattern, contentFileName, Path.extname, Path.basename.
  generalize ((Path.scanBack filePath).1). intros base.
  rewrite andb_true_iff, orb_true_iff, negb_true_iff.
  intros [[(stem&->)%endsWith_inv|(stem&->)%endsWith_inv] Hdot].
  - left. rewrite splitExt_md; [done|]. by intros ->.
  - right. rewrite splitExt_html; [done|]. by intros ->.
Qed.

Section FileTypes.
Variable config : Config.SiteConfig.
Variable cwd : string.
Variable parseMarkdownFile : string → Result Markdown.ParsedMarkdown.
Variable readFile : string → Result string.
Variable localeCompare : string → string → Z.
Variable transliterate : string → string.
Variable validAuthority : string → bool.

Abbreviation builder :=
  (processItem config cwd parseMarkdownFile readFile transliterate
     validAuthority).
Abbreviation result :=
  (processContent config cwd parseMarkdownFile readFile localeCompare
     transliterate validAuthority).

(** Where the front matter and the two bodies of a built item come from. *)
Lemma processItem_content filePath itemType item out :
  builder filePath itemType = (Some item, out) →
  if decide (Js.toLowerCase (Path.extname filePath) = ".md")
  then ∃ parsed,
         parseMarkdownFile filePath = Ok parsed
         ∧ frontMatter item = Markdown.frontMatter parsed
         ∧ rawContent item = Markdown.markdownContent parsed
         ∧ htmlContent item = Markdown.htmlContent parsed
  else frontMatter item = ∅
       ∧ readFile filePath = Ok (rawContent item)
       ∧ htmlContent item = rawContent item.
Proof.
  unfold processItem, tryProcessItem.
  destruct (decide (Js.toLowerCase (Path.extname filePath) = ".md")).
  - destruct (parseMarkdownFile filePath) as [parsed|]; simpl; [|done].
    destruct (bool_decide _ && _); [done|].
    destruct (generatePermalink _ _ _ _ _ _); simpl; [|done].
    destruct (decide _); [destruct (_ || _ || _)|];
      intros [= <- _]; by eexists.
  - destruct (readFile filePath) as [raw|]; simpl; [|done].
    destruct (generatePermalink _ _ _ _ _ _); simpl; [|done].
    destruct (decide _); [done|]. by intros [= <- _].
Qed.


End FileTypes.

